(** * NAT port-forwarding manager: allocation and reconciliation engine

    A shallow embedding of [apps/proxmox-nat/nat_manager.py] (class
    [NATManager]) and the properties of its port allocator and of the
    operations that keep the SQLite tables and the iptables NAT table
    together.

    Modelling conventions.
    - Python [int] is [Z]; Python [str] is [string], read as ASCII text
      (the regular-expression classes [\d] and [\w] are taken on ASCII).
    - The two SQLite tables are lists of rows in insertion order.  The
      columns [id] and [created_at] are assigned by the storage layer and
      are read by no query of the engine; they are left out of the row.
      The tables are what the connection of the engine reads; [commit] is
      not modelled.  SQLite stores signed 64-bit integers and binding an
      [int] outside this range raises [OverflowError], which the model does
      not have: the statements about [reserve_ports], [unreserve_ports] and
      the manual mode of [add_container] that depend on it take the range
      ([sqlite_int]) as a hypothesis.
    - The kernel NAT table, the [ip_forward] switch and the file
      [/etc/iptables/rules.v4] are fields of the state; the outcome of every
      external command that can fail is given by the [Host] record.  A rule
      holds the interface, protocol and address as they were written on the
      command line, and two rules are the same when these texts are.
    - An exception leaves the state as it was when it was raised, so every
      operation returns an outcome together with the state reached.
    - [assign_ports] has an unbounded [while True]; the model takes a number
      of iterations (fuel) and answers [OutOfFuel] when it is exhausted. *)

From Stdlib Require Import ZArith NArith List String Ascii Bool Lia.
From Stdlib Require Import Permutation Sorted.
From Stdlib Require Import DecimalString DecimalPos DecimalFacts.
Import ListNotations.

Local Open Scope string_scope.
Local Open Scope list_scope.
Local Open Scope Z_scope.

(** ** Python strings *)

Module PyStr.

(** [str(n)] for an [int]. *)
Definition str (n : Z) : string := NilZero.string_of_int (Z.to_int n).

(** [needle in hay] for two strings. *)
Fixpoint contains (needle hay : string) : bool :=
  prefix needle hay ||
  match hay with
  | EmptyString => false
  | String _ rest => contains needle rest
  end.

Definition is_digit (c : ascii) : bool :=
  let n := nat_of_ascii c in (48 <=? n)%nat && (n <=? 57)%nat.

(** ASCII [\w]: letters, digits and the underscore. *)
Definition is_word (c : ascii) : bool :=
  let n := nat_of_ascii c in
  is_digit c || ((65 <=? n)%nat && (n <=? 90)%nat)
             || ((97 <=? n)%nat && (n <=? 122)%nat) || (n =? 95)%nat.

Definition digit_value (c : ascii) : Z := Z.of_nat (nat_of_ascii c) - 48.

(** [int(s)] for a string of decimal digits. *)
Definition int_of_digits (s : string) : Z :=
  fold_left (fun acc c => 10 * acc + digit_value c) (list_ascii_of_string s) 0.

(** The longest prefix whose characters satisfy [p], and what follows it. *)
Fixpoint span (p : ascii -> bool) (s : string) : string * string :=
  match s with
  | EmptyString => (EmptyString, EmptyString)
  | String c rest =>
      if p c then let (a, b) := span p rest in (String c a, b)
      else (EmptyString, s)
  end.

(** [s.split(sep)] for a one-character separator. *)
Fixpoint split (sep : ascii) (s : string) : list string :=
  match s with
  | EmptyString => [EmptyString]
  | String c rest =>
      if Ascii.eqb c sep then EmptyString :: split sep rest
      else match split sep rest with
           | [] => [String c EmptyString]
           | w :: ws => String c w :: ws
           end
  end.

Definition newline : ascii := ascii_of_nat 10.

(** Line boundaries of [str.splitlines] in the ASCII range:
    LF, VT, FF, CR, FS, GS, RS. *)
Definition is_linebreak (c : ascii) : bool :=
  let n := nat_of_ascii c in
  ((10 <=? n)%nat && (n <=? 13)%nat) || ((28 <=? n)%nat && (n <=? 30)%nat).

(** [s.splitlines()]: [cur] is the line being read, [after_cr] tells that
    the previous character was a CR, so that CR LF counts once. *)
Fixpoint splitlines_go (s cur : string) (after_cr : bool) : list string :=
  match s with
  | EmptyString => if String.eqb cur EmptyString then [] else [cur]
  | String c rest =>
      if after_cr && Ascii.eqb c newline then splitlines_go rest cur false
      else if is_linebreak c
           then cur :: splitlines_go rest EmptyString (nat_of_ascii c =? 13)%nat
           else splitlines_go rest (cur ++ String c EmptyString)%string false
  end.

Definition splitlines (s : string) : list string :=
  splitlines_go s EmptyString false.

(** What follows [lit] in [s] when [s] starts with [lit]. *)
Fixpoint strip_prefix (lit s : string) : option string :=
  match lit, s with
  | EmptyString, _ => Some s
  | String a lit', String b s' =>
      if Ascii.eqb a b then strip_prefix lit' s' else None
  | String _ _, EmptyString => None
  end.

(** [re.search(lit + body, s)] where [lit] is a literal and [body] reads the
    groups from the text after it: the leftmost position where both match. *)
Fixpoint search_after {A : Type} (lit : string) (body : string -> option A)
    (s : string) : option A :=
  let here := match strip_prefix lit s with
              | Some rest => body rest
              | None => None
              end in
  match here with
  | Some a => Some a
  | None => match s with
            | EmptyString => None
            | String _ rest => search_after lit body rest
            end
  end.

(** Drops one final LF: the place where [$] may match, and the white space
    that [int] ignores. *)
Fixpoint chomp (s : string) : string :=
  match s with
  | EmptyString => EmptyString
  | String c rest =>
      if Ascii.eqb c newline && String.eqb rest EmptyString then EmptyString
      else String c (chomp rest)
  end.

End PyStr.

Import PyStr.

(** ** Data model *)

(** The entries of [DEFAULT_CONFIG] that the engine reads. *)
Record Config := {
  port_start : Z;
  network_interface : string
}.

Definition DEFAULT_CONFIG : Config :=
  {| port_start := 50000; network_interface := "vmbr0" |}.

(** A row of table [port_mappings]. *)
Record Mapping := {
  container_ip : string;
  external_port : Z;
  internal_port : Z;
  protocol : string;
  temporary : bool;
  description : option string
}.

(** A DNAT rule of chain PREROUTING in table nat. *)
Record Rule := {
  in_interface : string;
  proto : string;
  dport : Z;
  to_ip : string;
  to_port : Z
}.

Definition Rule_eqb (a b : Rule) : bool :=
  String.eqb (in_interface a) (in_interface b) &&
  String.eqb (proto a) (proto b) &&
  (dport a =? dport b) &&
  String.eqb (to_ip a) (to_ip b) &&
  (to_port a =? to_port b).

(** What the engine reads and writes: the two tables, the live NAT table,
    the forwarding switch and the saved rules file. *)
Record State := {
  port_mappings : list Mapping;
  reserved_ports : list (Z * option string);
  nat_rules : list Rule;
  ip_forward : bool;
  rules_v4 : option (list Rule)
}.

(** The host as the engine observes it through [subprocess.run]: the text
    printed by [ss -tulpn] and whether each command that is run with
    [check=True] (or inside a [try]) succeeds. *)
Record Host := {
  ss_stdout : string;
  iptables_append_ok : list Rule -> Rule -> bool;
  sysctl_ok : bool;
  iptables_save_ok : bool
}.

Definition set_port_mappings (st : State) (rows : list Mapping) : State :=
  {| port_mappings := rows; reserved_ports := reserved_ports st;
     nat_rules := nat_rules st; ip_forward := ip_forward st;
     rules_v4 := rules_v4 st |}.

Definition set_reserved_ports (st : State) (rs : list (Z * option string))
  : State :=
  {| port_mappings := port_mappings st; reserved_ports := rs;
     nat_rules := nat_rules st; ip_forward := ip_forward st;
     rules_v4 := rules_v4 st |}.

Definition set_nat_rules (st : State) (rs : list Rule) : State :=
  {| port_mappings := port_mappings st; reserved_ports := reserved_ports st;
     nat_rules := rs; ip_forward := ip_forward st; rules_v4 := rules_v4 st |}.

Definition set_ip_forward (st : State) (b : bool) : State :=
  {| port_mappings := port_mappings st; reserved_ports := reserved_ports st;
     nat_rules := nat_rules st; ip_forward := b; rules_v4 := rules_v4 st |}.

Definition set_rules_v4 (st : State) (f : option (list Rule)) : State :=
  {| port_mappings := port_mappings st; reserved_ports := reserved_ports st;
     nat_rules := nat_rules st; ip_forward := ip_forward st; rules_v4 := f |}.

(** ** Exceptions and outcomes *)

Inductive exn : Type :=
| ValueError (msg : string)
| CalledProcessError (cmd : list string)
| IndexError.

Inductive outcome (A : Type) : Type :=
| Ok (a : A)
| Raise (e : exn)
| OutOfFuel.

Arguments Ok {A} a.
Arguments Raise {A} e.
Arguments OutOfFuel {A}.

Definition bind {A B : Type} (m : outcome A) (k : A -> outcome B) : outcome B :=
  match m with
  | Ok a => k a
  | Raise e => Raise e
  | OutOfFuel => OutOfFuel
  end.

Notation "x <- m ;; k" := (bind m (fun x => k))
  (at level 61, m at next level, right associativity).
Notation "' pat <- m ;; k" := (bind m (fun x => match x with pat => k end))
  (at level 61, pat pattern, m at next level, right associativity).

(** ** Small Python helpers *)

(** [range(n)]: empty when [n <= 0]. *)
Definition range (n : Z) : list Z := map Z.of_nat (seq 0 (Z.to_nat n)).

(** [x in l] for a list of integers. *)
Definition mem (x : Z) (l : list Z) : bool := existsb (Z.eqb x) l.

(** [zip] of three lists: as long as the shortest. *)
Fixpoint zip3 {A B C : Type} (la : list A) (lb : list B) (lc : list C)
  : list (A * B * C) :=
  match la, lb, lc with
  | a :: la', b :: lb', c :: lc' => (a, b, c) :: zip3 la' lb' lc'
  | _, _, _ => []
  end.

(** Truth value of an optional list: [None] and [[]] are false. *)
Definition truthy {A : Type} (o : option (list A)) : bool :=
  match o with
  | Some (_ :: _) => true
  | _ => false
  end.

(** ** [validate_ip] *)

(** One group [\d{1,3}] of the pattern. *)
Definition digits_1_3 (s : string) : bool :=
  forallb is_digit (list_ascii_of_string s) &&
  (1 <=? String.length s)%nat && (String.length s <=? 3)%nat.

(** [re.compile(r'^(\d{1,3}\.){3}\d{1,3}$').match(ip)]: four groups of one
    to three digits separated by dots; [$] also matches before one final
    LF. *)
Definition ip_pattern_match (ip : string) : bool :=
  match split "." (chomp ip) with
  | [a; b; c; d] => forallb digits_1_3 [a; b; c; d]
  | _ => false
  end.

Definition validate_ip (ip : string) : bool :=
  if negb (ip_pattern_match ip) then false
  else
    let octets := split "." ip in
    forallb (fun octet => let v := int_of_digits (chomp octet) in
                          (0 <=? v) && (v <=? 255)) octets.

(** ** Port allocator *)

(** [is_port_in_use]: the port followed by a space or by a line end occurs
    in the output of [ss -tulpn]. *)
Definition is_port_in_use (h : Host) (port : Z) : bool :=
  contains (":" ++ str port ++ " ")%string (ss_stdout h) ||
  contains (":" ++ str port ++ String newline EmptyString)%string (ss_stdout h).

(** The test of the inner [for] of [assign_ports] for one port. *)
Definition port_conflict (h : Host) (assigned_ports reserved : list Z)
    (port : Z) : bool :=
  mem port assigned_ports || is_port_in_use h port || mem port reserved.

(** The inner [for] with its [break]: some port of the block conflicts. *)
Definition block_conflict (h : Host) (assigned_ports reserved : list Z)
    (num_ports next_port : Z) : bool :=
  existsb (fun i => port_conflict h assigned_ports reserved (next_port + i))
          (range num_ports).

(** The [while True] loop, at most [fuel] iterations. *)
Fixpoint assign_loop (fuel : nat) (h : Host) (assigned_ports reserved : list Z)
    (num_ports next_port : Z) : option Z :=
  match fuel with
  | O => None
  | S fuel' =>
      if block_conflict h assigned_ports reserved num_ports next_port
      then assign_loop fuel' h assigned_ports reserved num_ports
                       (next_port + num_ports)
      else Some next_port
  end.

Definition assign_ports (fuel : nat) (h : Host) (cfg : Config) (st : State)
    (num_ports : Z) : outcome (list Z) :=
  let assigned_ports := map external_port (port_mappings st) in
  let reserved := map fst (reserved_ports st) in
  match assign_loop fuel h assigned_ports reserved num_ports (port_start cfg) with
  | Some next_port => Ok (map (fun i => next_port + i) (range num_ports))
  | None => OutOfFuel
  end.

(** ** Firewall gateway *)

Definition make_rule (cfg : Config) (protocol : string) (external_port : Z)
    (container_ip : string) (internal_port : Z) : Rule :=
  {| in_interface := network_interface cfg; proto := protocol;
     dport := external_port; to_ip := container_ip; to_port := internal_port |}.

(** The argument vector of an [iptables] call on chain PREROUTING. *)
Definition iptables_cmd (op : string) (cfg : Config) (protocol : string)
    (external_port : Z) (container_ip : string) (internal_port : Z)
  : list string :=
  ["iptables"; "-t"; "nat"; op; "PREROUTING";
   "-i"; network_interface cfg;
   "-p"; protocol; "--dport"; str external_port;
   "-j"; "DNAT"; "--to-destination";
   (container_ip ++ ":" ++ str internal_port)%string].

(** [iptables -C]: the exact rule is in the table. *)
Definition iptables_rule_exists (cfg : Config) (st : State) (protocol : string)
    (external_port : Z) (container_ip : string) (internal_port : Z) : bool :=
  existsb (Rule_eqb (make_rule cfg protocol external_port container_ip
                               internal_port))
          (nat_rules st).

(** The [for] of [setup_iptables_rules]: a failing [iptables -A] raises and
    leaves the rules added so far. *)
Fixpoint program_rules (h : Host) (cfg : Config) (container_ip : string)
    (triples : list (Z * Z * string)) (st : State) : outcome unit * State :=
  match triples with
  | [] => (Ok tt, st)
  | (external_port, internal_port, protocol) :: rest =>
      if negb (iptables_rule_exists cfg st protocol external_port
                                    container_ip internal_port)
      then
        let r := make_rule cfg protocol external_port container_ip
                           internal_port in
        if iptables_append_ok h (nat_rules st) r
        then program_rules h cfg container_ip rest
               (set_nat_rules st (nat_rules st ++ [r]))
        else (Raise (CalledProcessError
                       (iptables_cmd "-A" cfg protocol external_port
                                     container_ip internal_port)), st)
      else program_rules h cfg container_ip rest st
  end.

(** [save_iptables_rules]: the dump of the live table replaces the rules
    file; any failure is logged and swallowed. *)
Definition save_iptables_rules (h : Host) (st : State) : State :=
  if iptables_save_ok h then set_rules_v4 st (Some (nat_rules st)) else st.

Definition setup_iptables_rules (h : Host) (cfg : Config)
    (container_ip : string) (external_ports internal_ports : list Z)
    (protocols : list string) (save_rules : bool) (st : State)
  : outcome unit * State :=
  match program_rules h cfg container_ip
          (zip3 external_ports internal_ports protocols) st with
  | (Ok _, st1) =>
      if sysctl_ok h
      then
        let st2 := set_ip_forward st1 true in
        (Ok tt, if save_rules then save_iptables_rules h st2 else st2)
      else (Raise (CalledProcessError
                     ["sysctl"; "-w"; "net.ipv4.ip_forward=1"]), st1)
  | (Raise e, st1) => (Raise e, st1)
  | (OutOfFuel, st1) => (OutOfFuel, st1)
  end.

(** ** Reconciliation engine *)

(** [SELECT COUNT( * ) FROM port_mappings WHERE container_ip = ?] *)
Definition count_by_ip (st : State) (ip : string) : Z :=
  Z.of_nat (List.length (filter (fun m => String.eqb (container_ip m) ip)
                           (port_mappings st))).

Definition new_mapping (ip : string) (ext_port int_port : Z) (proto : string)
    (description : option string) : Mapping :=
  {| container_ip := ip; external_port := ext_port; internal_port := int_port;
     protocol := proto; temporary := false; description := description |}.

Definition INTERNAL_PORTS_DEFAULT : list Z := [22; 80; 443; 8080].
Definition PROTOCOLS_DEFAULT : list string := ["tcp"; "tcp"; "tcp"; "tcp"].

(** The [for i in range(num_ports)] of automatic mode; reading
    [assigned_ports[i]] past the end raises. *)
Fixpoint automatic_loop (idxs : list Z) (assigned_ports internal_ports : list Z)
    (protocols_list : list string) : outcome (list Z * list string) :=
  match idxs with
  | [] => Ok (internal_ports, protocols_list)
  | i :: rest =>
      if i <? Z.of_nat (List.length INTERNAL_PORTS_DEFAULT)
      then automatic_loop rest assigned_ports
             (internal_ports ++ [nth (Z.to_nat i) INTERNAL_PORTS_DEFAULT 0])
             (protocols_list ++ [nth (Z.to_nat i) PROTOCOLS_DEFAULT "tcp"])
      else match nth_error assigned_ports (Z.to_nat i) with
           | Some p => automatic_loop rest assigned_ports
                         (internal_ports ++ [p]) (protocols_list ++ ["tcp"])
           | None => Raise IndexError
           end
  end.

(** [add_container], "Determine internal ports and protocols": the
    branches on [mode], with [num_ports] as the previous step left it. *)
Definition determine_internal (mode : string) (num_ports : Z)
    (assigned_ports : list Z) (internal_ports : option (list Z))
    (protocols : option (list string))
  : outcome (list Z * list Z * list string) :=
  if String.eqb mode "automatic"
  then
    '(internal_ports, protocols_list) <-
       automatic_loop (range num_ports) assigned_ports [] [] ;;
    Ok (assigned_ports, internal_ports, protocols_list)
  else if String.eqb mode "manual"
  then
    match internal_ports with
    | Some (q :: qs) =>
        if negb (Z.of_nat (List.length (q :: qs)) =? num_ports)
        then Raise (ValueError
                      "Number of internal ports doesn't match num_ports")
        else
          let protocols_list :=
            match protocols with
            | Some (x :: xs) => x :: xs
            | _ => repeat "tcp" (Z.to_nat num_ports)
            end in
          Ok (assigned_ports, q :: qs, protocols_list)
    | _ => Raise (ValueError "Internal ports required in manual mode")
    end
  else Raise (ValueError ("Invalid mode: " ++ mode)%string).

(** [add_container] up to the firewall step: validation, the choice of the
    external ports and of the internal ports and protocols.  Nothing is
    written here. *)
Definition determine_ports (fuel : nat) (h : Host) (cfg : Config) (st : State)
    (container_ip mode : string) (num_ports : Z)
    (internal_ports external_ports : option (list Z))
    (protocols : option (list string))
  : outcome (list Z * list Z * list string) :=
  if negb (validate_ip container_ip)
  then Raise (ValueError ("Invalid IP address: " ++ container_ip)%string)
  else if 0 <? count_by_ip st container_ip
  then Raise (ValueError ("IP " ++ container_ip
                                ++ " already has port mappings")%string)
  else
    '(assigned_ports, num_ports) <-
       match external_ports with
       | Some (p :: ps) => Ok (p :: ps, Z.of_nat (List.length (p :: ps)))
       | _ => ports <- assign_ports fuel h cfg st num_ports ;;
              Ok (ports, num_ports)
       end ;;
    determine_internal mode num_ports assigned_ports internal_ports protocols.

(** The row that one [INSERT] of [add_container] writes for a triple. *)
Definition mapping_of_triple (ip : string) (description : option string)
    (t : Z * Z * string) : Mapping :=
  let '(ext_port, int_port, proto) := t in
  new_mapping ip ext_port int_port proto description.

(** The [INSERT] statements of [add_container], one row per triple. *)
Definition insert_mappings (st : State) (ip : string)
    (triples : list (Z * Z * string)) (description : option string) : State :=
  set_port_mappings st
    (port_mappings st ++ map (mapping_of_triple ip description) triples).

Definition add_container (fuel : nat) (h : Host) (cfg : Config)
    (container_ip mode : string) (num_ports : Z)
    (internal_ports external_ports : option (list Z))
    (protocols : option (list string)) (temporary : bool)
    (description : option string) (st : State)
  : outcome (list (Z * Z * string)) * State :=
  match determine_ports fuel h cfg st container_ip mode num_ports
          internal_ports external_ports protocols with
  | Ok (assigned_ports, internal_ports, protocols_list) =>
      let save_rules := negb temporary in
      match setup_iptables_rules h cfg container_ip assigned_ports
              internal_ports protocols_list save_rules st with
      | (Ok _, st1) =>
          let triples := zip3 assigned_ports internal_ports protocols_list in
          (Ok triples,
           if negb temporary
           then insert_mappings st1 container_ip triples description
           else st1)
      | (Raise e, st1) => (Raise e, st1)
      | (OutOfFuel, st1) => (OutOfFuel, st1)
      end
  | Raise e => (Raise e, st)
  | OutOfFuel => (OutOfFuel, st)
  end.

(** [reserve_ports]: [INSERT OR IGNORE] on the primary key [port]. *)
Fixpoint reserve_ports (ports : list Z) (description : option string)
    (st : State) : State :=
  match ports with
  | [] => st
  | port :: rest =>
      reserve_ports rest description
        (if mem port (map fst (reserved_ports st)) then st
         else set_reserved_ports st (reserved_ports st ++ [(port, description)]))
  end.

(** [unreserve_ports]: [DELETE FROM reserved_ports WHERE port = ?]. *)
Fixpoint unreserve_ports (ports : list Z) (st : State) : State :=
  match ports with
  | [] => st
  | port :: rest =>
      unreserve_ports rest
        (set_reserved_ports st
           (filter (fun r => negb (fst r =? port)) (reserved_ports st)))
  end.

(** An element of the JSON list read by [import_mappings]; [protocol] and
    [description] are read with [entry.get]. *)
Record Entry := {
  entry_container_ip : string;
  entry_external_port : Z;
  entry_internal_port : Z;
  entry_protocol : option string;
  entry_description : option string
}.

Fixpoint import_loop (h : Host) (cfg : Config) (data : list Entry)
    (imported : Z) (st : State) : outcome Z * State :=
  match data with
  | [] => (Ok imported, st)
  | entry :: rest =>
      let ip := entry_container_ip entry in
      let ext_port := entry_external_port entry in
      let int_port := entry_internal_port entry in
      let proto := match entry_protocol entry with
                   | Some p => p
                   | None => "tcp"
                   end in
      if Z.of_nat (List.length (filter
                     (fun m => String.eqb (container_ip m) ip
                               && (external_port m =? ext_port))
                     (port_mappings st))) =? 0
      then
        match setup_iptables_rules h cfg ip [ext_port] [int_port] [proto]
                true st with
        | (Ok _, st1) =>
            import_loop h cfg rest (imported + 1)
              (insert_mappings st1 ip [(ext_port, int_port, proto)]
                 (entry_description entry))
        | (Raise e, st1) => (Raise e, st1)
        | (OutOfFuel, st1) => (OutOfFuel, st1)
        end
      else import_loop h cfg rest imported st
  end.

Definition import_mappings (h : Host) (cfg : Config) (data : list Entry)
    (st : State) : outcome Z * State :=
  import_loop h cfg data 0 st.

(** [re.search(r'-p (\w+)', line)], group 1. *)
Definition protocol_match (line : string) : option string :=
  search_after "-p "
    (fun rest => let (w, _) := span is_word rest in
                 if String.eqb w EmptyString then None else Some w)
    line.

(** [re.search(r'--dport (\d+)', line)], group 1. *)
Definition dport_match (line : string) : option string :=
  search_after "--dport "
    (fun rest => let (d, _) := span is_digit rest in
                 if String.eqb d EmptyString then None else Some d)
    line.

(** [re.search(r'--to-destination ([^:]+):(\d+)', line)], groups 1 and 2.
    The greedy [[^:]+] can only end where the first colon is, so no shorter
    choice of group 1 matches. *)
Definition to_dest_match (line : string) : option (string * string) :=
  search_after "--to-destination "
    (fun rest =>
       let (ip, after) := span (fun c => negb (Ascii.eqb c ":")) rest in
       if String.eqb ip EmptyString then None
       else match after with
            | String _ after_colon =>
                let (d, _) := span is_digit after_colon in
                if String.eqb d EmptyString then None else Some (ip, d)
            | EmptyString => None
            end)
    line.

(** One line of [iptables-save]: the tuple
    (protocol, external_port, container_ip, internal_port) of a managed
    DNAT rule, or nothing. *)
Definition parse_rule_line (cfg : Config) (line : string)
  : option (string * Z * string * Z) :=
  if contains "-A PREROUTING" line && contains "-j DNAT" line
     && contains ("-i " ++ network_interface cfg)%string line
  then
    match protocol_match line, dport_match line, to_dest_match line with
    | Some p, Some d, Some (ip, ip_port) =>
        Some (p, int_of_digits d, ip, int_of_digits ip_port)
    | _, _, _ => None
    end
  else None.

(** The body of the [for line in ...] of [rebuild_database] once the line
    has been parsed: insert the tuple unless
    (container_ip, external_port, protocol) is already in the table. *)
Definition rebuild_step (acc : Z * State) (t : string * Z * string * Z)
  : Z * State :=
  let '(imported, st) := acc in
  let '(proto, ext_port, ip, int_port) := t in
  if Z.of_nat (List.length (filter
                 (fun m => String.eqb (container_ip m) ip
                           && (external_port m =? ext_port)
                           && String.eqb (protocol m) proto)
                 (port_mappings st))) =? 0
  then (imported + 1,
        insert_mappings st ip [(ext_port, int_port, proto)] None)
  else (imported, st).

Fixpoint rebuild_loop (cfg : Config) (lines : list string) (acc : Z * State)
  : Z * State :=
  match lines with
  | [] => acc
  | line :: rest =>
      match parse_rule_line cfg line with
      | Some t => rebuild_loop cfg rest (rebuild_step acc t)
      | None => rebuild_loop cfg rest acc
      end
  end.

(** [rebuild_database], given the text printed by [iptables-save]. *)
Definition rebuild_database (cfg : Config) (iptables_save_stdout : string)
    (st : State) : Z * State :=
  rebuild_loop cfg (splitlines iptables_save_stdout) (0, st).

(** ** Vocabulary of the properties *)

(** The ports the allocator reads from the two tables. *)
Definition assigned_ports_of (st : State) : list Z :=
  map external_port (port_mappings st).

Definition reserved_set (st : State) : list Z := map fst (reserved_ports st).

(** A port that is neither assigned, nor reserved, nor bound by a listening
    socket. *)
Definition free_port (h : Host) (st : State) (p : Z) : Prop :=
  ~ In p (assigned_ports_of st) /\ ~ In p (reserved_set st)
  /\ is_port_in_use h p = false.

Definition taken_port (h : Host) (st : State) (p : Z) : Prop :=
  In p (assigned_ports_of st) \/ In p (reserved_set st)
  \/ is_port_in_use h p = true.

(** The pair that the data model wants unique in [port_mappings]. *)
Definition ext_proto (m : Mapping) : Z * string :=
  (external_port m, protocol m).

Definition unique_ext_proto (st : State) : Prop :=
  NoDup (map ext_proto (port_mappings st)).

(** No row of [port_mappings] has a reserved external port. *)
Definition no_reserved_mapped (st : State) : Prop :=
  forall m, In m (port_mappings st) -> ~ In (external_port m) (reserved_set st).

(** [init_db] on a fresh database file: both tables empty, whatever the
    firewall holds. *)
Definition init_db (rules : list Rule) (fwd : bool)
    (saved : option (list Rule)) : State :=
  {| port_mappings := []; reserved_ports := []; nat_rules := rules;
     ip_forward := fwd; rules_v4 := saved |}.

(** States produced from a fresh database by the operations of the engine,
    whatever their outcome and whatever the host answers at each call. *)
Inductive reachable (cfg : Config) : State -> Prop :=
| reach_init rules fwd saved :
    reachable cfg (init_db rules fwd saved)
| reach_add st fuel h ip mode num_ports internal_ports external_ports
            protocols temp descr :
    reachable cfg st ->
    reachable cfg
      (snd (add_container fuel h cfg ip mode num_ports internal_ports
                          external_ports protocols temp descr st))
| reach_import st h data :
    reachable cfg st ->
    reachable cfg (snd (import_mappings h cfg data st))
| reach_rebuild st dump :
    reachable cfg st ->
    reachable cfg (snd (rebuild_database cfg dump st))
| reach_reserve st ports descr :
    reachable cfg st ->
    reachable cfg (reserve_ports ports descr st)
| reach_unreserve st ports :
    reachable cfg st ->
    reachable cfg (unreserve_ports ports st).

(** The same with [add_container] always left to choose the external
    ports, and neither import nor rebuild. *)
Inductive reachable_by_allocation (cfg : Config) : State -> Prop :=
| alloc_init rules fwd saved :
    reachable_by_allocation cfg (init_db rules fwd saved)
| alloc_add st fuel h ip mode num_ports internal_ports external_ports
            protocols temp descr :
    truthy external_ports = false ->
    reachable_by_allocation cfg st ->
    reachable_by_allocation cfg
      (snd (add_container fuel h cfg ip mode num_ports internal_ports
                          external_ports protocols temp descr st))
| alloc_reserve st ports descr :
    reachable_by_allocation cfg st ->
    reachable_by_allocation cfg (reserve_ports ports descr st)
| alloc_unreserve st ports :
    reachable_by_allocation cfg st ->
    reachable_by_allocation cfg (unreserve_ports ports st).

(** The rule that serves a triple of [add_container] for an owner. *)
Definition rule_of (cfg : Config) (ip : string) (t : Z * Z * string) : Rule :=
  let '(ext_port, int_port, proto) := t in
  make_rule cfg proto ext_port ip int_port.

(** A bound above which no port is assigned, reserved or in use. *)
Definition search_bound (h : Host) (st : State) : Z :=
  Z.max (10 ^ Z.of_nat (String.length (ss_stdout h)))
        (Z.max (1 + fold_right Z.max 0 (assigned_ports_of st))
               (1 + fold_right Z.max 0 (reserved_set st))).

(** Concrete hosts and states used by the examples below. *)
Definition quiet_host : Host :=
  {| ss_stdout := EmptyString; iptables_append_ok := fun _ _ => true;
     sysctl_ok := true; iptables_save_ok := true |}.

(** A host whose [iptables -A] succeeds on an empty NAT table only. *)
Definition refusing_host : Host :=
  {| ss_stdout := EmptyString;
     iptables_append_ok := fun rules _ => match rules with
                                          | [] => true
                                          | _ :: _ => false
                                          end;
     sysctl_ok := true; iptables_save_ok := true |}.

(** A host where port 50001 has a listener. *)
Definition busy_host : Host :=
  {| ss_stdout := "tcp LISTEN 0 128 0.0.0.0:50001 0.0.0.0:*";
     iptables_append_ok := fun _ _ => true;
     sysctl_ok := true; iptables_save_ok := true |}.

Definition fresh_state : State := init_db [] false None.

(** The test of [rebuild_step]: no row has the three columns of the tuple. *)
Definition absent (st : State) (t : string * Z * string * Z) : bool :=
  let '(proto, ext_port, ip, _) := t in
  Z.of_nat (List.length (filter
              (fun m => String.eqb (container_ip m) ip
                        && (external_port m =? ext_port)
                        && String.eqb (protocol m) proto)
              (port_mappings st))) =? 0.

(** The tuples that [rebuild_database] reads from the lines, in order. *)
Fixpoint parsed_tuples (cfg : Config) (lines : list string)
  : list (string * Z * string * Z) :=
  match lines with
  | [] => []
  | line :: rest =>
      match parse_rule_line cfg line with
      | Some t => t :: parsed_tuples cfg rest
      | None => parsed_tuples cfg rest
      end
  end.

(** [num_ports] after the choice of the external ports: the length of the
    caller's list when there is one. *)
Definition effective_num_ports (external_ports : option (list Z))
    (num_ports : Z) : Z :=
  match external_ports with
  | Some (p :: ps) => Z.of_nat (List.length (p :: ps))
  | _ => num_ports
  end.

(** The state after [reserve 50000]. *)
Definition reserved_50000_state : State :=
  reserve_ports [50000] None fresh_state.

(** The state after a temporary two-port request on a fresh database. *)
Definition temporary_example_state : State :=
  snd (add_container 1 quiet_host DEFAULT_CONFIG "10.0.0.5" "automatic" 2
         None None None true None fresh_state).

(** Two owners ask for the external port 8080, one after the other. *)
Definition two_owner_state : State :=
  snd (add_container 0 quiet_host DEFAULT_CONFIG "10.0.0.2" "automatic" 6
         None (Some [8080]) None false None
         (snd (add_container 0 quiet_host DEFAULT_CONFIG "10.0.0.1"
                 "automatic" 6 None (Some [8080]) None false None
                 fresh_state))).

(** Two owners are served by the allocator, one after the other. *)
Definition two_allocations_state : State :=
  snd (add_container 2 quiet_host DEFAULT_CONFIG "10.0.0.2" "automatic" 6
         None None None false None
         (snd (add_container 1 quiet_host DEFAULT_CONFIG "10.0.0.1"
                 "automatic" 6 None None None false None fresh_state))).

(** An owner asks for the reserved port 50000. *)
Definition reserved_then_added_state : State :=
  snd (add_container 0 quiet_host DEFAULT_CONFIG "10.0.0.5" "automatic" 6
         None (Some [50000]) None false None reserved_50000_state).

(** ** The rest of the engine *)

(** [iptables -D]: the first rule equal to [r] leaves the table. *)
Fixpoint delete_first (r : Rule) (rules : list Rule) : list Rule :=
  match rules with
  | [] => []
  | x :: rest => if Rule_eqb r x then rest else x :: delete_first r rest
  end.

(** The [for] of [remove_iptables_rules].  [delete_ok] tells whether an
    [iptables -D] of a rule that is in the table succeeds; on a rule that
    is not there the command fails.  A failure is caught and logged, and
    the loop goes on. *)
Fixpoint unprogram_rules (delete_ok : list Rule -> Rule -> bool)
    (cfg : Config) (container_ip : string) (triples : list (Z * Z * string))
    (st : State) : State :=
  match triples with
  | [] => st
  | (external_port, internal_port, protocol) :: rest =>
      let r := make_rule cfg protocol external_port container_ip
                         internal_port in
      if existsb (Rule_eqb r) (nat_rules st) && delete_ok (nat_rules st) r
      then unprogram_rules delete_ok cfg container_ip rest
             (set_nat_rules st (delete_first r (nat_rules st)))
      else unprogram_rules delete_ok cfg container_ip rest st
  end.

Definition remove_iptables_rules (delete_ok : list Rule -> Rule -> bool)
    (h : Host) (cfg : Config) (container_ip : string)
    (external_ports internal_ports : list Z) (protocols : list string)
    (save_rules : bool) (st : State) : State :=
  let st1 := unprogram_rules delete_ok cfg container_ip
               (zip3 external_ports internal_ports protocols) st in
  if save_rules then save_iptables_rules h st1 else st1.

(** [remove_container]: the rows of the owner are read in table order,
    their rules are removed, then the rows are deleted. *)
Definition remove_container (delete_ok : list Rule -> Rule -> bool)
    (h : Host) (cfg : Config) (ip : string) (st : State)
  : outcome Z * State :=
  let mappings := filter (fun m => String.eqb (container_ip m) ip)
                         (port_mappings st) in
  match mappings with
  | [] => (Raise (ValueError ("No port mappings found for " ++ ip)%string), st)
  | _ :: _ =>
      let st1 := remove_iptables_rules delete_ok h cfg ip
                   (map external_port mappings) (map internal_port mappings)
                   (map protocol mappings) true st in
      (Ok (Z.of_nat (List.length mappings)),
       set_port_mappings st1
         (filter (fun m => negb (String.eqb (container_ip m) ip))
                 (port_mappings st1)))
  end.

(** [ORDER BY container_ip, external_port]; text is compared byte by
    byte. *)
Definition by_ip_then_port (a b : Mapping) : Prop :=
  String.ltb (container_ip a) (container_ip b) = true
  \/ (container_ip a = container_ip b /\ external_port a <= external_port b).

Definition by_port (a b : Mapping) : Prop :=
  external_port a <= external_port b.

(** [list_mappings]: the rows of the table (of one owner when a non-empty
    [container_ip] is given) in the order of the [ORDER BY]; rows that the
    order does not tell apart may come either way. *)
Inductive list_mappings (st : State) : option string -> list Mapping -> Prop :=
| list_all (arg : option string) (rows : list Mapping) :
    arg = None \/ arg = Some EmptyString ->
    Permutation rows (port_mappings st) ->
    StronglySorted by_ip_then_port rows ->
    list_mappings st arg rows
| list_owner (ip : string) (rows : list Mapping) :
    ip <> EmptyString ->
    Permutation rows (filter (fun m => String.eqb (container_ip m) ip)
                             (port_mappings st)) ->
    StronglySorted by_port rows ->
    list_mappings st (Some ip) rows.

(** The record that [export_mappings] writes for a row. *)
Definition entry_of_mapping (m : Mapping) : Entry :=
  {| entry_container_ip := container_ip m;
     entry_external_port := external_port m;
     entry_internal_port := internal_port m;
     entry_protocol := Some (protocol m);
     entry_description := description m |}.

(** [export_mappings]: the list written to the file. *)
Definition export_mappings (st : State) (data : list Entry) : Prop :=
  exists rows, list_mappings st None rows /\ data = map entry_of_mapping rows.

(** The rule specification of the [iptables -A] call of
    [setup_iptables_rules] on one line, as [iptables-save] prints it, with
    or without the [-m] match that [iptables-save] adds after the
    protocol. *)
Definition saved_rule_line (cfg : Config) (with_match : bool)
    (protocol : string) (external_port : Z) (container_ip : string)
    (internal_port : Z) : string :=
  ("-A PREROUTING -i " ++ network_interface cfg ++ " -p " ++ protocol
   ++ (if with_match then " -m " ++ protocol else "")
   ++ " --dport " ++ str external_port
   ++ " -j DNAT --to-destination " ++ container_ip ++ ":"
   ++ str internal_port)%string.

(** [" ".join(words)]. *)
Fixpoint join_spaces (words : list string) : string :=
  match words with
  | [] => EmptyString
  | [w] => w
  | w :: rest => (w ++ " " ++ join_spaces rest)%string
  end.

(** Key predicates of the properties. *)
Definition owner_port (m : Mapping) : string * Z :=
  (container_ip m, external_port m).

Definition owner_port_proto (m : Mapping) : string * Z * string :=
  (container_ip m, external_port m, protocol m).

Definition all_chars (p : ascii -> bool) (s : string) : bool :=
  forallb p (list_ascii_of_string s).

(** A dotted quad of four numbers. *)
Definition dotted_quad (a b c d : Z) : string :=
  (str a ++ "." ++ str b ++ "." ++ str c ++ "." ++ str d)%string.

(** A host whose firewall commands all succeed. *)
Definition accepting (h : Host) : Prop :=
  (forall rs r, iptables_append_ok h rs r = true) /\ sysctl_ok h = true.

(** The test of [import_mappings] on an entry: no row has its owner and
    external port. *)
Definition import_absent (st : State) (e : Entry) : bool :=
  Z.of_nat (List.length (filter
              (fun m => String.eqb (container_ip m) (entry_container_ip e)
                        && (external_port m =? entry_external_port e))
              (port_mappings st))) =? 0.

(** The row that [import_mappings] inserts for an entry. *)
Definition mapping_of_entry (e : Entry) : Mapping :=
  new_mapping (entry_container_ip e) (entry_external_port e)
    (entry_internal_port e)
    (match entry_protocol e with Some p => p | None => "tcp" end)
    (entry_description e).

(** The row that [rebuild_database] inserts for a tuple. *)
Definition mapping_of_tuple (t : string * Z * string * Z) : Mapping :=
  let '(proto, ext_port, ip, int_port) := t in
  new_mapping ip ext_port int_port proto None.

(** A file with the same owner and port twice, under two protocols. *)
Definition example_entries : list Entry :=
  [ {| entry_container_ip := "10.0.0.7"; entry_external_port := 8443;
       entry_internal_port := 443; entry_protocol := None;
       entry_description := Some "web" |};
    {| entry_container_ip := "10.0.0.7"; entry_external_port := 8443;
       entry_internal_port := 443; entry_protocol := Some "udp";
       entry_description := None |};
    {| entry_container_ip := "10.0.0.8"; entry_external_port := 8443;
       entry_internal_port := 22; entry_protocol := Some "tcp";
       entry_description := None |} ].

Definition imported_example_state : State :=
  snd (import_mappings quiet_host DEFAULT_CONFIG example_entries fresh_state).

(** A dump of [iptables-save] with the same rule twice and a rule of
    another interface. *)
Definition example_dump : string :=
  let nl := String newline EmptyString in
  ("*nat" ++ nl ++ ":PREROUTING ACCEPT [0:0]" ++ nl
   ++ "-A PREROUTING -i vmbr0 -p tcp -m tcp --dport 50000 -j DNAT --to-destination 10.0.0.5:22" ++ nl
   ++ "-A PREROUTING -i vmbr0 -p udp -m udp --dport 50000 -j DNAT --to-destination 10.0.0.5:53" ++ nl
   ++ "-A PREROUTING -i eth0 -p tcp -m tcp --dport 8080 -j DNAT --to-destination 10.0.0.9:80" ++ nl
   ++ "-A PREROUTING -i vmbr0 -p tcp -m tcp --dport 50000 -j DNAT --to-destination 10.0.0.5:22" ++ nl
   ++ "COMMIT" ++ nl)%string.

(** A triple that [saved_rule_line] writes and [parse_rule_line] reads
    back: protocol a non-empty word, ports natural numbers. *)
Definition readable_triple (t : Z * Z * string) : Prop :=
  let '(ext_port, int_port, proto) := t in
  all_chars is_word proto = true /\ proto <> EmptyString
  /\ 0 <= ext_port /\ 0 <= int_port.

(** The dump of the NAT table after the two-port request of
    [temporary_example_state], as [iptables-save] prints it. *)
Definition two_rule_dump : string :=
  let nl := String newline EmptyString in
  ("*nat" ++ nl ++ ":PREROUTING ACCEPT [0:0]" ++ nl
   ++ saved_rule_line DEFAULT_CONFIG true "tcp" 50000 "10.0.0.5" 22 ++ nl
   ++ saved_rule_line DEFAULT_CONFIG true "tcp" 50001 "10.0.0.5" 80 ++ nl
   ++ "COMMIT" ++ nl)%string.

Definition two_port_state : State :=
  snd (add_container 1 quiet_host DEFAULT_CONFIG "10.0.0.5" "automatic" 2
         None None None false None fresh_state).

(** [sep.join(words)] for a one-character separator. *)
Fixpoint join_with (sep : ascii) (words : list string) : string :=
  match words with
  | [] => EmptyString
  | [w] => w
  | w :: rest => (w ++ String sep (join_with sep rest))%string
  end.

(** The check of [validate_ip] on one octet: one to three digits, at most
    255. *)
Definition octet_ok (o : string) : bool :=
  digits_1_3 o && (int_of_digits o <=? 255).

(** The key on which [import_mappings] skips an entry. *)
Definition entry_key (e : Entry) : string * Z :=
  (entry_container_ip e, entry_external_port e).

(** The integers that SQLite stores.  Binding a Python [int] outside this
    range to a statement raises [OverflowError]; the model has no such
    exception, and the statements about writes that depend on it take the
    range as a hypothesis. *)
Definition sqlite_int (z : Z) : Prop := - 2 ^ 63 <= z < 2 ^ 63.

(** Text of ASCII characters, where [\d] is [0-9]. *)
Definition is_ascii_text (s : string) : bool :=
  all_chars (fun c => (nat_of_ascii c <? 128)%nat) s.

(** A fresh database on a host where the rule 50000 -> 10.0.0.5:22 is
    live. *)
Definition live_rule_state : State :=
  init_db [make_rule DEFAULT_CONFIG "tcp" 50000 "10.0.0.5" 22] true None.

(** The messages of the five [raise ValueError] statements of
    [add_container]. *)
Definition rejection_messages (ip mode : string) : list string :=
  [ ("Invalid IP address: " ++ ip)%string;
    ("IP " ++ ip ++ " already has port mappings")%string;
    "Internal ports required in manual mode";
    "Number of internal ports doesn't match num_ports";
    ("Invalid mode: " ++ mode)%string ].

(** [protocols if protocols else ['tcp'] * num_ports], the protocols list
    of manual mode. *)
Definition manual_protocols_list (protocols : option (list string))
    (num_ports : Z) : list string :=
  match protocols with
  | Some (x :: xs) => x :: xs
  | _ => repeat "tcp" (Z.to_nat num_ports)
  end.

(** The external ports of a call fit the integers of SQLite: the ports the
    caller gives do; or, when the allocator chooses them, the base port
    does and one of the blocks that the search visits is free and ends
    within the range. *)
Definition storable_ports (h : Host) (cfg : Config) (st : State)
    (external_ports : option (list Z)) (num_ports : Z) : Prop :=
  match external_ports with
  | Some (p :: ps) => Forall sqlite_int (p :: ps)
  | _ =>
      sqlite_int (port_start cfg)
      /\ exists k : nat,
           block_conflict h (assigned_ports_of st) (reserved_set st) num_ports
                          (port_start cfg + Z.of_nat k * num_ports) = false
           /\ port_start cfg + Z.of_nat k * num_ports + num_ports <= 2 ^ 63
  end.

(** * Properties *)

(** ** Strings: a port that is in use is shorter than the [ss] output *)

Lemma prefix_length (a b : string) :
  prefix a b = true -> (String.length a <= String.length b)%nat.
Proof.
  revert b; induction a as [|c a IH]; intros [|d b]; simpl; try lia;
    try discriminate.
  destruct (ascii_dec c d); [|discriminate].
  intros H; apply IH in H; lia.
Qed.

Lemma contains_length (needle hay : string) :
  contains needle hay = true ->
  (String.length needle <= String.length hay)%nat.
Proof.
  induction hay as [|c hay IH]; cbn [contains]; rewrite orb_true_iff.
  - intros [H|H]; [apply prefix_length in H; exact H | discriminate].
  - intros [H|H]; [apply prefix_length in H; exact H |].
    apply IH in H; simpl; lia.
Qed.

Lemma string_length_app (a b : string) :
  String.length (a ++ b)%string = (String.length a + String.length b)%nat.
Proof. induction a; simpl; auto. Qed.

Lemma string_of_uint_length (d : Decimal.uint) :
  String.length (NilEmpty.string_of_uint d) = N.to_nat (Unsigned.usize d).
Proof.
  induction d; simpl Unsigned.usize; simpl String.length; try rewrite IHd;
    try rewrite N2Nat.inj_succ; reflexivity.
Qed.

Lemma of_lu_lt_pow (d : Decimal.uint) :
  (Unsigned.of_lu d < 10 ^ Unsigned.usize d)%N.
Proof.
  induction d; cbn [Unsigned.of_lu Unsigned.usize];
    [ reflexivity | rewrite N.pow_succ_r'; lia .. ].
Qed.

Lemma usize_revapp (d d' : Decimal.uint) :
  Unsigned.usize (Decimal.revapp d d')
  = (Unsigned.usize d + Unsigned.usize d')%N.
Proof.
  revert d'; induction d; intros d'; simpl; try rewrite IHd; simpl; lia.
Qed.

Lemma pos_lt_pow_usize (p : positive) :
  (N.pos p < 10 ^ Unsigned.usize (Pos.to_uint p))%N.
Proof.
  rewrite <- (Unsigned.of_to p) at 1.
  rewrite Unsigned.of_uint_alt.
  eapply N.lt_le_trans; [apply of_lu_lt_pow|].
  unfold Decimal.rev. rewrite usize_revapp. simpl. rewrite N.add_0_r.
  apply N.le_refl.
Qed.

(** A positive number is below ten to the number of characters of its
    decimal writing. *)
Lemma str_length_bound (p : Z) :
  0 < p -> p < 10 ^ Z.of_nat (String.length (str p)).
Proof.
  destruct p as [|p|p]; try lia. intros _.
  unfold str; simpl Z.to_int. unfold NilZero.string_of_int, NilZero.string_of_uint.
  assert (E : String.length
                match Pos.to_uint p with
                | Decimal.Nil => "0"
                | _ => NilEmpty.string_of_uint (Pos.to_uint p)
                end = N.to_nat (Unsigned.usize (Pos.to_uint p))).
  { pose proof (Unsigned.to_uint_nonnil p) as Hn.
    rewrite <- string_of_uint_length.
    destruct (Pos.to_uint p); [congruence | reflexivity ..]. }
  rewrite E, N_nat_Z.
  pose proof (pos_lt_pow_usize p) as H.
  apply N2Z.inj_lt in H. rewrite N2Z.inj_pow in H. exact H.
Qed.

Lemma is_port_in_use_bounded (h : Host) (port : Z) :
  10 ^ Z.of_nat (String.length (ss_stdout h)) <= port ->
  is_port_in_use h port = false.
Proof.
  intros Hp.
  assert (Hpos : 0 < port).
  { pose proof (Z.pow_pos_nonneg 10 (Z.of_nat (String.length (ss_stdout h)))).
    lia. }
  pose proof (str_length_bound port Hpos) as Hb.
  assert (Hlen : (String.length (ss_stdout h) < String.length (str port))%nat).
  { destruct (Nat.lt_ge_cases (String.length (ss_stdout h))
                              (String.length (str port))) as [|Hge]; auto.
    exfalso.
    assert (10 ^ Z.of_nat (String.length (str port))
            <= 10 ^ Z.of_nat (String.length (ss_stdout h)))
      by (apply Z.pow_le_mono_r; lia).
    lia. }
  unfold is_port_in_use. apply orb_false_iff; split;
    (destruct (contains _ _) eqn:E; [|reflexivity];
     apply contains_length in E; simpl in E;
     rewrite string_length_app in E; lia).
Qed.

(** ** The allocator *)

Lemma in_range (n i : Z) : In i (range n) <-> 0 <= i < n.
Proof.
  unfold range. rewrite in_map_iff. split.
  - intros [k [<- Hk]]. apply in_seq in Hk. lia.
  - intros Hi. exists (Z.to_nat i). split; [lia|]. apply in_seq. lia.
Qed.

Lemma range_length (n : Z) : List.length (range n) = Z.to_nat n.
Proof. unfold range. now rewrite length_map, length_seq. Qed.

Lemma range_nonpos (n : Z) : n <= 0 -> range n = [].
Proof.
  intros Hn. unfold range. replace (Z.to_nat n) with O by lia. reflexivity.
Qed.

Lemma mem_In (x : Z) (l : list Z) : mem x l = true <-> In x l.
Proof.
  unfold mem. rewrite existsb_exists. split.
  - intros [y [Hy E]]. apply Z.eqb_eq in E. now subst.
  - intros H. exists x. split; [exact H | apply Z.eqb_refl].
Qed.

Lemma mem_false (x : Z) (l : list Z) : mem x l = false <-> ~ In x l.
Proof.
  rewrite <- mem_In. destruct (mem x l); split; congruence.
Qed.

Lemma port_conflict_false (h : Host) (st : State) (p : Z) :
  port_conflict h (assigned_ports_of st) (reserved_set st) p = false
  <-> free_port h st p.
Proof.
  unfold port_conflict, free_port.
  rewrite !orb_false_iff, !mem_false. tauto.
Qed.

Lemma port_conflict_true (h : Host) (st : State) (p : Z) :
  port_conflict h (assigned_ports_of st) (reserved_set st) p = true
  <-> taken_port h st p.
Proof.
  unfold port_conflict, taken_port.
  rewrite !orb_true_iff, !mem_In. tauto.
Qed.

Lemma block_conflict_false (h : Host) (asg res : list Z) (n b : Z) :
  block_conflict h asg res n b = false
  <-> forall p, b <= p < b + n -> port_conflict h asg res p = false.
Proof.
  unfold block_conflict. split.
  - intros H p Hp.
    destruct (port_conflict h asg res p) eqn:E; [|reflexivity].
    assert (X : existsb (fun i => port_conflict h asg res (b + i)) (range n)
                = true).
    { apply existsb_exists. exists (p - b). split; [apply in_range; lia|].
      now replace (b + (p - b)) with p by lia. }
    congruence.
  - intros H.
    destruct (existsb _ _) eqn:E; [|reflexivity].
    apply existsb_exists in E. destruct E as [i [Hi Hc]].
    apply in_range in Hi. rewrite H in Hc by lia. discriminate.
Qed.

Lemma block_conflict_true (h : Host) (asg res : list Z) (n b : Z) :
  block_conflict h asg res n b = true
  <-> exists p, b <= p < b + n /\ port_conflict h asg res p = true.
Proof.
  unfold block_conflict. rewrite existsb_exists. split.
  - intros [i [Hi Hc]]. apply in_range in Hi. exists (b + i). split; [lia|auto].
  - intros [p [Hp Hc]]. exists (p - b). split; [apply in_range; lia|].
    now replace (b + (p - b)) with p by lia.
Qed.

(** What the loop returns is the first block, counted from where it
    started, that has no conflict. *)
Lemma assign_loop_sound (h : Host) (asg res : list Z) (n : Z) :
  forall fuel next b,
    assign_loop fuel h asg res n next = Some b ->
    exists k : nat,
      b = next + Z.of_nat k * n
      /\ block_conflict h asg res n b = false
      /\ forall j : nat, (j < k)%nat ->
           block_conflict h asg res n (next + Z.of_nat j * n) = true.
Proof.
  induction fuel as [|fuel IH]; intros next b; simpl; [discriminate|].
  destruct (block_conflict h asg res n next) eqn:E.
  - intros H. apply IH in H. destruct H as [k [Hb [Hf Hj]]].
    exists (S k). repeat split.
    + rewrite Hb. lia.
    + exact Hf.
    + intros [|j] Hlt.
      * now replace (next + Z.of_nat 0 * n) with next by lia.
      * replace (next + Z.of_nat (S j) * n)
          with (next + n + Z.of_nat j * n) by lia.
        apply Hj. lia.
  - intros H. injection H as <-. exists O. repeat split.
    + lia.
    + exact E.
    + intros j Hj. lia.
Qed.

(** The loop ends as soon as the fuel exceeds the index of a free block. *)
Lemma assign_loop_complete (h : Host) (asg res : list Z) (n : Z) :
  forall (k : nat) next,
    block_conflict h asg res n (next + Z.of_nat k * n) = false ->
    forall fuel, (k < fuel)%nat ->
      exists b, assign_loop fuel h asg res n next = Some b.
Proof.
  induction k as [|k IH]; intros next Hfree fuel Hlt.
  - destruct fuel as [|fuel]; [lia|]. simpl.
    replace (next + Z.of_nat 0 * n) with next in Hfree by lia.
    rewrite Hfree. eauto.
  - destruct fuel as [|fuel]; [lia|]. simpl.
    destruct (block_conflict h asg res n next); [|eauto].
    apply IH; [|lia].
    now replace (next + n + Z.of_nat k * n)
      with (next + Z.of_nat (S k) * n) by lia.
Qed.

(** More fuel does not change an answer. *)
Lemma assign_loop_mono (h : Host) (asg res : list Z) (n : Z) :
  forall fuel next b,
    assign_loop fuel h asg res n next = Some b ->
    forall fuel', (fuel <= fuel')%nat ->
      assign_loop fuel' h asg res n next = Some b.
Proof.
  induction fuel as [|fuel IH]; intros next b; simpl; [discriminate|].
  intros H [|fuel'] Hle; [lia|]. simpl.
  destruct (block_conflict h asg res n next); [|exact H].
  apply IH with (fuel' := fuel') in H; [exact H | lia].
Qed.

Lemma fold_max_ge (l : list Z) (x : Z) :
  In x l -> x <= fold_right Z.max 0 l.
Proof.
  induction l as [|y l IH]; simpl; [tauto|].
  intros [->|H]; [lia | apply IH in H; lia].
Qed.

(** Beyond [search_bound] every port is free. *)
Lemma free_beyond_bound (h : Host) (st : State) (p : Z) :
  search_bound h st <= p -> free_port h st p.
Proof.
  unfold search_bound. intros Hp. repeat split.
  - intros Hin. apply fold_max_ge in Hin. lia.
  - intros Hin. apply fold_max_ge in Hin. lia.
  - apply is_port_in_use_bounded. lia.
Qed.

Lemma nth_error_range (n i : Z) :
  0 <= i < n -> nth_error (range n) (Z.to_nat i) = Some i.
Proof.
  intros Hi. unfold range.
  rewrite nth_error_map.
  rewrite (nth_error_nth' _ O) by (rewrite length_seq; lia).
  rewrite seq_nth by lia. simpl. f_equal. lia.
Qed.

(** For a positive count the loop ends: the block that starts beyond
    [search_bound] has no conflict. *)
Lemma assign_loop_total (h : Host) (cfg : Config) (st : State) (count : Z) :
  0 < count ->
  exists (fuel : nat) (b : Z),
    assign_loop fuel h (assigned_ports_of st) (reserved_set st) count
                (port_start cfg) = Some b.
Proof.
  intros Hc.
  set (base := port_start cfg).
  set (K := Z.to_nat (Z.max 0 (search_bound h st - base))).
  assert (Hfree : block_conflict h (assigned_ports_of st) (reserved_set st)
                    count (base + Z.of_nat K * count) = false).
  { apply block_conflict_false. intros p Hp.
    apply port_conflict_false, free_beyond_bound. unfold K in Hp. nia. }
  exists (S K).
  exact (assign_loop_complete _ _ _ _ K base Hfree (S K)
                              (Nat.lt_succ_diag_r K)).
Qed.

(** C3. For every [count > 0] and every state the allocator returns (with
    enough iterations, and then whatever their number) exactly [count]
    ports, the increasing block that starts at [b = port_start + k * count]
    for some [k >= 0]; no port of the block is assigned, reserved or in use,
    and each earlier block [j < k] holds a port that is. *)
Theorem assign_ports_first_free_block
    (h : Host) (cfg : Config) (st : State) (count : Z) :
  0 < count ->
  exists (fuel : nat) (k : Z),
    0 <= k /\
    let b := port_start cfg + k * count in
    let ports := map (fun i => b + i) (range count) in
    (forall fuel', (fuel <= fuel')%nat ->
       assign_ports fuel' h cfg st count = Ok ports)
    /\ Z.of_nat (List.length ports) = count
    /\ (forall i, 0 <= i < count ->
          nth_error ports (Z.to_nat i) = Some (b + i))
    /\ (forall p, In p ports -> free_port h st p)
    /\ (forall j, 0 <= j < k ->
          exists p, port_start cfg + j * count <= p
                      < port_start cfg + j * count + count
                    /\ taken_port h st p).
Proof.
  intros Hc.
  destruct (assign_loop_total h cfg st count Hc) as [fuel [b Hb]].
  destruct (assign_loop_sound _ _ _ _ _ _ _ Hb) as [k [Eb [Hbf Hbefore]]].
  exists fuel, (Z.of_nat k). split; [lia|].
  cbv zeta. rewrite <- Eb.
  split; [|split; [|split; [|split]]].
  - intros fuel' Hle. unfold assign_ports.
    fold (assigned_ports_of st). fold (reserved_set st).
    now rewrite (assign_loop_mono _ _ _ _ _ _ _ Hb fuel' Hle).
  - rewrite length_map, range_length. lia.
  - intros i Hi. rewrite nth_error_map, nth_error_range by lia. reflexivity.
  - intros p Hp. apply in_map_iff in Hp. destruct Hp as [i [<- Hi]].
    apply in_range in Hi. apply port_conflict_false.
    rewrite block_conflict_false in Hbf. apply Hbf. lia.
  - intros j Hj.
    specialize (Hbefore (Z.to_nat j) ltac:(lia)).
    rewrite Z2Nat.id in Hbefore by lia.
    apply block_conflict_true in Hbefore. destruct Hbefore as [p [Hp Hcf]].
    exists p. split; [exact Hp | now apply port_conflict_true].
Qed.

(** The theorem at six ports on a host where port 50001 is in use. *)
Lemma assign_ports_first_free_block_witness :
  0 < 6 /\
  exists (fuel : nat) (k : Z),
    0 <= k /\
    let b := port_start DEFAULT_CONFIG + k * 6 in
    let ports := map (fun i => b + i) (range 6) in
    (forall fuel', (fuel <= fuel')%nat ->
       assign_ports fuel' busy_host DEFAULT_CONFIG fresh_state 6 = Ok ports)
    /\ Z.of_nat (List.length ports) = 6
    /\ (forall i, 0 <= i < 6 ->
          nth_error ports (Z.to_nat i) = Some (b + i))
    /\ (forall p, In p ports -> free_port busy_host fresh_state p)
    /\ (forall j, 0 <= j < k ->
          exists p, port_start DEFAULT_CONFIG + j * 6 <= p
                      < port_start DEFAULT_CONFIG + j * 6 + 6
                    /\ taken_port busy_host fresh_state p).
Proof.
  split; [lia|].
  apply (assign_ports_first_free_block busy_host DEFAULT_CONFIG fresh_state 6).
  lia.
Defined.

(** C6, as the code has it.  For every [count <= 0] the allocator raises
    nothing: the inner loop has no iteration, the first candidate is kept
    and the empty list is returned. *)
Theorem assign_ports_nonpositive_count
    (fuel : nat) (h : Host) (cfg : Config) (st : State) (count : Z) :
  count <= 0 -> (0 < fuel)%nat ->
  assign_ports fuel h cfg st count = Ok [].
Proof.
  intros Hc Hf. destruct fuel as [|fuel]; [lia|].
  unfold assign_ports. simpl. unfold block_conflict.
  rewrite (range_nonpos count Hc). reflexivity.
Qed.

Lemma assign_ports_nonpositive_count_witness :
  -2 <= 0 /\ (0 < 1)%nat /\
  assign_ports 1 busy_host DEFAULT_CONFIG fresh_state (-2) = Ok [].
Proof.
  split; [lia|]. split; [lia|].
  apply (assign_ports_nonpositive_count 1 busy_host DEFAULT_CONFIG
                                        fresh_state (-2)); lia.
Defined.

(** C6, as stated, fails: a request for zero ports returns normally. *)
Lemma assign_ports_zero_no_error :
  0 <= 0 /\
  assign_ports 1 quiet_host DEFAULT_CONFIG fresh_state 0 = Ok [] /\
  forall e : exn,
    assign_ports 1 quiet_host DEFAULT_CONFIG fresh_state 0 <> Raise e.
Proof.
  split; [lia|]. split; [reflexivity|]. intros e H. discriminate H.
Qed.

(** ** The firewall step *)

Lemma Rule_eqb_eq (a b : Rule) : Rule_eqb a b = true <-> a = b.
Proof.
  unfold Rule_eqb. rewrite !andb_true_iff, !String.eqb_eq, !Z.eqb_eq.
  destruct a, b; simpl. split.
  - intros [[[[-> ->] ->] ->] ->]. reflexivity.
  - intros E. injection E as -> -> -> -> ->. tauto.
Qed.

Lemma iptables_rule_exists_In (cfg : Config) (st : State) proto ext ip int :
  iptables_rule_exists cfg st proto ext ip int = true
  <-> In (make_rule cfg proto ext ip int) (nat_rules st).
Proof.
  unfold iptables_rule_exists. rewrite existsb_exists. split.
  - intros [r [Hr E]]. apply Rule_eqb_eq in E. now subst.
  - intros H. eexists; split; [exact H | now apply Rule_eqb_eq].
Qed.

(** The loop over the triples writes the NAT table only, whatever its
    outcome, and only appends rules of the batch. *)
Lemma program_rules_frame (h : Host) (cfg : Config) (ip : string) :
  forall triples st r st',
    program_rules h cfg ip triples st = (r, st') ->
    port_mappings st' = port_mappings st
    /\ reserved_ports st' = reserved_ports st
    /\ ip_forward st' = ip_forward st
    /\ rules_v4 st' = rules_v4 st
    /\ exists added,
         nat_rules st' = nat_rules st ++ added
         /\ incl added (map (rule_of cfg ip) triples)
         /\ (List.length added <= List.length triples)%nat.
Proof.
  induction triples as [|[[ext int] proto] rest IH]; intros st r st'; simpl.
  - intros E. injection E as <- <-. do 4 (split; [reflexivity|]).
    exists []. rewrite List.app_nil_r.
    split; [reflexivity | split; [apply incl_refl | simpl; lia]].
  - destruct (iptables_rule_exists cfg st proto ext ip int) eqn:Ex; simpl.
    + intros E. apply IH in E.
      destruct E as [Hp [Hr [Hf [Hv [added [Ha [Hi Hl]]]]]]].
      do 4 (split; [assumption|]).
      exists added.
      split; [assumption | split; [now apply incl_tl | simpl; lia]].
    + destruct (iptables_append_ok h (nat_rules st) _) eqn:Eok.
      * intros E. apply IH in E. simpl in E.
        destruct E as [Hp [Hr [Hf [Hv [added [Ha [Hi Hl]]]]]]].
        do 4 (split; [assumption|]).
        exists (make_rule cfg proto ext ip int :: added).
        rewrite Ha, <- List.app_assoc.
        split; [reflexivity|].
        split; [apply incl_cons; [now left | now apply incl_tl] | simpl; lia].
      * intros E. injection E as <- <-. do 4 (split; [reflexivity|]).
        exists []. rewrite List.app_nil_r.
        split; [reflexivity | split; [apply incl_nil_l | simpl; lia]].
Qed.

(** When the loop ends normally every rule of the batch is in the table. *)
Lemma program_rules_installed (h : Host) (cfg : Config) (ip : string) :
  forall triples st u st',
    program_rules h cfg ip triples st = (Ok u, st') ->
    forall t, In t triples -> In (rule_of cfg ip t) (nat_rules st').
Proof.
  induction triples as [|[[ext int] proto] rest IH]; intros st u st'; simpl;
    [intros _ t []|].
  destruct (iptables_rule_exists cfg st proto ext ip int) eqn:Ex; simpl.
  - intros E t [<-|Ht]; [|eapply IH; eauto].
    apply iptables_rule_exists_In in Ex.
    destruct (program_rules_frame _ _ _ _ _ _ _ E)
      as [_ [_ [_ [_ [added [Ha _]]]]]].
    simpl. rewrite Ha. apply in_or_app. now left.
  - destruct (iptables_append_ok h (nat_rules st) _) eqn:Eok; [|discriminate].
    intros E t [<-|Ht]; [|eapply IH; eauto].
    destruct (program_rules_frame _ _ _ _ _ _ _ E)
      as [_ [_ [_ [_ [added [Ha _]]]]]].
    simpl in *. rewrite Ha. apply in_or_app. left. apply in_or_app.
    right. now left.
Qed.

(** On a host that accepts every [iptables -A] the loop ends normally. *)
Lemma program_rules_accepting (h : Host) (cfg : Config) (ip : string) :
  (forall rs r, iptables_append_ok h rs r = true) ->
  forall triples st, fst (program_rules h cfg ip triples st) = Ok tt.
Proof.
  intros Hok. induction triples as [|[[ext int] proto] rest IH]; intros st;
    simpl; [reflexivity|].
  destruct (iptables_rule_exists cfg st proto ext ip int); simpl; auto.
  rewrite Hok. apply IH.
Qed.

Lemma save_iptables_rules_frame (h : Host) (st : State) :
  port_mappings (save_iptables_rules h st) = port_mappings st
  /\ reserved_ports (save_iptables_rules h st) = reserved_ports st
  /\ nat_rules (save_iptables_rules h st) = nat_rules st
  /\ ip_forward (save_iptables_rules h st) = ip_forward st.
Proof.
  unfold save_iptables_rules. destruct (iptables_save_ok h); simpl; auto.
Qed.

(** [setup_iptables_rules] never writes the two tables. *)
Lemma setup_iptables_rules_tables (h : Host) (cfg : Config) (ip : string)
    exts ints protos save st r st' :
  setup_iptables_rules h cfg ip exts ints protos save st = (r, st') ->
  port_mappings st' = port_mappings st
  /\ reserved_ports st' = reserved_ports st.
Proof.
  unfold setup_iptables_rules.
  destruct (program_rules h cfg ip (zip3 exts ints protos) st) as [o st1] eqn:E.
  apply program_rules_frame in E. destruct E as [Hp [Hr _]].
  destruct o as [u|e|].
  - destruct (sysctl_ok h).
    + intros X. injection X as <- <-.
      destruct save; simpl; [|auto].
      destruct (save_iptables_rules_frame h (set_ip_forward st1 true))
        as [-> [-> _]]. simpl. auto.
    + intros X. injection X as <- <-. auto.
  - intros X. injection X as <- <-. auto.
  - intros X. injection X as <- <-. auto.
Qed.

(** After a normal end the rules of the batch are live, forwarding is on,
    the NAT table has grown by rules of the batch only, and the rules file
    is as before unless saving was asked for. *)
Lemma setup_iptables_rules_ok (h : Host) (cfg : Config) (ip : string)
    exts ints protos save st u st' :
  setup_iptables_rules h cfg ip exts ints protos save st = (Ok u, st') ->
  (forall t, In t (zip3 exts ints protos) ->
             In (rule_of cfg ip t) (nat_rules st'))
  /\ ip_forward st' = true
  /\ (save = false -> rules_v4 st' = rules_v4 st)
  /\ exists added,
       nat_rules st' = nat_rules st ++ added
       /\ incl added (map (rule_of cfg ip) (zip3 exts ints protos))
       /\ (List.length added <= List.length (zip3 exts ints protos))%nat.
Proof.
  unfold setup_iptables_rules.
  destruct (program_rules h cfg ip (zip3 exts ints protos) st) as [o st1] eqn:E.
  destruct o as [u1|e|]; [|discriminate..].
  destruct (sysctl_ok h); [|discriminate].
  intros X. injection X as _ <-.
  pose proof (program_rules_installed _ _ _ _ _ _ _ E) as Hinst.
  apply program_rules_frame in E.
  destruct E as [_ [_ [_ [Hv Hadd]]]].
  assert (Hn : nat_rules (if save
                          then save_iptables_rules h (set_ip_forward st1 true)
                          else set_ip_forward st1 true) = nat_rules st1).
  { destruct save; [|reflexivity].
    now destruct (save_iptables_rules_frame h (set_ip_forward st1 true))
      as [_ [_ [-> _]]]. }
  rewrite Hn. repeat split; auto.
  - destruct save; [|reflexivity].
    now destruct (save_iptables_rules_frame h (set_ip_forward st1 true))
      as [_ [_ [_ ->]]].
  - intros ->. exact Hv.
Qed.

Lemma setup_iptables_rules_accepting (h : Host) (cfg : Config) (ip : string)
    exts ints protos save st :
  (forall rs r, iptables_append_ok h rs r = true) ->
  sysctl_ok h = true ->
  fst (setup_iptables_rules h cfg ip exts ints protos save st) = Ok tt.
Proof.
  intros Hok Hs. unfold setup_iptables_rules.
  pose proof (program_rules_accepting h cfg ip Hok (zip3 exts ints protos) st)
    as H.
  destruct (program_rules h cfg ip (zip3 exts ints protos) st) as [o st1].
  simpl in H. subst o. now rewrite Hs.
Qed.

(** ** [rebuild_database] *)

Lemma rebuild_loop_fold (cfg : Config) (lines : list string) acc :
  rebuild_loop cfg lines acc
  = fold_left rebuild_step (parsed_tuples cfg lines) acc.
Proof.
  revert acc. induction lines as [|l ls IH]; intros acc; simpl; auto.
  destruct (parse_rule_line cfg l); simpl; auto.
Qed.

Lemma rebuild_step_absent (n : Z) (st : State) t :
  rebuild_step (n, st) t =
  if absent st t
  then (n + 1, insert_mappings st (snd (fst t))
                 [(snd (fst (fst t)), snd t, fst (fst (fst t)))] None)
  else (n, st).
Proof. destruct t as [[[proto ext] ip] int]. reflexivity. Qed.

(** A tuple found in the table stays there when rows are appended. *)
Lemma absent_app_false (st : State) (rows : list Mapping) t :
  absent st t = false ->
  absent (set_port_mappings st (port_mappings st ++ rows)) t = false.
Proof.
  destruct t as [[[proto ext] ip] int]. unfold absent. simpl.
  rewrite !Z.eqb_neq, filter_app, length_app. lia.
Qed.

Lemma rebuild_step_present (acc : Z * State) t :
  absent (snd (rebuild_step acc t)) t = false.
Proof.
  destruct acc as [n st]. rewrite rebuild_step_absent.
  destruct (absent st t) eqn:E; simpl; [|exact E].
  destruct t as [[[proto ext] ip] int]. unfold absent, insert_mappings. simpl.
  rewrite filter_app, length_app. simpl.
  rewrite !String.eqb_refl, Z.eqb_refl. simpl.
  apply Z.eqb_neq. lia.
Qed.

Lemma rebuild_step_keeps (acc : Z * State) t u :
  absent (snd acc) u = false -> absent (snd (rebuild_step acc t)) u = false.
Proof.
  destruct acc as [n st]. rewrite rebuild_step_absent. simpl.
  destruct (absent st t); simpl; auto.
  intros H. now apply absent_app_false.
Qed.

Lemma rebuild_fold_keeps ts : forall acc u,
  absent (snd acc) u = false ->
  absent (snd (fold_left rebuild_step ts acc)) u = false.
Proof.
  induction ts as [|t ts IH]; intros acc u H; simpl; auto.
  apply IH. now apply rebuild_step_keeps.
Qed.

(** After a run every tuple of the dump is in the table. *)
Lemma rebuild_fold_present ts : forall acc u,
  In u ts -> absent (snd (fold_left rebuild_step ts acc)) u = false.
Proof.
  induction ts as [|t ts IH]; intros acc u; simpl; [tauto|].
  intros [->|H].
  - apply rebuild_fold_keeps, rebuild_step_present.
  - now apply IH.
Qed.

(** A run over tuples that are all in the table inserts nothing. *)
Lemma rebuild_fold_noop ts : forall n st,
  (forall u, In u ts -> absent st u = false) ->
  fold_left rebuild_step ts (n, st) = (n, st).
Proof.
  induction ts as [|t ts IH]; intros n st H; cbn [fold_left]; auto.
  rewrite rebuild_step_absent, (H t) by now left.
  apply IH. intros u Hu. apply H. now right.
Qed.

(** C8. A second run of [rebuild_database] over the same dump of the
    firewall inserts no row: it returns 0 and leaves the state as the first
    run left it. *)
Theorem rebuild_database_idempotent
    (cfg : Config) (iptables_save_stdout : string) (st : State) :
  rebuild_database cfg iptables_save_stdout
    (snd (rebuild_database cfg iptables_save_stdout st))
  = (0, snd (rebuild_database cfg iptables_save_stdout st)).
Proof.
  unfold rebuild_database. rewrite !rebuild_loop_fold.
  apply rebuild_fold_noop. intros u Hu.
  now apply rebuild_fold_present.
Qed.

(** ** [add_container] *)

(** The call unfolded along the outcome of its three steps. *)
Lemma add_container_steps fuel h cfg ip mode n ints exts protos temp descr st
      assigned internal plist :
  determine_ports fuel h cfg st ip mode n ints exts protos
    = Ok (assigned, internal, plist) ->
  add_container fuel h cfg ip mode n ints exts protos temp descr st =
  match setup_iptables_rules h cfg ip assigned internal plist (negb temp) st
  with
  | (Ok _, st1) =>
      (Ok (zip3 assigned internal plist),
       if negb temp
       then insert_mappings st1 ip (zip3 assigned internal plist) descr
       else st1)
  | (Raise e, st1) => (Raise e, st1)
  | (OutOfFuel, st1) => (OutOfFuel, st1)
  end.
Proof. intros H. unfold add_container. rewrite H. reflexivity. Qed.

(** A call that ends with [Ok] went through the three steps. *)
Lemma add_container_ok_inv fuel h cfg ip mode n ints exts protos temp descr st
      triples st' :
  add_container fuel h cfg ip mode n ints exts protos temp descr st
    = (Ok triples, st') ->
  exists assigned internal plist st1,
    determine_ports fuel h cfg st ip mode n ints exts protos
      = Ok (assigned, internal, plist)
    /\ setup_iptables_rules h cfg ip assigned internal plist (negb temp) st
       = (Ok tt, st1)
    /\ triples = zip3 assigned internal plist
    /\ st' = (if negb temp
              then insert_mappings st1 ip triples descr else st1).
Proof.
  unfold add_container.
  destruct (determine_ports fuel h cfg st ip mode n ints exts protos)
    as [[[assigned internal] plist]|e|]; [|discriminate..].
  destruct (setup_iptables_rules h cfg ip assigned internal plist
              (negb temp) st) as [[[]|e|] st1] eqn:E; [|discriminate..].
  intros X. injection X as <- <-.
  exists assigned, internal, plist, st1. auto.
Qed.




(** C9. A successful call with [temporary=True] inserts no row (both
    tables are as before) and does not write the rules file, while every
    rule of the batch is live afterwards, forwarding is on, and the list
    returned is the position-wise list of the chosen triples. *)
Theorem add_container_temporary_frame
    fuel h cfg ip mode n ints exts protos descr st triples st' :
  add_container fuel h cfg ip mode n ints exts protos true descr st
    = (Ok triples, st') ->
  port_mappings st' = port_mappings st
  /\ reserved_ports st' = reserved_ports st
  /\ rules_v4 st' = rules_v4 st
  /\ ip_forward st' = true
  /\ (forall t, In t triples -> In (rule_of cfg ip t) (nat_rules st'))
  /\ exists assigned internal plist,
       determine_ports fuel h cfg st ip mode n ints exts protos
         = Ok (assigned, internal, plist)
       /\ triples = zip3 assigned internal plist.
Proof.
  intros H. apply add_container_ok_inv in H.
  destruct H as [assigned [internal [plist [st1 [Hd [Hs [Ht Hst]]]]]]].
  simpl in Hst, Hs. subst st'.
  destruct (setup_iptables_rules_tables _ _ _ _ _ _ _ _ _ _ Hs) as [Hp Hr].
  destruct (setup_iptables_rules_ok _ _ _ _ _ _ _ _ _ _ Hs)
    as [Hin [Hf [Hv _]]].
  split; [exact Hp|]. split; [exact Hr|]. split; [now apply Hv|].
  split; [exact Hf|]. split.
  - intros t Hin'. apply Hin. now rewrite <- Ht.
  - exists assigned, internal, plist. auto.
Qed.

Lemma add_container_temporary_frame_witness :
  port_mappings temporary_example_state = port_mappings fresh_state
  /\ reserved_ports temporary_example_state = reserved_ports fresh_state
  /\ rules_v4 temporary_example_state = rules_v4 fresh_state
  /\ ip_forward temporary_example_state = true
  /\ (forall t, In t [(50000, 22, "tcp"); (50001, 80, "tcp")] ->
                In (rule_of DEFAULT_CONFIG "10.0.0.5" t)
                   (nat_rules temporary_example_state))
  /\ exists assigned internal plist,
       determine_ports 1 quiet_host DEFAULT_CONFIG fresh_state "10.0.0.5"
         "automatic" 2 None None None = Ok (assigned, internal, plist)
       /\ [(50000, 22, "tcp"); (50001, 80, "tcp")]
          = zip3 assigned internal plist.
Proof.
  apply (add_container_temporary_frame 1 quiet_host DEFAULT_CONFIG "10.0.0.5"
           "automatic" 2 None None None None fresh_state
           [(50000, 22, "tcp"); (50001, 80, "tcp")]).
  vm_compute. reflexivity.
Defined.

(** On a host whose commands succeed the call ends normally once the
    batch is chosen. *)
Lemma add_container_accepting fuel h cfg ip mode n ints exts protos temp descr
      st assigned internal plist :
  (forall rs r, iptables_append_ok h rs r = true) ->
  sysctl_ok h = true ->
  determine_ports fuel h cfg st ip mode n ints exts protos
    = Ok (assigned, internal, plist) ->
  exists st1,
    setup_iptables_rules h cfg ip assigned internal plist (negb temp) st
      = (Ok tt, st1)
    /\ add_container fuel h cfg ip mode n ints exts protos temp descr st
       = (Ok (zip3 assigned internal plist),
          if negb temp
          then insert_mappings st1 ip (zip3 assigned internal plist) descr
          else st1).
Proof.
  intros Hok Hs Hd.
  pose proof (setup_iptables_rules_accepting h cfg ip assigned internal plist
                (negb temp) st Hok Hs) as H.
  rewrite (add_container_steps _ _ _ _ _ _ _ _ _ _ _ _ _ _ _ Hd).
  destruct (setup_iptables_rules h cfg ip assigned internal plist
              (negb temp) st) as [o st1].
  simpl in H. subst o. exists st1. auto.
Qed.

(** C4. Base port 50000, empty tables, none of the ports 50000..50005 in
    use, and a host whose firewall commands succeed: an automatic request
    of six ports for "10.0.0.5" returns the six triples of the scenario,
    the first four to 22, 80, 443 and 8080, the others to themselves, all
    over tcp. *)
Theorem add_container_scenario_six_ports
    (fuel : nat) (h : Host) (cfg : Config) (st : State)
    (ints : option (list Z)) (protos : option (list string))
    (temp : bool) (descr : option string) :
  port_start cfg = 50000 ->
  port_mappings st = [] ->
  reserved_ports st = [] ->
  (forall p, 50000 <= p < 50006 -> is_port_in_use h p = false) ->
  (forall rs r, iptables_append_ok h rs r = true) ->
  sysctl_ok h = true ->
  (0 < fuel)%nat ->
  fst (add_container fuel h cfg "10.0.0.5" "automatic" 6 ints None protos
                     temp descr st)
  = Ok [(50000, 22, "tcp"); (50001, 80, "tcp"); (50002, 443, "tcp");
        (50003, 8080, "tcp"); (50004, 50004, "tcp"); (50005, 50005, "tcp")].
Proof.
  intros Hbase Hpm Hres Hfree Hok Hs Hfuel.
  assert (Hd : determine_ports fuel h cfg st "10.0.0.5" "automatic" 6 ints
                 None protos
               = Ok ([50000; 50001; 50002; 50003; 50004; 50005],
                     [22; 80; 443; 8080; 50004; 50005],
                     ["tcp"; "tcp"; "tcp"; "tcp"; "tcp"; "tcp"])).
  { unfold determine_ports.
    replace (validate_ip "10.0.0.5") with true by (vm_compute; reflexivity).
    unfold count_by_ip. rewrite Hpm. cbn [negb filter List.length Z.of_nat Z.ltb Z.compare].
    destruct fuel as [|fuel]; [lia|].
    unfold assign_ports. rewrite Hpm, Hres, Hbase. cbn [map assign_loop].
    assert (Hb : block_conflict h [] [] 6 50000 = false).
    { apply block_conflict_false. intros p Hp. unfold port_conflict.
      rewrite (Hfree p Hp). reflexivity. }
    rewrite Hb. reflexivity. }
  destruct (add_container_accepting fuel h cfg "10.0.0.5" "automatic" 6 ints
              None protos temp descr st _ _ _ Hok Hs Hd) as [st1 [_ Ha]].
  rewrite Ha. reflexivity.
Qed.

Lemma add_container_scenario_six_ports_witness :
  fst (add_container 1 quiet_host DEFAULT_CONFIG "10.0.0.5" "automatic" 6
         None None None false None fresh_state)
  = Ok [(50000, 22, "tcp"); (50001, 80, "tcp"); (50002, 443, "tcp");
        (50003, 8080, "tcp"); (50004, 50004, "tcp"); (50005, 50005, "tcp")].
Proof.
  apply (add_container_scenario_six_ports 1 quiet_host DEFAULT_CONFIG
           fresh_state None None false None).
  - reflexivity.
  - reflexivity.
  - reflexivity.
  - intros p _. reflexivity.
  - intros rs r. reflexivity.
  - reflexivity.
  - lia.
Defined.

(** ** What the allocator hands over to [add_container] *)

Lemma NoDup_map_injective {A B : Type} (f : A -> B) (l : list A) :
  (forall x y, f x = f y -> x = y) -> NoDup l -> NoDup (map f l).
Proof.
  intros Hf. induction 1 as [|x l Hx Hl IH]; simpl; constructor; auto.
  intros Hin. apply in_map_iff in Hin. destruct Hin as [y [E Hy]].
  apply Hf in E. now subst.
Qed.

Lemma range_NoDup (n : Z) : NoDup (range n).
Proof.
  unfold range. apply NoDup_map_injective.
  - intros a b. apply Nat2Z.inj.
  - apply seq_NoDup.
Qed.

(** Any answer of the allocator is a list of [num_ports] distinct ports
    (none when [num_ports <= 0]), each of them free. *)
Lemma assign_ports_ok (fuel : nat) (h : Host) (cfg : Config) (st : State)
    (n : Z) (ports : list Z) :
  assign_ports fuel h cfg st n = Ok ports ->
  List.length ports = Z.to_nat n
  /\ NoDup ports
  /\ forall p, In p ports -> free_port h st p.
Proof.
  unfold assign_ports.
  fold (assigned_ports_of st). fold (reserved_set st).
  destruct (assign_loop fuel h (assigned_ports_of st) (reserved_set st) n
              (port_start cfg)) as [b|] eqn:E; [|discriminate].
  intros X. injection X as <-.
  apply assign_loop_sound in E. destruct E as [k [_ [Hfree _]]].
  split; [now rewrite length_map, range_length|]. split.
  - apply NoDup_map_injective; [|apply range_NoDup].
    intros x y. lia.
  - intros p Hp. apply in_map_iff in Hp. destruct Hp as [i [<- Hi]].
    apply in_range in Hi. apply port_conflict_false.
    rewrite block_conflict_false in Hfree. apply Hfree. lia.
Qed.

(** For a positive count the allocator answers from some fuel on. *)
Lemma assign_ports_total (h : Host) (cfg : Config) (st : State) (n : Z) :
  0 < n ->
  exists (fuel0 : nat) (ports : list Z),
    forall fuel, (fuel0 <= fuel)%nat ->
      assign_ports fuel h cfg st n = Ok ports.
Proof.
  intros Hn.
  destruct (assign_loop_total h cfg st n Hn) as [fuel0 [b Hb]].
  exists fuel0, (map (fun i => b + i) (range n)).
  intros fuel Hle. unfold assign_ports.
  fold (assigned_ports_of st). fold (reserved_set st).
  now rewrite (assign_loop_mono _ _ _ _ _ _ _ Hb fuel Hle).
Qed.

Lemma zip3_length {A B C : Type} (la : list A) (lb : list B) (lc : list C) :
  List.length (zip3 la lb lc)
  = Nat.min (List.length la) (Nat.min (List.length lb) (List.length lc)).
Proof.
  revert lb lc. induction la as [|a la IH]; intros [|b lb] [|c lc]; simpl;
    try reflexivity.
  now rewrite IH.
Qed.

Lemma zip3_In_fst {A B C : Type} (la : list A) (lb : list B) (lc : list C)
      a b c :
  In (a, b, c) (zip3 la lb lc) -> In a la.
Proof.
  revert lb lc. induction la as [|x la IH]; intros [|y lb] [|z lc]; simpl;
    try tauto.
  intros [E|H]; [injection E as -> _ _; now left | right; eauto].
Qed.

Lemma zip3_NoDup_fst {A B C : Type} (la : list A) (lb : list B) (lc : list C) :
  NoDup la -> NoDup (map (fun t => fst (fst t)) (zip3 la lb lc)).
Proof.
  revert lb lc. induction la as [|x la IH]; intros [|y lb] [|z lc] H; simpl;
    try constructor.
  - intros Hin. apply in_map_iff in Hin.
    destruct Hin as [[[a b] c] [E Hin]]. simpl in E. subst a.
    apply zip3_In_fst in Hin. now inversion H.
  - apply IH. now inversion H.
Qed.

(** ** Manual mode *)

Lemma determine_internal_manual (k : Z) (assigned ints : list Z)
      (protos : option (list string)) :
  ints <> [] ->
  Z.of_nat (List.length ints) = k ->
  determine_internal "manual" k assigned (Some ints) protos
  = Ok (assigned, ints,
        match protos with
        | Some (x :: xs) => x :: xs
        | _ => repeat "tcp" (Z.to_nat k)
        end).
Proof.
  intros Hi Hl. unfold determine_internal.
  cbn [String.eqb Ascii.eqb Bool.eqb].
  destruct ints as [|q qs]; [congruence|].
  rewrite Hl, Z.eqb_refl. reflexivity.
Qed.

Lemma determine_internal_manual_mismatch (k : Z) (assigned ints : list Z)
      (protos : option (list string)) b :
  Z.of_nat (List.length ints) <> k ->
  determine_internal "manual" k assigned (Some ints) protos <> Ok b.
Proof.
  intros Hl. unfold determine_internal.
  cbn [String.eqb Ascii.eqb Bool.eqb].
  destruct ints as [|q qs]; [discriminate|].
  destruct (Z.eqb_spec (Z.of_nat (List.length (q :: qs))) k);
    [contradiction | discriminate].
Qed.

(** The batch of a manual request that passes the checks. *)
Lemma determine_ports_manual fuel h cfg st ip n ints exts protos assigned :
  validate_ip ip = true ->
  count_by_ip st ip = 0 ->
  ints <> [] ->
  match exts with
  | Some (p :: ps) => assigned = p :: ps
  | _ => assign_ports fuel h cfg st n = Ok assigned
  end ->
  Z.of_nat (List.length ints) = effective_num_ports exts n ->
  determine_ports fuel h cfg st ip "manual" n (Some ints) exts protos
  = Ok (assigned, ints,
        match protos with
        | Some (x :: xs) => x :: xs
        | _ => repeat "tcp" (Z.to_nat (effective_num_ports exts n))
        end).
Proof.
  intros Hv Hc Hi Ha Hl. unfold determine_ports. rewrite Hv, Hc. simpl negb.
  cbn [Z.ltb Z.compare].
  destruct exts as [[|p ps]|]; cbn [effective_num_ports] in *.
  - rewrite Ha. cbn [bind]. now apply determine_internal_manual.
  - subst assigned. cbn [bind]. now apply determine_internal_manual.
  - rewrite Ha. cbn [bind]. now apply determine_internal_manual.
Qed.

(** A manual request whose internal ports do not match the count never
    succeeds and changes nothing. *)
Lemma add_container_manual_internal_mismatch
      fuel h cfg ip n ints exts protos temp descr st :
  Z.of_nat (List.length ints) <> effective_num_ports exts n ->
  (forall triples,
     fst (add_container fuel h cfg ip "manual" n (Some ints) exts protos
                        temp descr st) <> Ok triples)
  /\ snd (add_container fuel h cfg ip "manual" n (Some ints) exts protos
                        temp descr st) = st.
Proof.
  intros Hl.
  assert (Hd : forall b, determine_ports fuel h cfg st ip "manual" n
                           (Some ints) exts protos <> Ok b).
  { intros b. unfold determine_ports.
    destruct (negb (validate_ip ip)); [discriminate|].
    destruct (0 <? count_by_ip st ip); [discriminate|].
    destruct exts as [[|p ps]|]; cbn [effective_num_ports] in Hl.
    - destruct (assign_ports fuel h cfg st n); cbn [bind];
        [now apply determine_internal_manual_mismatch | discriminate..].
    - cbn [bind]. now apply determine_internal_manual_mismatch.
    - destruct (assign_ports fuel h cfg st n); cbn [bind];
        [now apply determine_internal_manual_mismatch | discriminate..]. }
  unfold add_container.
  destruct (determine_ports fuel h cfg st ip "manual" n (Some ints) exts protos)
    as [b|e|] eqn:E.
  - exfalso. exact (Hd b eq_refl).
  - split; [intros t; discriminate | reflexivity].
  - split; [intros t; discriminate | reflexivity].
Qed.

(** C7, evaluated where the code departs from it.  Manual mode, two ports
    requested, two internal ports and one protocol: the call raises
    nothing, binds one triple, programs one rule and inserts one row.  The
    length of [internal_ports] is checked, the length of [protocols] is
    not. *)
Theorem add_container_protocols_count_unchecked :
  add_container 1 quiet_host DEFAULT_CONFIG "10.0.0.5" "manual" 2
    (Some [22; 80]) None (Some ["tcp"]) false None fresh_state
  = (Ok [(50000, 22, "tcp")],
     {| port_mappings := [new_mapping "10.0.0.5" 50000 22 "tcp" None];
        reserved_ports := [];
        nat_rules := [make_rule DEFAULT_CONFIG "tcp" 50000 "10.0.0.5" 22];
        ip_forward := true;
        rules_v4 := Some [make_rule DEFAULT_CONFIG "tcp" 50000 "10.0.0.5" 22]
     |}).
Proof. vm_compute. reflexivity. Qed.

(** The scenario of C7 on the internal ports: three ports requested, two
    internal ports given. *)
Example add_container_manual_three_two :
  add_container 1 quiet_host DEFAULT_CONFIG "10.0.0.5" "manual" 3
    (Some [22; 80]) None None false None fresh_state
  = (Raise (ValueError "Number of internal ports doesn't match num_ports"),
     fresh_state).
Proof. vm_compute. reflexivity. Qed.

(** ** The tables after [add_container] *)

(** Rows are only appended, by a call that ends normally and is not
    temporary; [reserved_ports] is never written. *)
Lemma add_container_tables fuel h cfg ip mode n ints exts protos temp descr
      st :
  let res := add_container fuel h cfg ip mode n ints exts protos temp descr
               st in
  port_mappings (snd res)
  = port_mappings st ++
    match fst res with
    | Ok triples =>
        if temp then [] else map (mapping_of_triple ip descr) triples
    | _ => []
    end
  /\ reserved_ports (snd res) = reserved_ports st.
Proof.
  cbv zeta. unfold add_container.
  destruct (determine_ports fuel h cfg st ip mode n ints exts protos)
    as [[[assigned internal] plist]|e|]; simpl;
    [| now rewrite List.app_nil_r | now rewrite List.app_nil_r].
  destruct (setup_iptables_rules h cfg ip assigned internal plist
              (negb temp) st) as [[u|e|] st1] eqn:E;
    apply setup_iptables_rules_tables in E; destruct E as [Hp Hr]; simpl;
    [| now rewrite List.app_nil_r, Hp | now rewrite List.app_nil_r, Hp].
  destruct temp; simpl.
  - now rewrite List.app_nil_r, Hp.
  - now rewrite Hp, Hr.
Qed.

(** Without explicit external ports, the external ports of the batch are
    an answer of the allocator. *)
Lemma determine_ports_allocated fuel h cfg st ip mode n ints exts protos
      assigned internal plist :
  truthy exts = false ->
  determine_ports fuel h cfg st ip mode n ints exts protos
    = Ok (assigned, internal, plist) ->
  assign_ports fuel h cfg st n = Ok assigned.
Proof.
  intros Ht. unfold determine_ports.
  destruct (negb (validate_ip ip)); [discriminate|].
  destruct (0 <? count_by_ip st ip); [discriminate|].
  assert (Hi : forall k a,
             determine_internal mode k a ints protos
             = Ok (assigned, internal, plist) -> a = assigned).
  { intros k a. unfold determine_internal.
    destruct (String.eqb mode "automatic").
    - destruct (automatic_loop (range k) a [] []) as [[i p]|e|];
        cbn [bind]; [|discriminate..].
      intros X. now injection X.
    - destruct (String.eqb mode "manual"); [|discriminate].
      destruct ints as [[|q qs]|]; try discriminate.
      destruct (negb (Z.of_nat (List.length (q :: qs)) =? k));
        [discriminate|].
      intros X. now injection X. }
  destruct exts as [[|p ps]|]; [| discriminate Ht |];
    (destruct (assign_ports fuel h cfg st n) as [ports|e|]; cbn [bind];
     [|discriminate..]; intros X; apply Hi in X; now subst).
Qed.

(** The external ports written by a call that used the allocator: distinct
    and free. *)
Lemma add_container_allocated_rows fuel h cfg ip mode n ints exts protos temp
      descr st triples :
  truthy exts = false ->
  fst (add_container fuel h cfg ip mode n ints exts protos temp descr st)
    = Ok triples ->
  NoDup (map (fun t => fst (fst t)) triples)
  /\ forall t, In t triples -> free_port h st (fst (fst t)).
Proof.
  intros Ht H.
  destruct (add_container fuel h cfg ip mode n ints exts protos temp descr st)
    as [r st'] eqn:E. simpl in H. subst r.
  apply add_container_ok_inv in E.
  destruct E as [assigned [internal [plist [st1 [Hd [_ [-> _]]]]]]].
  apply (determine_ports_allocated _ _ _ _ _ _ _ _ _ _ _ _ _ Ht)
    in Hd.
  apply assign_ports_ok in Hd. destruct Hd as [_ [Hnd Hfree]].
  split; [now apply zip3_NoDup_fst|].
  intros [[e i] p] Hin. apply zip3_In_fst in Hin. simpl. now apply Hfree.
Qed.

Lemma map_external_port_rows ip descr (triples : list (Z * Z * string)) :
  map external_port (map (mapping_of_triple ip descr) triples)
  = map (fun t => fst (fst t)) triples.
Proof.
  rewrite map_map. apply map_ext. now intros [[e i] p].
Qed.

(** ** Uniqueness and reservations *)

(** C1, as stated, fails.  External ports given by the caller are used
    as they are: after two such calls for two owners, a reachable state
    holds (8080, tcp) twice. *)
Lemma explicit_ports_break_uniqueness :
  ~ (forall cfg st, reachable cfg st -> unique_ext_proto st).
Proof.
  intros H.
  assert (R : reachable DEFAULT_CONFIG two_owner_state).
  { unfold two_owner_state. apply reach_add, reach_add.
    unfold fresh_state. apply reach_init. }
  apply H in R. unfold unique_ext_proto in R.
  assert (E : map ext_proto (port_mappings two_owner_state)
              = [(8080, "tcp"); (8080, "tcp")]) by (vm_compute; reflexivity).
  rewrite E in R. inversion R as [|x l Hn _]. apply Hn. now left.
Qed.

(** A call of [add_container] without external ports of the caller keeps
    (external_port, protocol) unique, whatever its outcome: the ports of
    the allocator are distinct and none is in the table. *)
Lemma add_container_allocated_unique
    fuel h cfg ip mode n ints exts protos temp descr st :
  truthy exts = false ->
  unique_ext_proto st ->
  unique_ext_proto
    (snd (add_container fuel h cfg ip mode n ints exts protos temp descr st)).
Proof.
  intros Ht Hu. unfold unique_ext_proto in *.
  destruct (add_container_tables fuel h cfg ip mode n ints exts protos temp
              descr st) as [Hp _].
  rewrite Hp. clear Hp.
  destruct (fst (add_container fuel h cfg ip mode n ints exts protos temp
                   descr st)) as [triples|e|] eqn:E;
    [| now rewrite List.app_nil_r | now rewrite List.app_nil_r].
  destruct temp; [now rewrite List.app_nil_r|].
  destruct (add_container_allocated_rows _ _ _ _ _ _ _ _ _ _ _ _ _ Ht E)
    as [Hnd Hfree].
  rewrite map_app. apply NoDup_app.
  - exact Hu.
  - apply (NoDup_map_inv fst). rewrite !map_map.
    rewrite <- map_external_port_rows with (ip := ip) (descr := descr) in Hnd.
    rewrite map_map in Hnd. exact Hnd.
  - intros [e p] Hold Hnew.
    apply in_map_iff in Hnew. destruct Hnew as [m [Em Hm]].
    apply in_map_iff in Hm. destruct Hm as [t [<- Hin]].
    destruct (Hfree t Hin) as [Hna _]. apply Hna.
    unfold assigned_ports_of.
    apply in_map_iff in Hold. destruct Hold as [m' [Em' Hm']].
    apply in_map_iff. exists m'. split; [|exact Hm'].
    destruct t as [[e0 i0] p0]. simpl in *.
    unfold ext_proto in *. simpl in Em. congruence.
Qed.

Lemma reserve_ports_mappings ports descr : forall st,
  port_mappings (reserve_ports ports descr st) = port_mappings st.
Proof.
  induction ports as [|p ps IH]; intros st; simpl; [reflexivity|].
  rewrite IH. now destruct (mem p (map fst (reserved_ports st))).
Qed.

Lemma unreserve_ports_mappings ports : forall st,
  port_mappings (unreserve_ports ports st) = port_mappings st.
Proof.
  induction ports as [|p ps IH]; intros st; simpl; [reflexivity|].
  now rewrite IH.
Qed.

(** C1, for the states that the allocator builds.  In every state
    produced from a fresh database by calls of [add_container] that leave
    the choice of the external ports to the allocator (and by reserving
    and unreserving ports), no two rows have the same
    (external_port, protocol). *)
Theorem allocated_states_unique (cfg : Config) (st : State) :
  reachable_by_allocation cfg st -> unique_ext_proto st.
Proof.
  induction 1 as [rules fwd saved
                 | st fuel h ip mode n ints exts protos temp descr Ht _ IH
                 | st ports descr _ IH
                 | st ports _ IH].
  - unfold unique_ext_proto. simpl. constructor.
  - now apply add_container_allocated_unique.
  - unfold unique_ext_proto. now rewrite reserve_ports_mappings.
  - unfold unique_ext_proto. now rewrite unreserve_ports_mappings.
Qed.

Lemma allocated_states_unique_witness :
  reachable_by_allocation DEFAULT_CONFIG two_allocations_state
  /\ unique_ext_proto two_allocations_state.
Proof.
  assert (R : reachable_by_allocation DEFAULT_CONFIG two_allocations_state).
  { unfold two_allocations_state.
    apply alloc_add; [reflexivity|]. apply alloc_add; [reflexivity|].
    unfold fresh_state. apply alloc_init. }
  split; [exact R|].
  apply (allocated_states_unique DEFAULT_CONFIG two_allocations_state R).
Defined.

(** C5, as stated, fails.  Port 50000 is reserved and no row has it; a
    call that names 50000 as external port inserts a row with it, and the
    port is still reserved. *)
Lemma explicit_port_may_be_reserved :
  reachable DEFAULT_CONFIG reserved_then_added_state
  /\ no_reserved_mapped reserved_50000_state
  /\ reserved_set reserved_then_added_state = [50000]
  /\ In 50000 (assigned_ports_of reserved_then_added_state)
  /\ ~ no_reserved_mapped reserved_then_added_state.
Proof.
  split.
  { unfold reserved_then_added_state, reserved_50000_state, fresh_state.
    apply reach_add, reach_reserve, reach_init. }
  split; [intros m []|]. split; [vm_compute; reflexivity|].
  split; [vm_compute; now left|].
  intros H.
  apply (H (new_mapping "10.0.0.5" 50000 22 "tcp" None)).
  - vm_compute. now left.
  - vm_compute. now left.
Qed.

(** C5, for the allocator and the calls that use it.  No port returned by
    the allocator is reserved; and when [add_container] is called without
    external ports of the caller, it leaves the reserved set as it is and
    inserts no row whose external port is reserved. *)
Theorem allocator_avoids_reserved
    (fuel : nat) (h : Host) (cfg : Config) (st : State) :
  (forall n ports,
     assign_ports fuel h cfg st n = Ok ports ->
     forall p, In p ports -> ~ In p (reserved_set st))
  /\ (forall ip mode n ints exts protos temp descr,
        truthy exts = false ->
        no_reserved_mapped st ->
        let st' := snd (add_container fuel h cfg ip mode n ints exts protos
                                      temp descr st) in
        reserved_set st' = reserved_set st /\ no_reserved_mapped st').
Proof.
  split.
  - intros n ports H p Hp. apply assign_ports_ok in H.
    destruct H as [_ [_ Hfree]]. now destruct (Hfree p Hp) as [_ [Hr _]].
  - intros ip mode n ints exts protos temp descr Ht Hinv. cbv zeta.
    destruct (add_container_tables fuel h cfg ip mode n ints exts protos temp
                descr st) as [Hp Hr].
    assert (Hrs : reserved_set
                    (snd (add_container fuel h cfg ip mode n ints exts protos
                            temp descr st)) = reserved_set st)
      by (unfold reserved_set; now rewrite Hr).
    split; [exact Hrs|].
    unfold no_reserved_mapped. rewrite Hrs, Hp. intros m Hm.
    apply in_app_or in Hm. destruct Hm as [Hm|Hm]; [now apply Hinv|].
    destruct (fst (add_container fuel h cfg ip mode n ints exts protos temp
                     descr st)) as [triples|e|] eqn:E; [|destruct Hm..].
    destruct temp; [destruct Hm|].
    destruct (add_container_allocated_rows _ _ _ _ _ _ _ _ _ _ _ _ _ Ht E)
      as [_ Hfree].
    apply in_map_iff in Hm. destruct Hm as [t [<- Hin]].
    destruct (Hfree t Hin) as [_ [Hnr _]].
    now destruct t as [[e0 i0] p0].
Qed.

(** Port 50000 is reserved: the allocator starts at 50006. *)
Lemma allocator_avoids_reserved_witness :
  (forall p, In p [50006; 50007; 50008; 50009; 50010; 50011] ->
             ~ In p (reserved_set reserved_50000_state))
  /\ reserved_set
       (snd (add_container 2 quiet_host DEFAULT_CONFIG "10.0.0.5" "automatic"
               6 None None None false None reserved_50000_state))
     = reserved_set reserved_50000_state
  /\ no_reserved_mapped
       (snd (add_container 2 quiet_host DEFAULT_CONFIG "10.0.0.5" "automatic"
               6 None None None false None reserved_50000_state)).
Proof.
  split.
  - apply (proj1 (allocator_avoids_reserved 2 quiet_host DEFAULT_CONFIG
                    reserved_50000_state) 6).
    vm_compute. reflexivity.
  - apply (proj2 (allocator_avoids_reserved 2 quiet_host DEFAULT_CONFIG
                    reserved_50000_state)
             "10.0.0.5" "automatic" 6 None None None false None).
    + reflexivity.
    + intros m Hm. destruct Hm.
Defined.

(** * Further properties of the engine *)

(** ** Reservations *)

Lemma set_reserved_ports_same (st : State) :
  set_reserved_ports st (reserved_ports st) = st.
Proof. now destruct st. Qed.

Lemma reserve_ports_frame ports descr : forall st,
  nat_rules (reserve_ports ports descr st) = nat_rules st
  /\ ip_forward (reserve_ports ports descr st) = ip_forward st
  /\ rules_v4 (reserve_ports ports descr st) = rules_v4 st.
Proof.
  induction ports as [|p ps IH]; intros st; simpl; [auto|].
  destruct (IH (if mem p (map fst (reserved_ports st)) then st
                else set_reserved_ports st
                       (reserved_ports st ++ [(p, descr)])))
    as [-> [-> ->]].
  now destruct (mem p (map fst (reserved_ports st))).
Qed.

(** What [reserve_ports] appends: entries for listed ports that were not
    reserved, with the description of the call, no port twice. *)
Lemma reserve_ports_appends ports descr : forall st,
  exists added,
    reserved_ports (reserve_ports ports descr st) = reserved_ports st ++ added
    /\ (forall e, In e added ->
          In (fst e) ports /\ snd e = descr /\ ~ In (fst e) (reserved_set st))
    /\ NoDup (map fst added).
Proof.
  induction ports as [|p ps IH]; intros st; simpl.
  - exists []. rewrite List.app_nil_r. split; [reflexivity|].
    split; [intros e []| constructor].
  - destruct (mem p (map fst (reserved_ports st))) eqn:E.
    + destruct (IH st) as [added [Ha [Hin Hnd]]].
      exists added. split; [exact Ha|]. split; [|exact Hnd].
      intros e He. destruct (Hin e He) as [H1 [H2 H3]]. auto.
    + apply mem_false in E.
      destruct (IH (set_reserved_ports st (reserved_ports st ++ [(p, descr)])))
        as [added [Ha [Hin Hnd]]].
      simpl in Ha.
      exists ((p, descr) :: added). rewrite Ha, <- List.app_assoc.
      split; [reflexivity|]. split.
      * intros e [<-|He]; [simpl; auto|].
        destruct (Hin e He) as [H1 [H2 H3]].
        split; [auto|]. split; [auto|].
        intros X. apply H3. unfold reserved_set. simpl.
        rewrite map_app. apply in_or_app. now left.
      * simpl. constructor; [|exact Hnd].
        intros X. apply in_map_iff in X. destruct X as [e [Ee He]].
        destruct (Hin e He) as [_ [_ H3]]. apply H3.
        unfold reserved_set. simpl. rewrite map_app. apply in_or_app.
        right. simpl. left. now rewrite Ee.
Qed.

Lemma reserve_ports_reserved ports descr : forall st p,
  In p ports \/ In p (reserved_set st) ->
  In p (reserved_set (reserve_ports ports descr st)).
Proof.
  induction ports as [|q qs IH]; intros st p; simpl.
  - intros [[]|H]; exact H.
  - intros H. apply IH.
    destruct (mem q (map fst (reserved_ports st))) eqn:E.
    + apply mem_In in E. destruct H as [[<-|H]|H]; auto.
    + unfold reserved_set. simpl. rewrite map_app. simpl.
      destruct H as [[<-|H]|H]; auto.
      * right. apply in_or_app. right. now left.
      * right. apply in_or_app. now left.
Qed.

(** X1. For ports within the integer range of SQLite, [reserve_ports]
    keeps every reservation that was there, with its description; every
    entry it adds is for a listed port that was not reserved and carries
    the description of the call; afterwards every listed port is reserved;
    [port_mappings] is untouched. *)
Theorem reserve_ports_extends
    (ports : list Z) (descr : option string) (st : State) :
  Forall sqlite_int ports ->
  (forall e, In e (reserved_ports st) ->
             In e (reserved_ports (reserve_ports ports descr st)))
  /\ (forall e, In e (reserved_ports (reserve_ports ports descr st)) ->
        In e (reserved_ports st)
        \/ (In (fst e) ports /\ snd e = descr
            /\ ~ In (fst e) (reserved_set st)))
  /\ (forall p, In p ports ->
        In p (reserved_set (reserve_ports ports descr st)))
  /\ port_mappings (reserve_ports ports descr st) = port_mappings st.
Proof.
  intros _.
  destruct (reserve_ports_appends ports descr st) as [added [Ha [Hin _]]].
  split; [|split; [|split]].
  - intros e He. rewrite Ha. apply in_or_app. now left.
  - intros e He. rewrite Ha in He. apply in_app_or in He.
    destruct He as [He|He]; [now left | right; now apply Hin].
  - intros p Hp. apply reserve_ports_reserved. now left.
  - apply reserve_ports_mappings.
Qed.

Lemma reserve_ports_extends_witness :
  (forall e, In e (reserved_ports reserved_50000_state) ->
             In e (reserved_ports (reserve_ports [8080; 50000] (Some "host")
                                                 reserved_50000_state)))
  /\ (forall e, In e (reserved_ports (reserve_ports [8080; 50000]
                                        (Some "host") reserved_50000_state)) ->
        In e (reserved_ports reserved_50000_state)
        \/ (In (fst e) [8080; 50000] /\ snd e = Some "host"
            /\ ~ In (fst e) (reserved_set reserved_50000_state)))
  /\ (forall p, In p [8080; 50000] ->
        In p (reserved_set (reserve_ports [8080; 50000] (Some "host")
                                          reserved_50000_state)))
  /\ port_mappings (reserve_ports [8080; 50000] (Some "host")
                                  reserved_50000_state)
     = port_mappings reserved_50000_state.
Proof.
  apply (reserve_ports_extends [8080; 50000] (Some "host")
                               reserved_50000_state).
  repeat constructor; vm_compute; congruence.
Defined.

(** X2. [reserve_ports] keeps the primary key of [reserved_ports]: when no
    port is reserved twice before the call, none is afterwards, even when
    the list of the call repeats a port or names a reserved one. *)
Theorem reserve_ports_unique_key
    (ports : list Z) (descr : option string) (st : State) :
  NoDup (reserved_set st) ->
  NoDup (reserved_set (reserve_ports ports descr st)).
Proof.
  intros Hnd. unfold reserved_set in *.
  destruct (reserve_ports_appends ports descr st) as [added [Ha [Hin Hn]]].
  rewrite Ha, map_app. apply NoDup_app; auto.
  intros p Hp Hq. apply in_map_iff in Hq. destruct Hq as [e [<- He]].
  destruct (Hin e He) as [_ [_ H3]]. now apply H3.
Qed.

Lemma reserve_ports_unique_key_witness :
  NoDup (reserved_set (reserve_ports [8080; 50000; 8080] (Some "host")
                                     reserved_50000_state)).
Proof.
  apply (reserve_ports_unique_key [8080; 50000; 8080] (Some "host")
                                  reserved_50000_state).
  vm_compute. repeat constructor. intros [].
Defined.

Lemma reserve_ports_noop ports descr : forall st,
  (forall p, In p ports -> In p (reserved_set st)) ->
  reserve_ports ports descr st = st.
Proof.
  induction ports as [|p ps IH]; intros st H; simpl; [reflexivity|].
  assert (E : mem p (map fst (reserved_ports st)) = true)
    by (apply mem_In, H; now left).
  rewrite E. apply IH. intros q Hq. apply H. now right.
Qed.

(** X3. Reserving again what a call has just reserved changes nothing,
    whatever the description of the second call: a reserved port keeps its
    first description. *)
Theorem reserve_ports_idempotent
    (ports : list Z) (descr descr' : option string) (st : State) :
  reserve_ports ports descr' (reserve_ports ports descr st)
  = reserve_ports ports descr st.
Proof.
  apply reserve_ports_noop. intros p Hp.
  apply reserve_ports_reserved. now left.
Qed.

Lemma unreserve_ports_filter ports : forall st,
  reserved_ports (unreserve_ports ports st)
  = filter (fun r => negb (mem (fst r) ports)) (reserved_ports st).
Proof.
  induction ports as [|p ps IH]; intros st; simpl.
  - induction (reserved_ports st) as [|r rs IHr]; simpl; [reflexivity|].
    now rewrite <- IHr.
  - rewrite IH. simpl.
    induction (reserved_ports st) as [|r rs IHr]; simpl; [reflexivity|].
    unfold mem at 2. simpl. fold (mem (fst r) ps).
    destruct (fst r =? p); simpl; [exact IHr|].
    destruct (mem (fst r) ps); simpl; [exact IHr | now rewrite IHr].
Qed.

Lemma unreserve_ports_frame ports : forall st,
  nat_rules (unreserve_ports ports st) = nat_rules st
  /\ ip_forward (unreserve_ports ports st) = ip_forward st
  /\ rules_v4 (unreserve_ports ports st) = rules_v4 st.
Proof.
  induction ports as [|p ps IH]; intros st; simpl; [auto|].
  destruct (IH (set_reserved_ports st
                  (filter (fun r => negb (fst r =? p)) (reserved_ports st))))
    as [-> [-> ->]]. auto.
Qed.

Lemma state_eq (a b : State) :
  port_mappings a = port_mappings b -> reserved_ports a = reserved_ports b ->
  nat_rules a = nat_rules b -> ip_forward a = ip_forward b ->
  rules_v4 a = rules_v4 b -> a = b.
Proof. destruct a, b; simpl; intros; subst; reflexivity. Qed.

(** X4. For ports within the integer range of SQLite, the reservations
    after [unreserve_ports] are exactly the former ones whose port is not
    listed, each with its description: no listed port is reserved any more,
    no other reservation is lost, and a listed port that was not reserved
    changes nothing; [port_mappings] is untouched. *)
Theorem unreserve_ports_removes (ports : list Z) (st : State) :
  Forall sqlite_int ports ->
  (forall e, In e (reserved_ports (unreserve_ports ports st))
             <-> In e (reserved_ports st) /\ ~ In (fst e) ports)
  /\ (forall p, In p ports -> ~ In p (reserved_set (unreserve_ports ports st)))
  /\ port_mappings (unreserve_ports ports st) = port_mappings st.
Proof.
  intros _.
  assert (Hiff : forall e, In e (reserved_ports (unreserve_ports ports st))
                           <-> In e (reserved_ports st) /\ ~ In (fst e) ports).
  { intros e. rewrite unreserve_ports_filter, filter_In.
    rewrite negb_true_iff, mem_false. reflexivity. }
  split; [exact Hiff|]. split; [|apply unreserve_ports_mappings].
  intros p Hp Hin. unfold reserved_set in Hin.
  apply in_map_iff in Hin. destruct Hin as [e [<- He]].
  apply Hiff in He. now destruct He.
Qed.

Lemma unreserve_ports_removes_witness :
  (forall e, In e (reserved_ports (unreserve_ports [50000; 22]
                                                   reserved_50000_state))
             <-> In e (reserved_ports reserved_50000_state)
                 /\ ~ In (fst e) [50000; 22])
  /\ (forall p, In p [50000; 22] ->
        ~ In p (reserved_set (unreserve_ports [50000; 22]
                                              reserved_50000_state)))
  /\ port_mappings (unreserve_ports [50000; 22] reserved_50000_state)
     = port_mappings reserved_50000_state.
Proof.
  apply (unreserve_ports_removes [50000; 22] reserved_50000_state).
  repeat constructor; vm_compute; congruence.
Defined.

(** X5. Reserving ports of which none was reserved and unreserving the
    same list gives back the state from before. *)
Theorem reserve_unreserve_round_trip
    (ports : list Z) (descr : option string) (st : State) :
  (forall p, In p ports -> ~ In p (reserved_set st)) ->
  unreserve_ports ports (reserve_ports ports descr st) = st.
Proof.
  intros Hfresh.
  destruct (reserve_ports_frame ports descr st) as [Hn [Hf Hv]].
  destruct (unreserve_ports_frame ports (reserve_ports ports descr st))
    as [Hn' [Hf' Hv']].
  apply state_eq; try congruence.
  - now rewrite unreserve_ports_mappings, reserve_ports_mappings.
  - rewrite unreserve_ports_filter.
    destruct (reserve_ports_appends ports descr st) as [added [Ha [Hin _]]].
    rewrite Ha, filter_app.
    assert (E1 : filter (fun r => negb (mem (fst r) ports)) (reserved_ports st)
                 = reserved_ports st).
    { apply forallb_filter_id. apply forallb_forall. intros r Hr.
      destruct (mem (fst r) ports) eqn:E; [|reflexivity].
      apply mem_In in E. exfalso. apply (Hfresh _ E).
      unfold reserved_set. now apply in_map. }
    assert (E2 : filter (fun r => negb (mem (fst r) ports)) added = []).
    { clear Ha. induction added as [|e es IH]; simpl; [reflexivity|].
      destruct (Hin e (or_introl eq_refl)) as [H1 _].
      apply mem_In in H1. rewrite H1. simpl. apply IH.
      intros x Hx. apply Hin. now right. }
    now rewrite E1, E2, List.app_nil_r.
Qed.

Lemma reserve_unreserve_round_trip_witness :
  unreserve_ports [22; 80; 22] (reserve_ports [22; 80; 22] None
                                               reserved_50000_state)
  = reserved_50000_state.
Proof.
  apply (reserve_unreserve_round_trip [22; 80; 22] None reserved_50000_state).
  intros p Hp Hin. vm_compute in Hin. vm_compute in Hp.
  destruct Hin as [<-|[]].
  destruct Hp as [Hp|[Hp|[Hp|[]]]]; discriminate Hp.
Defined.

(** X6. Once ports are reserved the allocator never hands one of them out,
    whatever the host reports and whatever the count. *)
Theorem reserved_ports_never_allocated
    (ports : list Z) (descr : option string) (st : State)
    (fuel : nat) (h : Host) (cfg : Config) (n : Z) (answer : list Z) :
  assign_ports fuel h cfg (reserve_ports ports descr st) n = Ok answer ->
  forall p, In p ports -> ~ In p answer.
Proof.
  intros H p Hp Hin.
  apply assign_ports_ok in H. destruct H as [_ [_ Hfree]].
  destruct (Hfree p Hin) as [_ [Hr _]]. apply Hr.
  apply reserve_ports_reserved. now left.
Qed.

Lemma reserved_ports_never_allocated_witness :
  ~ In 50007 [50012; 50013; 50014; 50015; 50016; 50017].
Proof.
  apply (reserved_ports_never_allocated [50000; 50007] None fresh_state
           3 quiet_host DEFAULT_CONFIG 6
           [50012; 50013; 50014; 50015; 50016; 50017]).
  - vm_compute. reflexivity.
  - simpl. auto.
Defined.

(** ** [remove_container] *)

Lemma unprogram_rules_frame delete_ok cfg ip : forall triples st,
  port_mappings (unprogram_rules delete_ok cfg ip triples st)
    = port_mappings st
  /\ reserved_ports (unprogram_rules delete_ok cfg ip triples st)
     = reserved_ports st
  /\ ip_forward (unprogram_rules delete_ok cfg ip triples st) = ip_forward st
  /\ rules_v4 (unprogram_rules delete_ok cfg ip triples st) = rules_v4 st.
Proof.
  induction triples as [|[[e i] p] rest IH]; intros st; simpl; [auto|].
  destruct (existsb _ (nat_rules st) && delete_ok (nat_rules st) _).
  - destruct (IH (set_nat_rules st
                    (delete_first (make_rule cfg p e ip i) (nat_rules st))))
      as [-> [-> [-> ->]]]. auto.
  - apply IH.
Qed.

Lemma remove_iptables_rules_frame delete_ok h cfg ip exts ints protos save st :
  port_mappings (remove_iptables_rules delete_ok h cfg ip exts ints protos
                   save st) = port_mappings st
  /\ reserved_ports (remove_iptables_rules delete_ok h cfg ip exts ints protos
                       save st) = reserved_ports st
  /\ ip_forward (remove_iptables_rules delete_ok h cfg ip exts ints protos
                   save st) = ip_forward st.
Proof.
  unfold remove_iptables_rules.
  destruct (unprogram_rules_frame delete_ok cfg ip (zip3 exts ints protos) st)
    as [Hp [Hr [Hf _]]].
  destruct save; [|auto].
  destruct (save_iptables_rules_frame h
              (unprogram_rules delete_ok cfg ip (zip3 exts ints protos) st))
    as [-> [-> [_ ->]]]. auto.
Qed.

Lemma count_by_ip_zero (st : State) (ip : string) :
  count_by_ip st ip = 0
  <-> filter (fun m => String.eqb (container_ip m) ip) (port_mappings st) = [].
Proof.
  unfold count_by_ip.
  destruct (filter _ (port_mappings st)); simpl; split; intros H;
    congruence || lia.
Qed.

Lemma delete_first_other (ip : string) (r : Rule) (rules : list Rule) :
  to_ip r = ip ->
  filter (fun x => negb (String.eqb (to_ip x) ip)) (delete_first r rules)
  = filter (fun x => negb (String.eqb (to_ip x) ip)) rules.
Proof.
  intros Hr. induction rules as [|x rest IH]; [reflexivity|].
  cbn [delete_first]. destruct (Rule_eqb r x) eqn:E.
  - apply Rule_eqb_eq in E. subst x. cbn [filter].
    rewrite Hr, String.eqb_refl. reflexivity.
  - cbn [filter]. rewrite IH. reflexivity.
Qed.

Lemma delete_first_incl (r : Rule) (rules : list Rule) :
  incl (delete_first r rules) rules.
Proof.
  induction rules as [|x rest IH]; [apply incl_refl|].
  cbn [delete_first]. destruct (Rule_eqb r x).
  - apply incl_tl, incl_refl.
  - intros y [<-|Hy]; [now left | right; now apply IH].
Qed.

Lemma unprogram_rules_other delete_ok cfg ip : forall triples st,
  filter (fun x => negb (String.eqb (to_ip x) ip))
         (nat_rules (unprogram_rules delete_ok cfg ip triples st))
  = filter (fun x => negb (String.eqb (to_ip x) ip)) (nat_rules st)
  /\ incl (nat_rules (unprogram_rules delete_ok cfg ip triples st))
          (nat_rules st).
Proof.
  induction triples as [|[[e i] p] rest IH]; intros st.
  - split; [reflexivity | apply incl_refl].
  - cbn [unprogram_rules].
    destruct (existsb (Rule_eqb (make_rule cfg p e ip i)) (nat_rules st)
              && delete_ok (nat_rules st) (make_rule cfg p e ip i)).
    + destruct (IH (set_nat_rules st
                      (delete_first (make_rule cfg p e ip i) (nat_rules st))))
        as [Hf Hi].
      split.
      * rewrite Hf. apply delete_first_other. reflexivity.
      * eapply incl_tran; [exact Hi | apply delete_first_incl].
    + apply IH.
Qed.

(** X7. [remove_container] takes nothing from the other owners' firewall.
    For an owner whose address is written as the kernel writes it (four
    numbers from 0 to 255 without leading zeros), whatever [iptables -D]
    does, the NAT rules towards every other address are afterwards what
    they were, in the same order, and the call adds no rule. *)
Theorem remove_container_keeps_other_rules
    (delete_ok : list Rule -> Rule -> bool) (h : Host) (cfg : Config)
    (a b c d : Z) (st : State) :
  0 <= a <= 255 -> 0 <= b <= 255 -> 0 <= c <= 255 -> 0 <= d <= 255 ->
  filter (fun r => negb (String.eqb (to_ip r) (dotted_quad a b c d)))
         (nat_rules (snd (remove_container delete_ok h cfg
                            (dotted_quad a b c d) st)))
  = filter (fun r => negb (String.eqb (to_ip r) (dotted_quad a b c d)))
           (nat_rules st)
  /\ incl (nat_rules (snd (remove_container delete_ok h cfg
                             (dotted_quad a b c d) st)))
          (nat_rules st).
Proof.
  intros _ _ _ _. generalize (dotted_quad a b c d). intros ip.
  unfold remove_container.
  destruct (filter (fun m => String.eqb (container_ip m) ip)
                   (port_mappings st)) as [|m ms].
  - cbn [fst snd]. split; [reflexivity | apply incl_refl].
  - cbn [fst snd]. unfold remove_iptables_rules.
    set (triples := zip3 (map external_port (m :: ms))
                         (map internal_port (m :: ms))
                         (map protocol (m :: ms))).
    destruct (unprogram_rules_other delete_ok cfg ip triples st) as [Hf Hi].
    destruct (save_iptables_rules_frame h
                (unprogram_rules delete_ok cfg ip triples st))
      as [_ [_ [Hn _]]].
    cbn [nat_rules set_port_mappings]. rewrite Hn.
    split; [exact Hf | exact Hi].
Qed.

(** The first of two owners is removed; the six rules of the second
    stay. *)
Lemma remove_container_keeps_other_rules_witness :
  filter (fun r => negb (String.eqb (to_ip r) (dotted_quad 10 0 0 1)))
         (nat_rules (snd (remove_container (fun _ _ => true) quiet_host
                            DEFAULT_CONFIG (dotted_quad 10 0 0 1)
                            two_allocations_state)))
  = filter (fun r => negb (String.eqb (to_ip r) (dotted_quad 10 0 0 1)))
           (nat_rules two_allocations_state)
  /\ incl (nat_rules (snd (remove_container (fun _ _ => true) quiet_host
                             DEFAULT_CONFIG (dotted_quad 10 0 0 1)
                             two_allocations_state)))
          (nat_rules two_allocations_state).
Proof.
  apply (remove_container_keeps_other_rules (fun _ _ => true) quiet_host
           DEFAULT_CONFIG 10 0 0 1 two_allocations_state); lia.
Defined.

Lemma filter_negb_filter {A : Type} (f : A -> bool) (l : list A) :
  filter f (filter (fun x => negb (f x)) l) = [].
Proof.
  induction l as [|x l IH]; simpl; [reflexivity|].
  destruct (f x) eqn:E; simpl; [exact IH | now rewrite E].
Qed.

(** X8. When the owner has rows, [remove_container] ends normally whether
    or not the [iptables -D] calls succeed: it returns the number of rows of
    the owner and deletes exactly these rows, the rows of the other owners
    keep their order, and the reservations are untouched. *)
Theorem remove_container_deletes_owner
    (delete_ok : list Rule -> Rule -> bool) (h : Host) (cfg : Config)
    (ip : string) (st : State) :
  0 < count_by_ip st ip ->
  exists st',
    remove_container delete_ok h cfg ip st = (Ok (count_by_ip st ip), st')
    /\ port_mappings st'
       = filter (fun m => negb (String.eqb (container_ip m) ip))
                (port_mappings st)
    /\ count_by_ip st' ip = 0
    /\ reserved_ports st' = reserved_ports st.
Proof.
  intros Hc.
  assert (Ec : count_by_ip st ip
               = Z.of_nat (List.length
                   (filter (fun m => String.eqb (container_ip m) ip)
                           (port_mappings st)))) by reflexivity.
  unfold remove_container.
  destruct (filter (fun m => String.eqb (container_ip m) ip)
                   (port_mappings st)) as [|m ms] eqn:E;
    [simpl in Ec; lia|].
  set (st1 := remove_iptables_rules delete_ok h cfg ip
                (map external_port (m :: ms)) (map internal_port (m :: ms))
                (map protocol (m :: ms)) true st).
  destruct (remove_iptables_rules_frame delete_ok h cfg ip
              (map external_port (m :: ms)) (map internal_port (m :: ms))
              (map protocol (m :: ms)) true st) as [Hp [Hr _]].
  fold st1 in Hp, Hr.
  exists (set_port_mappings st1
            (filter (fun m => negb (String.eqb (container_ip m) ip))
                    (port_mappings st1))).
  split; [now rewrite Ec|]. simpl. rewrite Hp, Hr.
  split; [reflexivity|]. split; [|reflexivity].
  unfold count_by_ip. simpl. now rewrite filter_negb_filter.
Qed.

Lemma remove_container_deletes_owner_witness :
  exists st',
    remove_container (fun _ _ => false) quiet_host DEFAULT_CONFIG "10.0.0.1"
                     two_allocations_state
      = (Ok (count_by_ip two_allocations_state "10.0.0.1"), st')
    /\ port_mappings st'
       = filter (fun m => negb (String.eqb (container_ip m) "10.0.0.1"))
                (port_mappings two_allocations_state)
    /\ count_by_ip st' "10.0.0.1" = 0
    /\ reserved_ports st' = reserved_ports two_allocations_state.
Proof.
  apply (remove_container_deletes_owner (fun _ _ => false) quiet_host
           DEFAULT_CONFIG "10.0.0.1" two_allocations_state).
  vm_compute. reflexivity.
Defined.

(** A call of [add_container] that got past its checks was for a valid
    address without rows. *)
Lemma determine_ports_checked fuel h cfg st ip mode n ints exts protos b :
  determine_ports fuel h cfg st ip mode n ints exts protos = Ok b ->
  validate_ip ip = true /\ count_by_ip st ip = 0.
Proof.
  unfold determine_ports.
  destruct (validate_ip ip); simpl; [|discriminate].
  destruct (0 <? count_by_ip st ip) eqn:E; [discriminate|].
  intros _. split; [reflexivity|].
  apply Z.ltb_ge in E. unfold count_by_ip in *. lia.
Qed.

Lemma filter_owner_rows ip descr (triples : list (Z * Z * string)) :
  filter (fun m => String.eqb (container_ip m) ip)
         (map (mapping_of_triple ip descr) triples)
  = map (mapping_of_triple ip descr) triples.
Proof.
  induction triples as [|[[e i] p] ts IH]; simpl; [reflexivity|].
  now rewrite String.eqb_refl, IH.
Qed.

Lemma filter_other_rows ip descr (triples : list (Z * Z * string)) :
  filter (fun m => negb (String.eqb (container_ip m) ip))
         (map (mapping_of_triple ip descr) triples) = [].
Proof.
  induction triples as [|[[e i] p] ts IH]; simpl; [reflexivity|].
  now rewrite String.eqb_refl.
Qed.

Lemma filter_none_is_all {A : Type} (f : A -> bool) (l : list A) :
  filter f l = [] -> filter (fun x => negb (f x)) l = l.
Proof.
  induction l as [|x l IH]; simpl; [reflexivity|].
  destruct (f x); simpl; [discriminate|]. intros H. now rewrite IH.
Qed.

(** The rows of the owner after a call of [add_container] that ended
    normally, and the rows of the others. *)
Lemma add_container_owner_rows fuel h cfg ip mode n ints exts protos temp descr
      st triples st1 :
  add_container fuel h cfg ip mode n ints exts protos temp descr st
    = (Ok triples, st1) ->
  filter (fun m => String.eqb (container_ip m) ip) (port_mappings st1)
    = (if temp then [] else map (mapping_of_triple ip descr) triples)
  /\ filter (fun m => negb (String.eqb (container_ip m) ip))
            (port_mappings st1) = port_mappings st
  /\ reserved_ports st1 = reserved_ports st.
Proof.
  intros H.
  pose proof (add_container_tables fuel h cfg ip mode n ints exts protos temp
                descr st) as T.
  cbv zeta in T. rewrite H in T. simpl in T. destruct T as [Hp Hr].
  apply add_container_ok_inv in H.
  destruct H as [a [i [p [s1 [Hd _]]]]].
  apply determine_ports_checked in Hd. destruct Hd as [_ Hc].
  apply count_by_ip_zero in Hc.
  rewrite Hp, !filter_app, Hc, (filter_none_is_all _ _ Hc).
  destruct temp; simpl.
  - now rewrite List.app_nil_r.
  - now rewrite filter_owner_rows, filter_other_rows, List.app_nil_r.
Qed.

(** X9. Adding an owner and removing it again leaves both tables as they
    were before the call of [add_container], whatever the firewall
    answered to the removal, and also when the mapping was temporary (the
    removal then raises for want of rows). *)
Theorem add_then_remove_restores_tables
    fuel h cfg ip mode n ints exts protos temp descr st triples st1
    (delete_ok : list Rule -> Rule -> bool) (h' : Host) :
  add_container fuel h cfg ip mode n ints exts protos temp descr st
    = (Ok triples, st1) ->
  port_mappings (snd (remove_container delete_ok h' cfg ip st1))
    = port_mappings st
  /\ reserved_ports (snd (remove_container delete_ok h' cfg ip st1))
     = reserved_ports st.
Proof.
  intros H. apply add_container_owner_rows in H.
  destruct H as [Hown [Hoth Hres]].
  unfold remove_container. rewrite Hown.
  destruct (if temp then [] else map (mapping_of_triple ip descr) triples)
    as [|m ms] eqn:E.
  - simpl. rewrite Hres. split; [|reflexivity].
    rewrite <- Hoth. symmetry. now apply filter_none_is_all.
  - destruct (remove_iptables_rules_frame delete_ok h' cfg ip
                (map external_port (m :: ms)) (map internal_port (m :: ms))
                (map protocol (m :: ms)) true st1) as [Hp [Hr _]].
    cbn [snd port_mappings reserved_ports set_port_mappings].
    rewrite Hp, Hr. auto.
Qed.

Lemma add_then_remove_restores_tables_witness :
  port_mappings
    (snd (remove_container (fun _ _ => true) quiet_host DEFAULT_CONFIG
            "10.0.0.5"
            (snd (add_container 1 quiet_host DEFAULT_CONFIG "10.0.0.5"
                    "automatic" 6 None None None false None fresh_state))))
    = port_mappings fresh_state
  /\ reserved_ports
       (snd (remove_container (fun _ _ => true) quiet_host DEFAULT_CONFIG
               "10.0.0.5"
               (snd (add_container 1 quiet_host DEFAULT_CONFIG "10.0.0.5"
                       "automatic" 6 None None None false None fresh_state))))
     = reserved_ports fresh_state.
Proof.
  apply (add_then_remove_restores_tables 1 quiet_host DEFAULT_CONFIG
           "10.0.0.5" "automatic" 6 None None None false None fresh_state
           [(50000, 22, "tcp"); (50001, 80, "tcp"); (50002, 443, "tcp");
            (50003, 8080, "tcp"); (50004, 50004, "tcp");
            (50005, 50005, "tcp")]).
  vm_compute. reflexivity.
Defined.

(** When no rule of the batch is live and no two triples have the same
    rule, the insertion loop appends the rules of the batch in order. *)
Lemma program_rules_fresh (h : Host) (cfg : Config) (ip : string) :
  forall triples st u st',
    (forall t, In t triples -> ~ In (rule_of cfg ip t) (nat_rules st)) ->
    NoDup (map (rule_of cfg ip) triples) ->
    program_rules h cfg ip triples st = (Ok u, st') ->
    nat_rules st' = nat_rules st ++ map (rule_of cfg ip) triples.
Proof.
  induction triples as [|[[e i] p] rest IH]; intros st u st' Habs Hnd; simpl.
  - intros X. injection X as _ <-. now rewrite List.app_nil_r.
  - destruct (iptables_rule_exists cfg st p e ip i) eqn:Ex.
    + apply iptables_rule_exists_In in Ex. exfalso.
      apply (Habs (e, i, p)); [now left | exact Ex].
    + simpl. destruct (iptables_append_ok h (nat_rules st) _); [|discriminate].
      intros X. apply IH in X.
      * rewrite X. simpl. now rewrite <- List.app_assoc.
      * intros t Ht Hin. simpl in Hin. apply in_app_or in Hin.
        destruct Hin as [Hin|[Hin|[]]].
        -- apply (Habs t); [now right | exact Hin].
        -- inversion Hnd as [|x l Hx _]. apply Hx.
           cbn [rule_of]. rewrite Hin. now apply in_map.
      * now inversion Hnd.
Qed.

Lemma delete_first_app (r : Rule) (old rest : list Rule) :
  ~ In r old -> delete_first r (old ++ r :: rest) = old ++ rest.
Proof.
  induction old as [|x old IH]; simpl; intros H.
  - assert (E : Rule_eqb r r = true) by now apply Rule_eqb_eq.
    now rewrite E.
  - destruct (Rule_eqb r x) eqn:E.
    + apply Rule_eqb_eq in E. subst. exfalso. apply H. now left.
    + rewrite IH; [reflexivity|]. intros X. apply H. now right.
Qed.

(** With an [iptables -D] that succeeds, the removal loop takes the rules
    of the batch out again. *)
Lemma unprogram_rules_appended delete_ok cfg ip (old : list Rule) :
  (forall rs r, delete_ok rs r = true) ->
  forall triples st,
    nat_rules st = old ++ map (rule_of cfg ip) triples ->
    (forall t, In t triples -> ~ In (rule_of cfg ip t) old) ->
    nat_rules (unprogram_rules delete_ok cfg ip triples st) = old.
Proof.
  intros Hok. induction triples as [|[[e i] p] rest IH]; intros st Hn Habs;
    simpl.
  - rewrite Hn. simpl. apply List.app_nil_r.
  - rewrite Hok, andb_true_r.
    assert (Hin : existsb (Rule_eqb (make_rule cfg p e ip i)) (nat_rules st)
                  = true).
    { apply existsb_exists. exists (make_rule cfg p e ip i).
      split; [|now apply Rule_eqb_eq].
      rewrite Hn. apply in_or_app. right. now left. }
    rewrite Hin. apply IH.
    + simpl. rewrite Hn. simpl. apply delete_first_app.
      apply (Habs (e, i, p)). now left.
    + intros t Ht. apply Habs. now right.
Qed.

Lemma zip3_of_rows ip descr (triples : list (Z * Z * string)) :
  zip3 (map external_port (map (mapping_of_triple ip descr) triples))
       (map internal_port (map (mapping_of_triple ip descr) triples))
       (map protocol (map (mapping_of_triple ip descr) triples))
  = triples.
Proof.
  induction triples as [|[[e i] p] ts IH]; simpl; [reflexivity|].
  now rewrite IH.
Qed.

(** X10. Adding an owner and removing it again restores the NAT table,
    when the removal commands succeed, none of the rules of the batch was
    live before and the batch has no rule twice.  ([ip_forward] stays on
    and the rules file is written again.) *)
Theorem add_then_remove_restores_rules
    fuel h cfg ip mode n ints exts protos descr st triples st1
    (delete_ok : list Rule -> Rule -> bool) (h' : Host) :
  add_container fuel h cfg ip mode n ints exts protos false descr st
    = (Ok triples, st1) ->
  (forall t, In t triples -> ~ In (rule_of cfg ip t) (nat_rules st)) ->
  NoDup (map (rule_of cfg ip) triples) ->
  (forall rs r, delete_ok rs r = true) ->
  nat_rules (snd (remove_container delete_ok h' cfg ip st1)) = nat_rules st.
Proof.
  intros H Habs Hnd Hok.
  destruct (add_container_owner_rows _ _ _ _ _ _ _ _ _ _ _ _ _ _ H)
    as [Hown _].
  apply add_container_ok_inv in H.
  destruct H as [a [i [p [s1 [_ [Hs [Ht Hst]]]]]]].
  simpl negb in *. cbv iota in Hst.
  assert (Hn1 : nat_rules st1 = nat_rules st ++ map (rule_of cfg ip) triples).
  { subst st1. unfold insert_mappings. simpl.
    unfold setup_iptables_rules in Hs. rewrite <- Ht in Hs.
    destruct (program_rules h cfg ip triples st) as [[u|e|] s2] eqn:E;
      [|discriminate..].
    pose proof (program_rules_fresh _ _ _ _ _ _ _ Habs Hnd E) as Hf.
    destruct (sysctl_ok h); [|discriminate].
    injection Hs as <-. simpl.
    destruct (save_iptables_rules_frame h (set_ip_forward s2 true))
      as [_ [_ [-> _]]]. exact Hf. }
  unfold remove_container. rewrite Hown.
  destruct (map (mapping_of_triple ip descr) triples) as [|m ms] eqn:Em.
  - destruct triples; [|discriminate]. simpl.
    rewrite Hn1. simpl. apply List.app_nil_r.
  - rewrite <- Em. cbn [snd nat_rules set_port_mappings].
    unfold remove_iptables_rules. rewrite zip3_of_rows.
    destruct (save_iptables_rules_frame h'
                (unprogram_rules delete_ok cfg ip triples st1))
      as [_ [_ [-> _]]].
    now apply unprogram_rules_appended.
Qed.

Lemma add_then_remove_restores_rules_witness :
  nat_rules
    (snd (remove_container (fun _ _ => true) quiet_host DEFAULT_CONFIG
            "10.0.0.5"
            (snd (add_container 1 quiet_host DEFAULT_CONFIG "10.0.0.5"
                    "automatic" 2 None None None false None fresh_state))))
  = nat_rules fresh_state.
Proof.
  apply (add_then_remove_restores_rules 1 quiet_host DEFAULT_CONFIG
           "10.0.0.5" "automatic" 2 None None None None fresh_state
           [(50000, 22, "tcp"); (50001, 80, "tcp")]).
  - vm_compute. reflexivity.
  - intros t _ [].
  - vm_compute. constructor.
    + intros [H|[]]. discriminate H.
    + constructor; [intros []|constructor].
  - reflexivity.
Defined.

(** ** [setup_iptables_rules] again *)

(** The insertion loop over rules that are all live changes nothing and
    runs no [iptables -A]. *)
Lemma program_rules_present (h : Host) (cfg : Config) (ip : string) :
  forall triples st,
    (forall t, In t triples -> In (rule_of cfg ip t) (nat_rules st)) ->
    program_rules h cfg ip triples st = (Ok tt, st).
Proof.
  induction triples as [|[[e i] p] rest IH]; intros st H; simpl;
    [reflexivity|].
  assert (E : iptables_rule_exists cfg st p e ip i = true).
  { apply iptables_rule_exists_In. apply (H (e, i, p)). now left. }
  rewrite E. simpl. apply IH. intros t Ht. apply H. now right.
Qed.

(** X11. [setup_iptables_rules] is idempotent on the NAT table: after a
    call that ended normally, the same call again appends no rule and needs
    no [iptables -A] to succeed; it ends normally as soon as [sysctl]
    does. *)
Theorem setup_iptables_rules_idempotent
    (h h' : Host) (cfg : Config) (ip : string) (exts ints : list Z)
    (protos : list string) (save save' : bool) (st st1 : State) (u : unit) :
  setup_iptables_rules h cfg ip exts ints protos save st = (Ok u, st1) ->
  sysctl_ok h' = true ->
  fst (setup_iptables_rules h' cfg ip exts ints protos save' st1) = Ok tt
  /\ nat_rules (snd (setup_iptables_rules h' cfg ip exts ints protos save'
                       st1)) = nat_rules st1.
Proof.
  intros H Hs.
  destruct (setup_iptables_rules_ok _ _ _ _ _ _ _ _ _ _ H) as [Hin _].
  unfold setup_iptables_rules.
  rewrite (program_rules_present h' cfg ip _ st1 Hin), Hs. simpl.
  split; [reflexivity|].
  destruct save'; [|reflexivity].
  now destruct (save_iptables_rules_frame h' (set_ip_forward st1 true))
    as [_ [_ [-> _]]].
Qed.

Lemma setup_iptables_rules_idempotent_witness :
  fst (setup_iptables_rules refusing_host DEFAULT_CONFIG "10.0.0.5"
         [50000; 50001] [22; 80] ["tcp"; "tcp"] true
         (snd (setup_iptables_rules quiet_host DEFAULT_CONFIG "10.0.0.5"
                 [50000; 50001] [22; 80] ["tcp"; "tcp"] true fresh_state)))
    = Ok tt
  /\ nat_rules
       (snd (setup_iptables_rules refusing_host DEFAULT_CONFIG "10.0.0.5"
               [50000; 50001] [22; 80] ["tcp"; "tcp"] true
               (snd (setup_iptables_rules quiet_host DEFAULT_CONFIG "10.0.0.5"
                       [50000; 50001] [22; 80] ["tcp"; "tcp"] true
                       fresh_state))))
     = nat_rules
         (snd (setup_iptables_rules quiet_host DEFAULT_CONFIG "10.0.0.5"
                 [50000; 50001] [22; 80] ["tcp"; "tcp"] true fresh_state)).
Proof.
  apply (setup_iptables_rules_idempotent quiet_host refusing_host
           DEFAULT_CONFIG "10.0.0.5" [50000; 50001] [22; 80] ["tcp"; "tcp"]
           true true fresh_state _ tt).
  - vm_compute. reflexivity.
  - reflexivity.
Defined.

Lemma program_rules_NoDup (h : Host) (cfg : Config) (ip : string) :
  forall triples st r st',
    NoDup (nat_rules st) ->
    program_rules h cfg ip triples st = (r, st') ->
    NoDup (nat_rules st').
Proof.
  induction triples as [|[[e i] p] rest IH]; intros st r st' Hnd; simpl.
  - intros X. now injection X as _ <-.
  - destruct (iptables_rule_exists cfg st p e ip i) eqn:Ex; simpl.
    + now apply IH.
    + destruct (iptables_append_ok h (nat_rules st) _).
      * apply IH. simpl. apply NoDup_app; [exact Hnd | repeat constructor; auto |].
        intros a Ha [<-|[]].
        apply iptables_rule_exists_In in Ha. congruence.
      * intros X. now injection X as _ <-.
Qed.

(** X12. [setup_iptables_rules] never puts a rule twice into the NAT
    table: a table without duplicates has none afterwards, whatever the
    outcome and also when the batch repeats a triple. *)
Theorem setup_iptables_rules_no_duplicates
    (h : Host) (cfg : Config) (ip : string) (exts ints : list Z)
    (protos : list string) (save : bool) (st : State) :
  NoDup (nat_rules st) ->
  NoDup (nat_rules (snd (setup_iptables_rules h cfg ip exts ints protos save
                           st))).
Proof.
  intros Hnd. unfold setup_iptables_rules.
  destruct (program_rules h cfg ip (zip3 exts ints protos) st)
    as [[u|e|] st1] eqn:E;
    pose proof (program_rules_NoDup _ _ _ _ _ _ _ Hnd E) as H1; simpl; auto.
  destruct (sysctl_ok h); simpl; auto.
  destruct save; simpl; auto.
  now destruct (save_iptables_rules_frame h (set_ip_forward st1 true))
    as [_ [_ [-> _]]].
Qed.

Lemma setup_iptables_rules_no_duplicates_witness :
  NoDup (nat_rules (snd (setup_iptables_rules quiet_host DEFAULT_CONFIG
                           "10.0.0.5" [50000; 50000] [22; 22] ["tcp"; "tcp"]
                           true fresh_state))).
Proof.
  apply (setup_iptables_rules_no_duplicates quiet_host DEFAULT_CONFIG
           "10.0.0.5" [50000; 50000] [22; 22] ["tcp"; "tcp"] true
           fresh_state).
  simpl. constructor.
Defined.

(** ** [import_mappings] *)

Lemma import_loop_step h cfg e rest n st :
  import_loop h cfg (e :: rest) n st =
  if import_absent st e
  then match setup_iptables_rules h cfg (entry_container_ip e)
               [entry_external_port e] [entry_internal_port e]
               [match entry_protocol e with Some p => p | None => "tcp" end]
               true st with
       | (Ok _, st1) =>
           import_loop h cfg rest (n + 1)
             (set_port_mappings st1 (port_mappings st1 ++ [mapping_of_entry e]))
       | (Raise x, st1) => (Raise x, st1)
       | (OutOfFuel, st1) => (OutOfFuel, st1)
       end
  else import_loop h cfg rest n st.
Proof. reflexivity. Qed.

Lemma import_absent_app (st : State) (rows : list Mapping) (e : Entry) :
  import_absent st e = false ->
  import_absent (set_port_mappings st (port_mappings st ++ rows)) e = false.
Proof.
  unfold import_absent. simpl.
  rewrite !Z.eqb_neq, filter_app, length_app. lia.
Qed.

Lemma import_absent_same_rows (a b : State) (e : Entry) :
  port_mappings a = port_mappings b -> import_absent a e = import_absent b e.
Proof. unfold import_absent. now intros ->. Qed.

Lemma import_absent_inserted (st : State) (e : Entry) :
  import_absent (set_port_mappings st (port_mappings st ++ [mapping_of_entry e]))
                e = false.
Proof.
  unfold import_absent. simpl. rewrite filter_app, length_app. simpl.
  rewrite String.eqb_refl, Z.eqb_refl. simpl. apply Z.eqb_neq. lia.
Qed.

(** The loop appends one row per entry it does not skip, counts them, and
    afterwards every entry it went through has its owner and port in the
    table. *)
Lemma import_loop_spec h cfg : forall data n st r st',
  import_loop h cfg data n st = (r, st') ->
  exists added,
    port_mappings st' = port_mappings st ++ added
    /\ reserved_ports st' = reserved_ports st
    /\ (forall m, In m added -> exists e, In e data /\ m = mapping_of_entry e)
    /\ (forall k, r = Ok k ->
          k = n + Z.of_nat (List.length added)
          /\ forall e, In e data -> import_absent st' e = false).
Proof.
  induction data as [|e rest IH]; intros n st r st'.
  - simpl. intros X. injection X as <- <-. exists [].
    rewrite List.app_nil_r. split; [reflexivity|]. split; [reflexivity|].
    split; [intros m []|]. intros k X. injection X as <-.
    split; [simpl; lia | intros e []].
  - rewrite import_loop_step.
    destruct (import_absent st e) eqn:Ea.
    + destruct (setup_iptables_rules h cfg (entry_container_ip e) _ _ _ true st)
        as [[u|x|] st1] eqn:Es;
        destruct (setup_iptables_rules_tables _ _ _ _ _ _ _ _ _ _ Es)
          as [Hp Hr].
      * intros X. apply IH in X.
        destruct X as [added [Ha [Hres [Hin Hok]]]]. simpl in Ha, Hres.
        exists (mapping_of_entry e :: added).
        rewrite Ha, Hp, <- List.app_assoc. split; [reflexivity|].
        split; [congruence|]. split.
        -- intros m [<-|Hm]; [exists e; split; [now left | reflexivity]|].
           destruct (Hin m Hm) as [e' [He' ->]]. exists e'.
           split; [now right | reflexivity].
        -- intros k Hk. destruct (Hok k Hk) as [-> Hall].
           split; [simpl List.length; lia|].
           intros e' [<-|He']; [|now apply Hall].
           assert (Hrows : port_mappings st'
                           = port_mappings
                               (set_port_mappings st1
                                  (port_mappings st1 ++ [mapping_of_entry e]))
                             ++ added) by exact Ha.
           rewrite (import_absent_same_rows st'
                      (set_port_mappings
                         (set_port_mappings st1
                            (port_mappings st1 ++ [mapping_of_entry e]))
                         (port_mappings
                            (set_port_mappings st1
                               (port_mappings st1 ++ [mapping_of_entry e]))
                          ++ added)) e Hrows).
           apply import_absent_app, import_absent_inserted.
      * intros X. injection X as <- <-. exists [].
        rewrite List.app_nil_r. split; [exact Hp|]. split; [exact Hr|].
        split; [intros m []|]. intros k X. discriminate.
      * intros X. injection X as <- <-. exists [].
        rewrite List.app_nil_r. split; [exact Hp|]. split; [exact Hr|].
        split; [intros m []|]. intros k X. discriminate.
    + intros X. apply IH in X.
      destruct X as [added [Ha [Hres [Hin Hok]]]].
      exists added. split; [exact Ha|]. split; [exact Hres|]. split.
      * intros m Hm. destruct (Hin m Hm) as [e' [He' ->]]. exists e'.
        split; [now right | reflexivity].
      * intros k Hk. destruct (Hok k Hk) as [-> Hall].
        split; [reflexivity|].
        intros e' [<-|He']; [|now apply Hall].
        rewrite (import_absent_same_rows st'
                   (set_port_mappings st (port_mappings st ++ added)) e Ha).
        now apply import_absent_app.
Qed.

(** X13. A call of [import_mappings] that ends normally keeps every row
    that was there, appends one row for each entry it did not skip, each
    built from an entry of the file with [temporary] unset, and returns the
    number of rows it appended; the reservations are untouched. *)
Theorem import_mappings_appends_counted
    (h : Host) (cfg : Config) (data : list Entry) (st st' : State) (k : Z) :
  import_mappings h cfg data st = (Ok k, st') ->
  exists added,
    port_mappings st' = port_mappings st ++ added
    /\ k = Z.of_nat (List.length added)
    /\ (forall m, In m added -> exists e, In e data /\ m = mapping_of_entry e)
    /\ reserved_ports st' = reserved_ports st.
Proof.
  unfold import_mappings. intros H. apply import_loop_spec in H.
  destruct H as [added [Ha [Hr [Hin Hok]]]].
  destruct (Hok k eq_refl) as [Hk _].
  exists added. repeat split; auto.
Qed.

Lemma import_loop_noop h cfg : forall data n st,
  (forall e, In e data -> import_absent st e = false) ->
  import_loop h cfg data n st = (Ok n, st).
Proof.
  induction data as [|e rest IH]; intros n st H; [reflexivity|].
  rewrite import_loop_step, (H e) by now left.
  apply IH. intros e' He'. apply H. now right.
Qed.

(** X14. Importing the same file a second time imports nothing: the call
    returns 0 and leaves the whole state, firewall included, as the first
    import left it, whatever the host answers. *)
Theorem import_mappings_idempotent
    (h h' : Host) (cfg : Config) (data : list Entry) (st st' : State) (k : Z) :
  import_mappings h cfg data st = (Ok k, st') ->
  import_mappings h' cfg data st' = (Ok 0, st').
Proof.
  unfold import_mappings. intros H. apply import_loop_spec in H.
  destruct H as [added [_ [_ [_ Hok]]]].
  destruct (Hok k eq_refl) as [_ Hall].
  now apply import_loop_noop.
Qed.

Lemma import_mappings_appends_counted_witness :
  exists added,
    port_mappings imported_example_state = port_mappings fresh_state ++ added
    /\ 2 = Z.of_nat (List.length added)
    /\ (forall m, In m added ->
          exists e, In e example_entries /\ m = mapping_of_entry e)
    /\ reserved_ports imported_example_state = reserved_ports fresh_state.
Proof.
  apply (import_mappings_appends_counted quiet_host DEFAULT_CONFIG
           example_entries fresh_state imported_example_state 2).
  vm_compute. reflexivity.
Defined.

Lemma import_mappings_idempotent_witness :
  import_mappings refusing_host DEFAULT_CONFIG example_entries
                  imported_example_state
  = (Ok 0, imported_example_state).
Proof.
  apply (import_mappings_idempotent quiet_host refusing_host DEFAULT_CONFIG
           example_entries fresh_state imported_example_state 2).
  vm_compute. reflexivity.
Defined.

Lemma import_absent_not_in (st : State) (e : Entry) :
  import_absent st e = true ->
  ~ In (entry_container_ip e, entry_external_port e)
       (map owner_port (port_mappings st)).
Proof.
  unfold import_absent. intros H Hin.
  apply in_map_iff in Hin. destruct Hin as [m [Em Hm]].
  unfold owner_port in Em. injection Em as E1 E2.
  assert (X : In m (filter
                      (fun m => String.eqb (container_ip m)
                                           (entry_container_ip e)
                                && (external_port m =? entry_external_port e))
                      (port_mappings st))).
  { apply filter_In. split; [exact Hm|].
    now rewrite E1, E2, String.eqb_refl, Z.eqb_refl. }
  destruct (filter _ (port_mappings st)); [destruct X|].
  simpl in H. discriminate H.
Qed.

(** X15. [import_mappings] keeps (container_ip, external_port) unique in
    [port_mappings], whatever the file holds and however the call ends: an
    entry whose owner and port are in the table is skipped, also when its
    protocol or internal port differs. *)
Theorem import_mappings_keeps_owner_port_unique
    (h : Host) (cfg : Config) (data : list Entry) (st : State) :
  NoDup (map owner_port (port_mappings st)) ->
  NoDup (map owner_port
           (port_mappings (snd (import_mappings h cfg data st)))).
Proof.
  unfold import_mappings. generalize 0. revert st.
  induction data as [|e rest IH]; intros st n Hnd; [exact Hnd|].
  rewrite import_loop_step.
  destruct (import_absent st e) eqn:Ea; [|now apply IH].
  destruct (setup_iptables_rules h cfg (entry_container_ip e) _ _ _ true st)
    as [[u|x|] st1] eqn:Es;
    destruct (setup_iptables_rules_tables _ _ _ _ _ _ _ _ _ _ Es) as [Hp _];
    [| simpl; now rewrite Hp ..].
  apply IH. simpl. rewrite Hp, map_app. apply NoDup_app; [exact Hnd | |].
  - simpl. constructor; [intros [] | constructor].
  - intros a Ha [<-|[]]. revert Ha. now apply import_absent_not_in.
Qed.

Lemma import_mappings_keeps_owner_port_unique_witness :
  NoDup (map owner_port (port_mappings imported_example_state)).
Proof.
  apply (import_mappings_keeps_owner_port_unique quiet_host DEFAULT_CONFIG
           example_entries fresh_state).
  simpl. constructor.
Defined.

(** ** [rebuild_database] again *)

Lemma rebuild_step_row (n : Z) (st : State) t :
  rebuild_step (n, st) t =
  if absent st t
  then (n + 1,
        set_port_mappings st (port_mappings st ++ [mapping_of_tuple t]))
  else (n, st).
Proof. destruct t as [[[proto ext] ip] int]. reflexivity. Qed.

Lemma absent_not_in (st : State) t :
  absent st t = true ->
  ~ In (owner_port_proto (mapping_of_tuple t))
       (map owner_port_proto (port_mappings st)).
Proof.
  destruct t as [[[proto ext] ip] int]. unfold absent. simpl.
  intros H Hin. apply in_map_iff in Hin. destruct Hin as [m [Em Hm]].
  unfold owner_port_proto in Em. simpl in Em. injection Em as E1 E2 E3.
  assert (X : In m (filter
                      (fun m => String.eqb (container_ip m) ip
                                && (external_port m =? ext)
                                && String.eqb (protocol m) proto)
                      (port_mappings st))).
  { apply filter_In. split; [exact Hm|].
    now rewrite E1, E2, E3, !String.eqb_refl, Z.eqb_refl. }
  destruct (filter _ (port_mappings st)); [destruct X|].
  simpl in H. discriminate H.
Qed.

(** One run of the loop over the tuples. *)
Lemma rebuild_fold_spec ts : forall n st,
  exists added,
    fold_left rebuild_step ts (n, st)
    = (n + Z.of_nat (List.length added),
       set_port_mappings st (port_mappings st ++ added))
    /\ (forall m, In m added -> exists t, In t ts /\ m = mapping_of_tuple t)
    /\ (NoDup (map owner_port_proto (port_mappings st)) ->
        NoDup (map owner_port_proto (port_mappings st ++ added))).
Proof.
  induction ts as [|t ts IH]; intros n st; cbn [fold_left].
  - exists []. rewrite List.app_nil_r. simpl. rewrite Z.add_0_r.
    split; [now destruct st|]. split; [intros m []|auto].
  - rewrite rebuild_step_row. destruct (absent st t) eqn:Ea.
    + destruct (IH (n + 1)
                   (set_port_mappings st
                      (port_mappings st ++ [mapping_of_tuple t])))
        as [added [Ef [Hin Hnd]]].
      exists (mapping_of_tuple t :: added). simpl in Ef, Hnd.
      rewrite Ef. rewrite <- List.app_assoc in *. simpl app.
      split; [f_equal; simpl List.length; lia|]. split.
      * intros m [<-|Hm]; [exists t; split; [now left | reflexivity]|].
        destruct (Hin m Hm) as [t' [Ht' ->]]. exists t'.
        split; [now right | reflexivity].
      * intros H0. apply Hnd. rewrite map_app. apply NoDup_app; [exact H0| |].
        -- simpl. constructor; [intros [] | constructor].
        -- intros a Ha [<-|[]]. revert Ha. now apply absent_not_in.
    + destruct (IH n st) as [added [Ef [Hin Hnd]]].
      exists added. split; [exact Ef|]. split; [|exact Hnd].
      intros m Hm. destruct (Hin m Hm) as [t' [Ht' ->]]. exists t'.
      split; [now right | reflexivity].
Qed.

(** X16. [rebuild_database] writes nothing but [port_mappings], and there
    it only appends: the rows that were in the table stay, in their order;
    each new row comes from a rule line of the dump, with no description
    and [temporary] unset; the number returned is the number of rows
    appended. *)
Theorem rebuild_database_only_appends
    (cfg : Config) (iptables_save_stdout : string) (st : State) :
  exists added,
    rebuild_database cfg iptables_save_stdout st
    = (Z.of_nat (List.length added),
       set_port_mappings st (port_mappings st ++ added))
    /\ forall m, In m added ->
         temporary m = false /\ description m = None
         /\ exists line,
              In line (splitlines iptables_save_stdout)
              /\ parse_rule_line cfg line
                 = Some (protocol m, external_port m, container_ip m,
                         internal_port m).
Proof.
  unfold rebuild_database. rewrite rebuild_loop_fold.
  destruct (rebuild_fold_spec
              (parsed_tuples cfg (splitlines iptables_save_stdout)) 0 st)
    as [added [Ef [Hin _]]].
  exists added. split; [exact Ef|].
  intros m Hm. destruct (Hin m Hm) as [[[[proto ext] ip] int] [Ht ->]].
  simpl. split; [reflexivity|]. split; [reflexivity|].
  clear - Ht. induction (splitlines iptables_save_stdout) as [|l ls IH];
    simpl in Ht; [destruct Ht|].
  destruct (parse_rule_line cfg l) as [t|] eqn:E.
  - destruct Ht as [->|Ht].
    + exists l. split; [now left | exact E].
    + destruct (IH Ht) as [line [Hl Hp]]. exists line. split; [now right|auto].
  - destruct (IH Ht) as [line [Hl Hp]]. exists line. split; [now right|auto].
Qed.

(** X17. [rebuild_database] keeps (container_ip, external_port, protocol)
    unique in [port_mappings]: a rule that the dump lists twice, or that is
    already in the table, gives no second row. *)
Theorem rebuild_database_keeps_triple_unique
    (cfg : Config) (iptables_save_stdout : string) (st : State) :
  NoDup (map owner_port_proto (port_mappings st)) ->
  NoDup (map owner_port_proto
           (port_mappings (snd (rebuild_database cfg iptables_save_stdout
                                                 st)))).
Proof.
  intros Hnd. unfold rebuild_database. rewrite rebuild_loop_fold.
  destruct (rebuild_fold_spec
              (parsed_tuples cfg (splitlines iptables_save_stdout)) 0 st)
    as [added [Ef [_ H]]].
  rewrite Ef. simpl. now apply H.
Qed.

Lemma rebuild_database_keeps_triple_unique_witness :
  NoDup (map owner_port_proto
           (port_mappings (snd (rebuild_database DEFAULT_CONFIG example_dump
                                                 fresh_state)))).
Proof.
  apply (rebuild_database_keeps_triple_unique DEFAULT_CONFIG example_dump
                                              fresh_state).
  simpl. constructor.
Defined.

(** The dump above gives two rows: the repeated line and the line of the
    other interface give none. *)
Example rebuild_database_example_dump :
  fst (rebuild_database DEFAULT_CONFIG example_dump fresh_state) = 2
  /\ map owner_port_proto
       (port_mappings (snd (rebuild_database DEFAULT_CONFIG example_dump
                                             fresh_state)))
     = [("10.0.0.5", 50000, "tcp"); ("10.0.0.5", 50000, "udp")].
Proof. split; vm_compute; reflexivity. Qed.

(** ** [add_container] and the allocator, one call after another *)

(** X18. A temporary mapping is invisible to the allocator: in the state
    after a successful temporary call the allocator answers exactly as in
    the state before it, so the next request gets the external ports that
    were just handed out. *)
Theorem temporary_ports_are_allocated_again
    fuel h cfg ip mode n ints exts protos descr st triples st1
    (fuel' : nat) (h' : Host) (n' : Z) :
  add_container fuel h cfg ip mode n ints exts protos true descr st
    = (Ok triples, st1) ->
  assign_ports fuel' h' cfg st1 n' = assign_ports fuel' h' cfg st n'.
Proof.
  intros H.
  pose proof (add_container_tables fuel h cfg ip mode n ints exts protos true
                descr st) as T.
  cbv zeta in T. rewrite H in T. simpl in T. destruct T as [Hp Hr].
  rewrite List.app_nil_r in Hp.
  unfold assign_ports. now rewrite Hp, Hr.
Qed.

Lemma temporary_ports_are_allocated_again_witness :
  assign_ports 1 quiet_host DEFAULT_CONFIG temporary_example_state 2
  = assign_ports 1 quiet_host DEFAULT_CONFIG fresh_state 2.
Proof.
  apply (temporary_ports_are_allocated_again 1 quiet_host DEFAULT_CONFIG
           "10.0.0.5" "automatic" 2 None None None None fresh_state
           [(50000, 22, "tcp"); (50001, 80, "tcp")] temporary_example_state
           1 quiet_host 2).
  vm_compute. reflexivity.
Defined.

(** X19. The external ports of a mapping that was stored are never handed
    out by the allocator afterwards, whether the allocator or the caller
    chose them. *)
Theorem stored_ports_are_not_allocated_again
    fuel h cfg ip mode n ints exts protos descr st triples st1
    (fuel' : nat) (h' : Host) (n' : Z) (answer : list Z) :
  add_container fuel h cfg ip mode n ints exts protos false descr st
    = (Ok triples, st1) ->
  assign_ports fuel' h' cfg st1 n' = Ok answer ->
  forall t, In t triples -> ~ In (fst (fst t)) answer.
Proof.
  intros H Ha t Ht Hin.
  pose proof (add_container_tables fuel h cfg ip mode n ints exts protos false
                descr st) as T.
  cbv zeta in T. rewrite H in T. simpl in T. destruct T as [Hp _].
  apply assign_ports_ok in Ha. destruct Ha as [_ [_ Hfree]].
  destruct (Hfree _ Hin) as [Hna _]. apply Hna.
  unfold assigned_ports_of. rewrite Hp, map_app, map_external_port_rows.
  apply in_or_app. right. now apply (in_map (fun x => fst (fst x))).
Qed.

Lemma stored_ports_are_not_allocated_again_witness :
  ~ In (fst (fst (50001, 80, "tcp"))) [50006; 50007].
Proof.
  apply (stored_ports_are_not_allocated_again 1 quiet_host DEFAULT_CONFIG
           "10.0.0.5" "automatic" 6 None None None None fresh_state
           [(50000, 22, "tcp"); (50001, 80, "tcp"); (50002, 443, "tcp");
            (50003, 8080, "tcp"); (50004, 50004, "tcp");
            (50005, 50005, "tcp")]
           (snd (add_container 1 quiet_host DEFAULT_CONFIG "10.0.0.5"
                   "automatic" 6 None None None false None fresh_state))
           4 quiet_host 2 [50006; 50007]).
  - vm_compute. reflexivity.
  - vm_compute. reflexivity.
  - simpl. auto.
Defined.

(** X20. One owner, one batch: after a call that stored at least one row
    for an owner, every further call of [add_container] for that owner
    raises [ValueError], whatever its other arguments, and changes nothing;
    the allocator is not even consulted. *)
Theorem add_container_twice_raises
    fuel h cfg ip mode n ints exts protos descr st triples st1
    fuel' h' mode' n' ints' exts' protos' temp' descr' :
  add_container fuel h cfg ip mode n ints exts protos false descr st
    = (Ok triples, st1) ->
  triples <> [] ->
  add_container fuel' h' cfg ip mode' n' ints' exts' protos' temp' descr' st1
  = (Raise (ValueError ("IP " ++ ip ++ " already has port mappings")%string),
     st1).
Proof.
  intros H Hne.
  destruct (add_container_owner_rows _ _ _ _ _ _ _ _ _ _ _ _ _ _ H)
    as [Hown _].
  apply add_container_ok_inv in H.
  destruct H as [a [i [p [s1 [Hd _]]]]].
  apply determine_ports_checked in Hd. destruct Hd as [Hv _].
  unfold add_container, determine_ports. rewrite Hv. simpl negb. cbv iota.
  assert (Hc : (0 <? count_by_ip st1 ip) = true).
  { unfold count_by_ip. rewrite Hown. apply Z.ltb_lt.
    destruct triples; [congruence | simpl; lia]. }
  now rewrite Hc.
Qed.

Lemma add_container_twice_raises_witness :
  add_container 0 refusing_host DEFAULT_CONFIG "10.0.0.2" "manual" 1
    (Some [22]) (Some [9000]) None true None two_allocations_state
  = (Raise (ValueError ("IP " ++ "10.0.0.2"
                             ++ " already has port mappings")%string),
     two_allocations_state).
Proof.
  apply (add_container_twice_raises 2 quiet_host DEFAULT_CONFIG "10.0.0.2"
           "automatic" 6 None None None None
           (snd (add_container 1 quiet_host DEFAULT_CONFIG "10.0.0.1"
                   "automatic" 6 None None None false None fresh_state))
           [(50006, 22, "tcp"); (50007, 80, "tcp"); (50008, 443, "tcp");
            (50009, 8080, "tcp"); (50010, 50010, "tcp");
            (50011, 50011, "tcp")]
           two_allocations_state).
  - vm_compute. reflexivity.
  - discriminate.
Defined.

(** ** Automatic mode *)

Lemma automatic_loop_spec (assigned : list Z) : forall m k ints protos,
  (k + m <= List.length assigned)%nat ->
  automatic_loop (map Z.of_nat (seq k m)) assigned ints protos
  = Ok (ints ++ map (fun i => nth i INTERNAL_PORTS_DEFAULT (nth i assigned 0))
                    (seq k m),
        protos ++ repeat "tcp" m).
Proof.
  induction m as [|m IH]; intros k ints protos Hk; simpl.
  - now rewrite !List.app_nil_r.
  - rewrite Nat2Z.id.
    destruct (Z.ltb_spec (Z.of_nat k) 4) as [Hlt|Hge].
    + rewrite IH by lia. rewrite <- !List.app_assoc. simpl.
      do 2 f_equal.
      * do 2 f_equal.
        destruct k as [|[|[|[|k]]]]; try reflexivity. lia.
      * f_equal.
        destruct k as [|[|[|[|k]]]]; try reflexivity. lia.
    + rewrite (nth_error_nth' assigned 0) by lia.
      rewrite IH by lia. rewrite <- !List.app_assoc. simpl.
      do 4 f_equal.
      destruct k as [|[|[|[|k]]]]; try lia. now destruct k.
Qed.

Lemma nth_error_zip3 {A B C : Type} (la : list A) (lb : list B) (lc : list C) :
  forall i,
    nth_error (zip3 la lb lc) i =
    match nth_error la i, nth_error lb i, nth_error lc i with
    | Some a, Some b, Some c => Some (a, b, c)
    | _, _, _ => None
    end.
Proof.
  revert lb lc. induction la as [|a la IH]; intros lb lc i.
  - simpl. now destruct i.
  - destruct lb as [|b lb]; [destruct i; simpl; [reflexivity|];
                             now destruct (nth_error la i)|].
    destruct lc as [|c lc].
    + destruct i; simpl; [reflexivity|].
      destruct (nth_error la i); [|reflexivity].
      now destruct (nth_error lb i).
    + destruct i; simpl; [reflexivity | apply IH].
Qed.

(** The batch of an automatic request. *)
Lemma determine_internal_automatic (assigned : list Z) (k : Z)
      (ints : option (list Z)) (protos : option (list string)) :
  List.length assigned = Z.to_nat k ->
  determine_internal "automatic" k assigned ints protos
  = Ok (assigned,
        map (fun i => nth i INTERNAL_PORTS_DEFAULT (nth i assigned 0))
            (seq 0 (List.length assigned)),
        repeat "tcp" (List.length assigned)).
Proof.
  intros Hl. unfold determine_internal. cbn [String.eqb Ascii.eqb Bool.eqb].
  unfold range. rewrite <- Hl.
  rewrite (automatic_loop_spec assigned (List.length assigned) 0 [] [])
    by lia.
  reflexivity.
Qed.

(** X21. In automatic mode the triples follow from the external ports
    alone, whatever [internal_ports] and [protocols] the caller passed: the
    triple at position [i] of external port [a] is
    [(a, 22 | 80 | 443 | 8080, tcp)] for [i < 4] and [(a, a, tcp)] from
    position 4 on, and there are as many triples as external ports, chosen
    by the caller or by the allocator. *)
Theorem add_container_automatic_triples
    fuel h cfg ip n ints exts protos temp descr st triples st1 :
  add_container fuel h cfg ip "automatic" n ints exts protos temp descr st
    = (Ok triples, st1) ->
  exists assigned,
    match exts with
    | Some (p :: ps) => assigned = p :: ps
    | _ => assign_ports fuel h cfg st n = Ok assigned
    end
    /\ List.length triples = List.length assigned
    /\ forall i a, nth_error assigned i = Some a ->
         nth_error triples i = Some (a, nth i INTERNAL_PORTS_DEFAULT a, "tcp").
Proof.
  intros H. apply add_container_ok_inv in H.
  destruct H as [assigned [internal [plist [s1 [Hd [_ [-> _]]]]]]].
  assert (Hsrc : match exts with
                 | Some (p :: ps) => assigned = p :: ps
                 | _ => assign_ports fuel h cfg st n = Ok assigned
                 end
                 /\ determine_internal "automatic"
                      (match exts with
                       | Some (p :: ps) => Z.of_nat (List.length (p :: ps))
                       | _ => n
                       end) assigned ints protos
                    = Ok (assigned, internal, plist)).
  { unfold determine_ports in Hd.
    destruct (negb (validate_ip ip)); [discriminate|].
    destruct (0 <? count_by_ip st ip); [discriminate|].
    assert (Hi : forall k a,
               determine_internal "automatic" k a ints protos
               = Ok (assigned, internal, plist) -> a = assigned).
    { intros k a. unfold determine_internal.
      cbn [String.eqb Ascii.eqb Bool.eqb].
      destruct (automatic_loop (range k) a [] []) as [[i p]|e|];
        cbn [bind]; [|discriminate..].
      intros X. now injection X. }
    destruct exts as [[|p ps]|].
    - destruct (assign_ports fuel h cfg st n) as [ports|e|]; cbn [bind] in Hd;
        [|discriminate..].
      pose proof (Hi _ _ Hd). subst ports. auto.
    - cbn [bind] in Hd. pose proof (Hi _ _ Hd) as E. subst assigned. auto.
    - destruct (assign_ports fuel h cfg st n) as [ports|e|]; cbn [bind] in Hd;
        [|discriminate..].
      pose proof (Hi _ _ Hd). subst ports. auto. }
  destruct Hsrc as [Hassigned Hint].
  exists assigned. split; [exact Hassigned|].
  assert (Hl : List.length assigned
               = Z.to_nat (match exts with
                           | Some (p :: ps) => Z.of_nat (List.length (p :: ps))
                           | _ => n
                           end)).
  { destruct exts as [[|p ps]|].
    - now destruct (assign_ports_ok _ _ _ _ _ _ Hassigned).
    - subst assigned. now rewrite Nat2Z.id.
    - now destruct (assign_ports_ok _ _ _ _ _ _ Hassigned). }
  rewrite (determine_internal_automatic assigned _ ints protos Hl) in Hint.
  injection Hint as <- <-.
  split.
  - rewrite zip3_length, length_map, length_seq, repeat_length. lia.
  - intros i a Ha. rewrite nth_error_zip3, Ha.
    assert (Hi : (i < List.length assigned)%nat)
      by (apply nth_error_Some; congruence).
    rewrite nth_error_map.
    rewrite (nth_error_nth' (seq 0 (List.length assigned)) O)
      by (now rewrite length_seq).
    rewrite seq_nth by exact Hi. simpl.
    rewrite (nth_error_nth' (repeat "tcp" (List.length assigned)) "tcp")
      by (now rewrite repeat_length).
    rewrite nth_repeat.
    now rewrite (nth_error_nth _ _ 0 Ha).
Qed.

Lemma add_container_automatic_triples_witness :
  exists assigned,
    assigned = [9000; 9001; 9002; 9003; 9004]
    /\ List.length [(9000, 22, "tcp"); (9001, 80, "tcp"); (9002, 443, "tcp");
                    (9003, 8080, "tcp"); (9004, 9004, "tcp")]
       = List.length assigned
    /\ forall i a, nth_error assigned i = Some a ->
         nth_error [(9000, 22, "tcp"); (9001, 80, "tcp"); (9002, 443, "tcp");
                    (9003, 8080, "tcp"); (9004, 9004, "tcp")] i
         = Some (a, nth i INTERNAL_PORTS_DEFAULT a, "tcp").
Proof.
  apply (add_container_automatic_triples 0 quiet_host DEFAULT_CONFIG
           "10.0.0.5" 1 (Some [1; 2]) (Some [9000; 9001; 9002; 9003; 9004])
           (Some ["udp"]) true None fresh_state
           [(9000, 22, "tcp"); (9001, 80, "tcp"); (9002, 443, "tcp");
            (9003, 8080, "tcp"); (9004, 9004, "tcp")]
           (snd (add_container 0 quiet_host DEFAULT_CONFIG "10.0.0.5"
                   "automatic" 1 (Some [1; 2])
                   (Some [9000; 9001; 9002; 9003; 9004]) (Some ["udp"]) true
                   None fresh_state))).
  vm_compute. reflexivity.
Defined.

(** ** Decimal writing and reading *)

Lemma fold_digits_acc (d : Decimal.uint) : forall acc : positive,
  fold_left (fun a c => 10 * a + digit_value c)
            (list_ascii_of_string (NilEmpty.string_of_uint d)) (Z.pos acc)
  = Z.pos (Pos.of_uint_acc d acc).
Proof.
  induction d; intros acc; cbn [NilEmpty.string_of_uint list_ascii_of_string
                                fold_left Pos.of_uint_acc];
    [reflexivity
    | rewrite <- IHd; f_equal;
      match goal with
      | |- context [digit_value ?c] =>
          let v := eval vm_compute in (digit_value c) in
          change (digit_value c) with v
      end; lia ..].
Qed.

Lemma fold_digits_zero (d : Decimal.uint) :
  fold_left (fun a c => 10 * a + digit_value c)
            (list_ascii_of_string (NilEmpty.string_of_uint d)) 0
  = Z.of_N (Pos.of_uint d).
Proof.
  induction d; cbn [NilEmpty.string_of_uint list_ascii_of_string fold_left
                    Pos.of_uint];
    [reflexivity
    | exact IHd
    | match goal with
      | |- fold_left _ _ ?a = _ =>
          let p := eval vm_compute in a in
          change a with p; rewrite fold_digits_acc; reflexivity
      end ..].
Qed.

Lemma string_of_pos (p : positive) :
  str (Z.pos p) = NilEmpty.string_of_uint (Pos.to_uint p).
Proof.
  unfold str. simpl. unfold NilZero.string_of_uint.
  pose proof (Unsigned.to_uint_nonnil p).
  destruct (Pos.to_uint p); [congruence | reflexivity ..].
Qed.

(** [int(str(n)) == n] for a natural number. *)
Lemma int_of_digits_str (n : Z) : 0 <= n -> int_of_digits (str n) = n.
Proof.
  destruct n as [|p|p]; [reflexivity | | lia]. intros _.
  rewrite string_of_pos. unfold int_of_digits.
  now rewrite fold_digits_zero, Unsigned.of_to.
Qed.

Lemma string_of_uint_digits (d : Decimal.uint) :
  all_chars is_digit (NilEmpty.string_of_uint d) = true.
Proof. induction d; simpl; auto. Qed.

(** The decimal writing of a natural number: digits, at least one. *)
Lemma str_digits (n : Z) :
  0 <= n -> all_chars is_digit (str n) = true /\ str n <> EmptyString.
Proof.
  destruct n as [|p|p]; [split; [reflexivity | discriminate] | | lia].
  intros _. rewrite string_of_pos. split; [apply string_of_uint_digits|].
  pose proof (Unsigned.to_uint_nonnil p).
  destruct (Pos.to_uint p); [congruence | discriminate ..].
Qed.

(** ** Searching a line *)

Lemma search_after_cons_skip {A : Type} (lit : string)
      (body : string -> option A) (c : ascii) (s : string) :
  strip_prefix lit (String c s) = None ->
  search_after lit body (String c s) = search_after lit body s.
Proof. intros H. cbn [search_after]. now rewrite H. Qed.

Lemma search_after_here {A : Type} (lit : string) (body : string -> option A)
      (s rest : string) (a : A) :
  strip_prefix lit s = Some rest -> body rest = Some a ->
  search_after lit body s = Some a.
Proof. intros H1 H2. destruct s; cbn [search_after]; now rewrite H1, H2. Qed.

(** Characters that differ from the first one of the literal are passed
    over. *)
Lemma search_after_skip {A : Type} (l0 : ascii) (lit : string)
      (body : string -> option A) (a s : string) :
  all_chars (fun c => negb (Ascii.eqb l0 c)) a = true ->
  search_after (String l0 lit) body (a ++ s)
  = search_after (String l0 lit) body s.
Proof.
  induction a as [|c a IH]; [reflexivity|].
  intros H. unfold all_chars in H. simpl in H.
  apply andb_true_iff in H. destruct H as [Hc Ha].
  change (String c a ++ s)%string with (String c (a ++ s)).
  rewrite search_after_cons_skip; [now apply IH|].
  simpl. apply negb_true_iff in Hc. now rewrite Hc.
Qed.

Lemma strip_prefix_app (lit rest : string) :
  strip_prefix lit (lit ++ rest) = Some rest.
Proof.
  induction lit as [|c lit IH]; simpl; [reflexivity|].
  now rewrite Ascii.eqb_refl.
Qed.

Lemma span_app (p : ascii -> bool) (a s : string) :
  all_chars p a = true ->
  match s with
  | EmptyString => True
  | String c _ => p c = false
  end ->
  span p (a ++ s) = (a, s).
Proof.
  induction a as [|c a IH]; unfold all_chars; simpl.
  - intros _ H. destruct s as [|c s]; [reflexivity|]. simpl. now rewrite H.
  - rewrite andb_true_iff. intros [Hc Ha] H. rewrite Hc.
    now rewrite (IH Ha H).
Qed.

Lemma prefix_app (a b : string) : prefix a (a ++ b) = true.
Proof.
  induction a as [|c a IH]; simpl; [now destruct b|].
  destruct (ascii_dec c c); [exact IH | congruence].
Qed.

Lemma contains_here (needle rest : string) :
  contains needle (needle ++ rest) = true.
Proof.
  destruct (needle ++ rest)%string eqn:E; cbn [contains];
    rewrite <- E, prefix_app; reflexivity.
Qed.

Lemma contains_app_r (needle a b : string) :
  contains needle b = true -> contains needle (a ++ b) = true.
Proof.
  intros H. induction a as [|c a IH]; [exact H|].
  simpl append. cbn [contains]. rewrite IH. apply orb_true_r.
Qed.

Lemma contains_cons (needle : string) (c : ascii) (s : string) :
  contains needle s = true -> contains needle (String c s) = true.
Proof. intros H. cbn [contains]. rewrite H. apply orb_true_r. Qed.

Lemma all_chars_weaken (p q : ascii -> bool) (s : string) :
  (forall c, p c = true -> q c = true) ->
  all_chars p s = true -> all_chars q s = true.
Proof.
  intros Hpq. unfold all_chars. rewrite !forallb_forall. auto.
Qed.

Lemma is_digit_not_dash (c : ascii) :
  is_digit c = true -> negb (Ascii.eqb "-" c) = true.
Proof.
  destruct c as [[] [] [] [] [] [] [] []]; vm_compute; congruence.
Qed.

Lemma is_word_not_dash (c : ascii) :
  is_word c = true -> negb (Ascii.eqb "-" c) = true.
Proof.
  destruct c as [[] [] [] [] [] [] [] []]; vm_compute; congruence.
Qed.

Lemma string_app_assoc (a b c : string) :
  ((a ++ b) ++ c = a ++ (b ++ c))%string.
Proof. induction a; simpl; congruence. Qed.

(** ** Reading back a saved rule *)

Ltac skip_literal :=
  cbn [append];
  repeat (rewrite search_after_cons_skip by reflexivity).

Lemma eqb_empty_false (s : string) :
  s <> EmptyString -> String.eqb s EmptyString = false.
Proof. destruct s; [congruence | reflexivity]. Qed.

Section SavedRule.

Variables (cfg : Config) (with_match : bool) (proto ip : string) (ext int : Z).

Hypothesis iface_no_dash :
  all_chars (fun c => negb (Ascii.eqb "-" c)) (network_interface cfg) = true.
Hypothesis proto_word : all_chars is_word proto = true.
Hypothesis proto_nonempty : proto <> EmptyString.
Hypothesis ext_nat : 0 <= ext.
Hypothesis int_nat : 0 <= int.
Hypothesis ip_no_colon :
  all_chars (fun c => negb (Ascii.eqb c ":")) ip = true.
Hypothesis ip_nonempty : ip <> EmptyString.

Lemma saved_line_protocol :
  protocol_match (saved_rule_line cfg with_match proto ext ip int) = Some proto.
Proof.
  unfold saved_rule_line, protocol_match.
  skip_literal. rewrite search_after_skip by exact iface_no_dash.
  skip_literal.
  eapply search_after_here; [reflexivity|].
  rewrite span_app; [now rewrite eqb_empty_false | exact proto_word |].
  now destruct with_match.
Qed.

Lemma saved_line_dport :
  dport_match (saved_rule_line cfg with_match proto ext ip int) = Some (str ext).
Proof.
  destruct (str_digits ext ext_nat) as [Hd Hne].
  pose proof (all_chars_weaken _ _ _ is_word_not_dash proto_word) as Hp.
  unfold saved_rule_line, dport_match.
  skip_literal. rewrite search_after_skip by exact iface_no_dash.
  skip_literal. rewrite search_after_skip by exact Hp.
  destruct with_match.
  - skip_literal.
    rewrite search_after_skip by exact Hp. skip_literal.
    eapply search_after_here; [reflexivity|].
    rewrite span_app; [now rewrite eqb_empty_false | exact Hd | reflexivity].
  - skip_literal.
    eapply search_after_here; [reflexivity|].
    rewrite span_app; [now rewrite eqb_empty_false | exact Hd | reflexivity].
Qed.

Lemma saved_line_to_dest :
  to_dest_match (saved_rule_line cfg with_match proto ext ip int)
  = Some (ip, str int).
Proof.
  destruct (str_digits ext ext_nat) as [Hd _].
  destruct (str_digits int int_nat) as [Hi Hine].
  pose proof (all_chars_weaken _ _ _ is_word_not_dash proto_word) as Hp.
  pose proof (all_chars_weaken _ _ _ is_digit_not_dash Hd) as Hd'.
  assert (Hbody :
    (fun rest : string =>
       let (ip0, after) := span (fun c => negb (Ascii.eqb c ":")) rest in
       if String.eqb ip0 EmptyString then None
       else match after with
            | String _ after_colon =>
                let (d, _) := span is_digit after_colon in
                if String.eqb d EmptyString then None else Some (ip0, d)
            | EmptyString => None
            end) (ip ++ ":" ++ str int)%string = Some (ip, str int)).
  { cbv beta. rewrite span_app; [| exact ip_no_colon | reflexivity].
    rewrite eqb_empty_false by exact ip_nonempty. cbn [append].
    replace (str int) with (str int ++ "")%string at 1
      by (clear; induction (str int); simpl; congruence).
    rewrite span_app; [| exact Hi | exact I].
    now rewrite eqb_empty_false. }
  unfold saved_rule_line, to_dest_match.
  skip_literal. rewrite search_after_skip by exact iface_no_dash.
  skip_literal. rewrite search_after_skip by exact Hp.
  destruct with_match.
  - skip_literal.
    rewrite search_after_skip by exact Hp. skip_literal.
    rewrite search_after_skip by exact Hd'. skip_literal.
    eapply search_after_here; [reflexivity | exact Hbody].
  - skip_literal.
    rewrite search_after_skip by exact Hd'. skip_literal.
    eapply search_after_here; [reflexivity | exact Hbody].
Qed.

Lemma saved_line_guards :
  contains "-A PREROUTING" (saved_rule_line cfg with_match proto ext ip int)
  && contains "-j DNAT" (saved_rule_line cfg with_match proto ext ip int)
  && contains ("-i " ++ network_interface cfg)%string
              (saved_rule_line cfg with_match proto ext ip int) = true.
Proof.
  unfold saved_rule_line. rewrite !andb_true_iff.
  split; [split|].
  - reflexivity.
  - do 7 apply contains_app_r. reflexivity.
  - cbn [append]. do 14 apply contains_cons.
    refine (contains_here ("-i " ++ network_interface cfg)%string _).
Qed.

Lemma parse_saved_line :
  parse_rule_line cfg (saved_rule_line cfg with_match proto ext ip int)
  = Some (proto, ext, ip, int).
Proof.
  unfold parse_rule_line.
  rewrite saved_line_guards, saved_line_protocol, saved_line_dport,
    saved_line_to_dest.
  now rewrite !int_of_digits_str.
Qed.

End SavedRule.

(** X22. What [setup_iptables_rules] programs, [rebuild_database] reads
    back.  The rule specification of the [iptables -A] call, written on one
    line as [iptables-save] prints it (with or without the [-m] match after
    the protocol), is parsed into the protocol, external port, owner and
    internal port it was built from, when the interface name has no dash,
    the protocol is a non-empty word, the ports are natural numbers and the
    owner is non-empty without colon. *)
Theorem saved_rule_line_read_back
    (cfg : Config) (with_match : bool) (proto ip : string) (ext int : Z) :
  all_chars (fun c => negb (Ascii.eqb "-" c)) (network_interface cfg) = true ->
  all_chars is_word proto = true ->
  proto <> EmptyString ->
  0 <= ext ->
  0 <= int ->
  all_chars (fun c => negb (Ascii.eqb c ":")) ip = true ->
  ip <> EmptyString ->
  parse_rule_line cfg (saved_rule_line cfg with_match proto ext ip int)
    = Some (proto, ext, ip, int)
  /\ saved_rule_line cfg false proto ext ip int
     = join_spaces (skipn 3 (iptables_cmd "-A" cfg proto ext ip int)).
Proof.
  intros H1 H2 H3 H4 H5 H6 H7. split.
  - now apply parse_saved_line.
  - unfold saved_rule_line, iptables_cmd. cbn [skipn join_spaces append].
    repeat (rewrite ?string_app_assoc; cbn [append]). reflexivity.
Qed.

Lemma saved_rule_line_read_back_witness :
  parse_rule_line DEFAULT_CONFIG
    (saved_rule_line DEFAULT_CONFIG true "udp" 50001 "10.0.0.6" 53)
    = Some ("udp", 50001, "10.0.0.6", 53)
  /\ saved_rule_line DEFAULT_CONFIG false "udp" 50001 "10.0.0.6" 53
     = join_spaces (skipn 3 (iptables_cmd "-A" DEFAULT_CONFIG "udp" 50001
                                          "10.0.0.6" 53)).
Proof.
  apply (saved_rule_line_read_back DEFAULT_CONFIG true "udp" "10.0.0.6"
           50001 53).
  - reflexivity.
  - reflexivity.
  - discriminate.
  - lia.
  - lia.
  - reflexivity.
  - discriminate.
Defined.

Lemma rebuild_loop_noop cfg : forall lines n st,
  (forall line t, In line lines -> parse_rule_line cfg line = Some t ->
                  absent st t = false) ->
  rebuild_loop cfg lines (n, st) = (n, st).
Proof.
  induction lines as [|l ls IH]; intros n st H; cbn [rebuild_loop];
    [reflexivity|].
  destruct (parse_rule_line cfg l) as [t|] eqn:E.
  - rewrite rebuild_step_absent, (H l t (or_introl eq_refl) E).
    apply IH. intros line t' Hl. apply H. now right.
  - apply IH. intros line t' Hl. apply H. now right.
Qed.

(** X23. The table that [add_container] writes agrees with the firewall it
    programs: after a stored call, [rebuild_database] over a dump whose
    rule lines are the saved lines of the batch (any other line being one
    that the parser passes over) inserts nothing and returns 0. *)
Theorem rebuild_after_add_inserts_nothing
    fuel h cfg ip mode n ints exts protos descr st triples st1
    (iptables_save_stdout : string) :
  add_container fuel h cfg ip mode n ints exts protos false descr st
    = (Ok triples, st1) ->
  all_chars (fun c => negb (Ascii.eqb "-" c)) (network_interface cfg) = true ->
  all_chars (fun c => negb (Ascii.eqb c ":")) ip = true ->
  (forall t, In t triples -> readable_triple t) ->
  (forall line, In line (splitlines iptables_save_stdout) ->
     parse_rule_line cfg line = None
     \/ exists with_match ext_port int_port proto,
          In (ext_port, int_port, proto) triples
          /\ line = saved_rule_line cfg with_match proto ext_port ip
                                    int_port) ->
  rebuild_database cfg iptables_save_stdout st1 = (0, st1).
Proof.
  intros H Hif Hip Hread Hlines.
  destruct (add_container_owner_rows _ _ _ _ _ _ _ _ _ _ _ _ _ _ H)
    as [Hown _].
  assert (Hv : ip <> EmptyString).
  { apply add_container_ok_inv in H.
    destruct H as [a [i [p [s1 [Hd _]]]]].
    apply determine_ports_checked in Hd. destruct Hd as [Hd _].
    intros ->. discriminate Hd. }
  unfold rebuild_database. apply rebuild_loop_noop.
  intros line t Hl Hp.
  destruct (Hlines line Hl) as [Hn|[wm [e [i [p [Hin ->]]]]]]; [congruence|].
  destruct (Hread _ Hin) as [Hw [Hne [He Hi]]].
  rewrite (parse_saved_line cfg wm p ip e i Hif Hw Hne He Hi Hip Hv) in Hp.
  assert (Et : t = (p, e, ip, i)) by congruence. subst t. clear Hp.
  unfold absent. apply Z.eqb_neq.
  match goal with
  | |- Z.of_nat (List.length ?l) <> 0 =>
      assert (X : In (mapping_of_triple ip descr (e, i, p)) l)
  end.
  { apply filter_In. split.
    - assert (Y : In (mapping_of_triple ip descr (e, i, p))
                     (filter (fun m => String.eqb (container_ip m) ip)
                             (port_mappings st1)))
        by (rewrite Hown; now apply in_map).
      now apply filter_In in Y.
    - simpl. now rewrite !String.eqb_refl, Z.eqb_refl. }
  clear Hown.
  destruct (filter _ (port_mappings st1)); [destruct X | simpl; lia].
Qed.

Lemma rebuild_after_add_inserts_nothing_witness :
  rebuild_database DEFAULT_CONFIG two_rule_dump two_port_state
  = (0, two_port_state).
Proof.
  apply (rebuild_after_add_inserts_nothing 1 quiet_host DEFAULT_CONFIG
           "10.0.0.5" "automatic" 2 None None None None fresh_state
           [(50000, 22, "tcp"); (50001, 80, "tcp")] two_port_state
           two_rule_dump).
  - vm_compute. reflexivity.
  - reflexivity.
  - reflexivity.
  - intros t [<-|[<-|[]]]; (split; [reflexivity|]); (split; [discriminate|]);
      lia.
  - intros line Hl. vm_compute in Hl.
    destruct Hl as [<-|[<-|[<-|[<-|[<-|[]]]]]].
    + left. vm_compute. reflexivity.
    + left. vm_compute. reflexivity.
    + right. exists true, 50000, 22, "tcp". split; [now left|].
      vm_compute. reflexivity.
    + right. exists true, 50001, 80, "tcp". split; [right; now left|].
      vm_compute. reflexivity.
    + left. vm_compute. reflexivity.
Defined.

(** ** [validate_ip] *)

Lemma split_no_sep (sep : ascii) (a : string) :
  all_chars (fun c => negb (Ascii.eqb c sep)) a = true ->
  split sep a = [a].
Proof.
  induction a as [|c a IH]; [reflexivity|].
  unfold all_chars. simpl. rewrite andb_true_iff. intros [Hc Ha].
  apply negb_true_iff in Hc. rewrite Hc. now rewrite (IH Ha).
Qed.

Lemma split_app_sep (sep : ascii) (a rest : string) :
  all_chars (fun c => negb (Ascii.eqb c sep)) a = true ->
  split sep (a ++ String sep rest) = a :: split sep rest.
Proof.
  induction a as [|c a IH].
  - intros _. simpl. now rewrite Ascii.eqb_refl.
  - unfold all_chars. simpl. rewrite andb_true_iff. intros [Hc Ha].
    apply negb_true_iff in Hc. rewrite Hc. now rewrite (IH Ha).
Qed.

Lemma split_nonempty (sep : ascii) (s : string) : split sep s <> [].
Proof.
  destruct s as [|c s]; simpl; [discriminate|].
  destruct (Ascii.eqb c sep); [discriminate|].
  destruct (split sep s); discriminate.
Qed.

(** [sep.join(s.split(sep)) == s]. *)
Lemma join_split (sep : ascii) (s : string) :
  join_with sep (split sep s) = s.
Proof.
  induction s as [|c s IH]; [reflexivity|]. cbn [split].
  pose proof (split_nonempty sep s) as Hne.
  destruct (Ascii.eqb_spec c sep) as [->|Hc];
    destruct (split sep s) as [|w ws]; try congruence.
  - change (join_with sep (EmptyString :: w :: ws))
      with (String sep (join_with sep (w :: ws))).
    now rewrite IH.
  - destruct ws as [|w' ws].
    + simpl in *. congruence.
    + change (join_with sep (String c w :: w' :: ws))
        with (String c (w ++ String sep (join_with sep (w' :: ws)))).
      change (join_with sep (w :: w' :: ws))
        with (w ++ String sep (join_with sep (w' :: ws)))%string in IH.
      now rewrite IH.
Qed.

Lemma chomp_no_newline (s : string) :
  all_chars (fun c => negb (Ascii.eqb c newline)) s = true -> chomp s = s.
Proof.
  induction s as [|c s IH]; [reflexivity|].
  unfold all_chars. simpl. rewrite andb_true_iff. intros [Hc Ha].
  apply negb_true_iff in Hc. rewrite Hc. simpl. now rewrite (IH Ha).
Qed.

Lemma chomp_app_newline (s : string) :
  all_chars (fun c => negb (Ascii.eqb c newline)) s = true ->
  chomp (s ++ String newline EmptyString) = s.
Proof.
  induction s as [|c s IH]; [reflexivity|].
  unfold all_chars. simpl. rewrite andb_true_iff. intros [Hc Ha].
  apply negb_true_iff in Hc. rewrite Hc. simpl. now rewrite (IH Ha).
Qed.

(** [chomp] drops nothing or one final LF. *)
Lemma chomp_spec (s : string) :
  s = chomp s \/ s = (chomp s ++ String newline EmptyString)%string.
Proof.
  induction s as [|c s IH]; [now left|]. simpl.
  destruct (Ascii.eqb_spec c newline) as [->|Hne]; simpl.
  - destruct s as [|d s]; [now right|]. simpl in *.
    destruct IH as [IH|IH]; [left | right]; congruence.
  - destruct IH as [IH|IH]; [left | right]; congruence.
Qed.

Lemma string_app_nil_r (s : string) : (s ++ "")%string = s.
Proof. induction s; simpl; congruence. Qed.

Lemma all_chars_app (p : ascii -> bool) (a b : string) :
  all_chars p (a ++ b) = all_chars p a && all_chars p b.
Proof.
  unfold all_chars. induction a as [|c a IH]; simpl; [reflexivity|].
  now rewrite IH, andb_assoc.
Qed.

Lemma is_digit_not_dot (c : ascii) :
  is_digit c = true -> negb (Ascii.eqb c ".") = true.
Proof. destruct c as [[] [] [] [] [] [] [] []]; vm_compute; congruence. Qed.

Lemma is_digit_not_newline (c : ascii) :
  is_digit c = true -> negb (Ascii.eqb c newline) = true.
Proof. destruct c as [[] [] [] [] [] [] [] []]; vm_compute; congruence. Qed.

(** The decimal writing of a number from 0 to 255 passes the check of an
    octet. *)
Lemma str_octet (n : Z) :
  0 <= n <= 255 ->
  all_chars is_digit (str n) = true /\ octet_ok (str n) = true.
Proof.
  intros Hn.
  assert (H : forallb (fun k => all_chars is_digit (str k) && octet_ok (str k))
                      (range 256) = true) by (vm_compute; reflexivity).
  rewrite forallb_forall in H.
  specialize (H n (proj2 (in_range 256 n) ltac:(lia))).
  now apply andb_true_iff in H.
Qed.

Lemma digits_octet_parts (o : string) :
  octet_ok o = true ->
  digits_1_3 o = true /\ all_chars is_digit o = true
  /\ 0 <= int_of_digits o <= 255.
Proof.
  unfold octet_ok, digits_1_3. rewrite !andb_true_iff.
  intros [[[Hd H1] H3] Hle]. repeat split; auto; [| lia].
  unfold int_of_digits. fold (all_chars is_digit o) in Hd. clear - Hd.
  unfold all_chars in Hd.
  assert (G : forall l acc, forallb is_digit l = true -> 0 <= acc ->
                0 <= fold_left (fun a c => 10 * a + digit_value c) l acc).
  { induction l as [|c l IH]; cbn [fold_left forallb]; intros acc Hl Hacc;
      [exact Hacc|].
    apply andb_true_iff in Hl. destruct Hl as [Hc Hl]. apply IH; [exact Hl|].
    assert (0 <= digit_value c).
    { unfold is_digit in Hc. unfold digit_value.
      apply andb_true_iff in Hc. destruct Hc as [Hc _].
      apply Nat.leb_le in Hc. lia. }
    lia. }
  apply G; [exact Hd | lia].
Qed.

(** [validate_ip] on a string that is four good octets between dots, with
    or without one final LF. *)
Lemma validate_ip_octets (o1 o2 o3 o4 : string) (lf : bool) :
  octet_ok o1 = true -> octet_ok o2 = true -> octet_ok o3 = true ->
  octet_ok o4 = true ->
  validate_ip (o1 ++ "." ++ o2 ++ "." ++ o3 ++ "." ++ o4
               ++ (if lf then String newline EmptyString else EmptyString))
  = true.
Proof.
  intros H1 H2 H3 H4.
  destruct (digits_octet_parts _ H1) as [D1 [A1 R1]].
  destruct (digits_octet_parts _ H2) as [D2 [A2 R2]].
  destruct (digits_octet_parts _ H3) as [D3 [A3 R3]].
  destruct (digits_octet_parts _ H4) as [D4 [A4 R4]].
  pose proof (all_chars_weaken _ _ _ is_digit_not_dot A1) as N1.
  pose proof (all_chars_weaken _ _ _ is_digit_not_dot A2) as N2.
  pose proof (all_chars_weaken _ _ _ is_digit_not_dot A3) as N3.
  pose proof (all_chars_weaken _ _ _ is_digit_not_dot A4) as N4.
  pose proof (all_chars_weaken _ _ _ is_digit_not_newline A1) as L1.
  pose proof (all_chars_weaken _ _ _ is_digit_not_newline A2) as L2.
  pose proof (all_chars_weaken _ _ _ is_digit_not_newline A3) as L3.
  pose proof (all_chars_weaken _ _ _ is_digit_not_newline A4) as L4.
  set (tail := if lf then String newline EmptyString else EmptyString).
  assert (Ntail : all_chars (fun c => negb (Ascii.eqb c ".")) (o4 ++ tail)
                  = true).
  { rewrite all_chars_app, N4. now destruct lf. }
  assert (Esplit : split "." (o1 ++ "." ++ o2 ++ "." ++ o3 ++ "." ++ o4 ++ tail)
                   = [o1; o2; o3; (o4 ++ tail)%string]).
  { cbn [append]. rewrite !split_app_sep by assumption.
    now rewrite split_no_sep. }
  assert (Echomp : chomp (o1 ++ "." ++ o2 ++ "." ++ o3 ++ "." ++ o4 ++ tail)
                   = (o1 ++ "." ++ o2 ++ "." ++ o3 ++ "." ++ o4)%string).
  { assert (Lall : all_chars (fun c => negb (Ascii.eqb c newline))
                     (o1 ++ "." ++ o2 ++ "." ++ o3 ++ "." ++ o4) = true).
    { rewrite !all_chars_app, L1, L2, L3, L4. reflexivity. }
    destruct lf; unfold tail.
    - rewrite <- (chomp_app_newline _ Lall). f_equal.
      cbn [append]. repeat (rewrite string_app_assoc; cbn [append]).
      reflexivity.
    - replace (o4 ++ "")%string with o4
        by (clear; induction o4; simpl; congruence).
      now apply chomp_no_newline. }
  assert (Echomp4 : chomp (o4 ++ tail) = o4).
  { destruct lf; unfold tail.
    - now apply chomp_app_newline.
    - replace (o4 ++ "")%string with o4
        by (clear; induction o4; simpl; congruence).
      now apply chomp_no_newline. }
  unfold validate_ip, ip_pattern_match. rewrite Echomp.
  assert (Esplit0 : split "." (o1 ++ "." ++ o2 ++ "." ++ o3 ++ "." ++ o4)
                    = [o1; o2; o3; o4]).
  { cbn [append]. rewrite !split_app_sep by assumption.
    now rewrite split_no_sep. }
  rewrite Esplit0. cbn [forallb]. rewrite D1, D2, D3, D4. cbn [andb negb].
  rewrite Esplit. cbn [forallb].
  rewrite (chomp_no_newline o1 L1), (chomp_no_newline o2 L2),
    (chomp_no_newline o3 L3), Echomp4.
  repeat (apply andb_true_intro; split); try reflexivity;
    apply Z.leb_le; lia.
Qed.

(** X24. Every dotted quad of four numbers from 0 to 255 is accepted by
    [validate_ip]; so is the same text followed by one line feed, which
    [$] and [int] both let through. *)
Theorem validate_ip_accepts_dotted_quad (a b c d : Z) :
  0 <= a <= 255 -> 0 <= b <= 255 -> 0 <= c <= 255 -> 0 <= d <= 255 ->
  validate_ip (dotted_quad a b c d) = true
  /\ validate_ip (dotted_quad a b c d ++ String newline EmptyString) = true.
Proof.
  intros Ha Hb Hc Hd.
  destruct (str_octet a Ha) as [_ Oa]. destruct (str_octet b Hb) as [_ Ob].
  destruct (str_octet c Hc) as [_ Oc]. destruct (str_octet d Hd) as [_ Od].
  pose proof (validate_ip_octets _ _ _ _ false Oa Ob Oc Od) as H0.
  pose proof (validate_ip_octets _ _ _ _ true Oa Ob Oc Od) as H1.
  cbv iota in H0, H1. rewrite string_app_nil_r in H0.
  unfold dotted_quad. split; [exact H0|].
  match goal with
  | |- validate_ip ?s = true =>
      replace s
        with (str a ++ "." ++ str b ++ "." ++ str c ++ "." ++ str d
              ++ String newline EmptyString)%string;
      [exact H1|]
  end.
  cbn [append]. repeat (rewrite string_app_assoc; cbn [append]).
  reflexivity.
Qed.

Lemma validate_ip_accepts_dotted_quad_witness :
  validate_ip (dotted_quad 192 168 0 255) = true
  /\ validate_ip (dotted_quad 192 168 0 255 ++ String newline EmptyString)
     = true.
Proof.
  apply (validate_ip_accepts_dotted_quad 192 168 0 255); lia.
Defined.

(** X25. On ASCII text, where [\d] stands for [0-9] and [int] reads
    decimal digits only, [validate_ip] accepts nothing but dotted quads: an
    accepted string is, up to one final line feed, four groups of one to
    three decimal digits separated by dots, each of value at most 255.
    (Outside ASCII the pattern of the source also matches the decimal
    digits of other scripts, which the 8-bit characters used here do not
    represent.) *)
Theorem validate_ip_only_dotted_quads (ip : string) :
  is_ascii_text ip = true ->
  validate_ip ip = true ->
  exists o1 o2 o3 o4,
    chomp ip = (o1 ++ "." ++ o2 ++ "." ++ o3 ++ "." ++ o4)%string
    /\ octet_ok o1 = true /\ octet_ok o2 = true
    /\ octet_ok o3 = true /\ octet_ok o4 = true
    /\ (ip = chomp ip \/ ip = (chomp ip ++ String newline EmptyString)%string).
Proof.
  intros _. unfold validate_ip, ip_pattern_match.
  pose proof (join_split "." (chomp ip)) as Hj.
  destruct (split "." (chomp ip)) as [|o1 [|o2 [|o3 [|o4 [|o5 os]]]]] eqn:Es;
    try discriminate.
  destruct (forallb digits_1_3 [o1; o2; o3; o4]) eqn:Ed; [|discriminate].
  cbn [negb]. cbn [forallb] in Ed. rewrite !andb_true_iff in Ed.
  destruct Ed as [D1 [D2 [D3 [D4 _]]]].
  assert (Hdig : forall o, digits_1_3 o = true -> all_chars is_digit o = true).
  { intros o. unfold digits_1_3. rewrite !andb_true_iff. now intros [[H _] _]. }
  pose proof (Hdig _ D1) as A1. pose proof (Hdig _ D2) as A2.
  pose proof (Hdig _ D3) as A3. pose proof (Hdig _ D4) as A4.
  pose proof (all_chars_weaken _ _ _ is_digit_not_dot A1) as N1.
  pose proof (all_chars_weaken _ _ _ is_digit_not_dot A2) as N2.
  pose proof (all_chars_weaken _ _ _ is_digit_not_dot A3) as N3.
  pose proof (all_chars_weaken _ _ _ is_digit_not_dot A4) as N4.
  pose proof (all_chars_weaken _ _ _ is_digit_not_newline A1) as L1.
  pose proof (all_chars_weaken _ _ _ is_digit_not_newline A2) as L2.
  pose proof (all_chars_weaken _ _ _ is_digit_not_newline A3) as L3.
  pose proof (all_chars_weaken _ _ _ is_digit_not_newline A4) as L4.
  cbn [join_with] in Hj.
  intros Hv. exists o1, o2, o3, o4.
  split; [now rewrite <- Hj|].
  assert (Hoct : forall tail,
             (tail = EmptyString \/ tail = String newline EmptyString) ->
             ip = (chomp ip ++ tail)%string ->
             octet_ok o1 = true /\ octet_ok o2 = true
             /\ octet_ok o3 = true /\ octet_ok o4 = true).
  { intros tail Ht Hip.
    assert (Ntail : all_chars (fun c => negb (Ascii.eqb c ".")) (o4 ++ tail)
                    = true).
    { rewrite all_chars_app, N4. now destruct Ht as [->| ->]. }
    assert (E4 : chomp (o4 ++ tail) = o4).
    { destruct Ht as [->| ->].
      - rewrite string_app_nil_r. now apply chomp_no_newline.
      - now apply chomp_app_newline. }
    rewrite Hip, <- Hj in Hv.
    replace ((o1 ++ String "." (o2 ++ String "." (o3 ++ String "." o4)))
             ++ tail)%string
      with (o1 ++ String "." (o2 ++ String "." (o3 ++ String "."
              (o4 ++ tail))))%string in Hv
      by (repeat (rewrite string_app_assoc; cbn [append]); reflexivity).
    rewrite !split_app_sep in Hv by assumption.
    rewrite split_no_sep in Hv by assumption.
    cbn [forallb] in Hv.
    rewrite (chomp_no_newline o1 L1), (chomp_no_newline o2 L2),
      (chomp_no_newline o3 L3), E4 in Hv.
    rewrite !andb_true_iff in Hv.
    destruct Hv as [[_ H1] [[_ H2] [[_ H3] [[_ H4] _]]]].
    unfold octet_ok. now rewrite D1, D2, D3, D4, H1, H2, H3, H4. }
  destruct (chomp_spec ip) as [Hc|Hc].
  - destruct (Hoct EmptyString (or_introl eq_refl)) as [H1 [H2 [H3 H4]]];
      [now rewrite string_app_nil_r | auto 10].
  - destruct (Hoct (String newline EmptyString) (or_intror eq_refl))
      as [H1 [H2 [H3 H4]]]; [exact Hc | auto 10].
Qed.

Lemma validate_ip_only_dotted_quads_witness :
  exists o1 o2 o3 o4,
    chomp "10.0.0.5" = (o1 ++ "." ++ o2 ++ "." ++ o3 ++ "." ++ o4)%string
    /\ octet_ok o1 = true /\ octet_ok o2 = true
    /\ octet_ok o3 = true /\ octet_ok o4 = true
    /\ ("10.0.0.5" = chomp "10.0.0.5"
        \/ "10.0.0.5" = (chomp "10.0.0.5" ++ String newline EmptyString)%string).
Proof.
  apply (validate_ip_only_dotted_quads "10.0.0.5");
    vm_compute; reflexivity.
Defined.

(** ** Export and import *)

Lemma import_absent_other (st : State) (e e' : Entry) :
  entry_key e <> entry_key e' ->
  import_absent st e' = true ->
  import_absent
    (set_port_mappings st (port_mappings st ++ [mapping_of_entry e])) e'
  = true.
Proof.
  unfold import_absent, entry_key. intros Hk H. simpl.
  rewrite filter_app, length_app. simpl.
  destruct (String.eqb_spec (entry_container_ip e) (entry_container_ip e'))
    as [E1|N1]; simpl.
  - destruct (Z.eqb_spec (entry_external_port e) (entry_external_port e'))
      as [E2|N2]; simpl.
    + exfalso. apply Hk. congruence.
    + apply Z.eqb_eq in H. apply Z.eqb_eq. simpl. lia.
  - apply Z.eqb_eq in H. apply Z.eqb_eq. simpl. lia.
Qed.

(** On a host whose commands succeed, entries with distinct keys of which
    none is in the table are all imported, in the order of the file. *)
Lemma import_loop_all (h : Host) (cfg : Config) :
  accepting h ->
  forall data n st,
    NoDup (map entry_key data) ->
    (forall e, In e data -> import_absent st e = true) ->
    exists st',
      import_loop h cfg data n st
        = (Ok (n + Z.of_nat (List.length data)), st')
      /\ port_mappings st' = port_mappings st ++ map mapping_of_entry data.
Proof.
  intros [Hok Hs]. induction data as [|e rest IH]; intros n st Hnd Habs.
  - exists st. simpl. rewrite Z.add_0_r, List.app_nil_r. auto.
  - rewrite import_loop_step, (Habs e) by now left.
    pose proof (setup_iptables_rules_accepting h cfg (entry_container_ip e)
                  [entry_external_port e] [entry_internal_port e]
                  [match entry_protocol e with Some p => p | None => "tcp" end]
                  true st Hok Hs) as Hacc.
    destruct (setup_iptables_rules h cfg (entry_container_ip e) _ _ _ true st)
      as [o st1] eqn:Es. simpl in Hacc. subst o.
    destruct (setup_iptables_rules_tables _ _ _ _ _ _ _ _ _ _ Es) as [Hp _].
    inversion Hnd as [|k ks Hk Hnd']. subst.
    destruct (IH (n + 1)
                 (set_port_mappings st1
                    (port_mappings st1 ++ [mapping_of_entry e])) Hnd')
      as [st' [Hr Hrows]].
    + intros e' He'.
      rewrite (import_absent_same_rows _
                 (set_port_mappings st
                    (port_mappings st ++ [mapping_of_entry e])) e')
        by (simpl; now rewrite Hp).
      apply import_absent_other; [|apply Habs; now right].
      intros E. apply Hk. rewrite E. now apply in_map.
    + exists st'. split.
      * rewrite Hr. do 2 f_equal. simpl List.length. lia.
      * rewrite Hrows. simpl. rewrite Hp, <- List.app_assoc. reflexivity.
Qed.

(** X26. Export then import.  On a host whose firewall commands succeed,
    importing what [export_mappings] wrote from a table with unique
    (container_ip, external_port) into an empty table imports every row:
    the count returned is the number of rows, and the new table holds the
    exported rows in the order of the file, each with [temporary] unset and
    everything else as it was. *)
Theorem export_then_import_reproduces
    (h : Host) (cfg : Config) (st st0 : State) (data : list Entry) :
  export_mappings st data ->
  NoDup (map owner_port (port_mappings st)) ->
  accepting h ->
  port_mappings st0 = [] ->
  exists st',
    import_mappings h cfg data st0
      = (Ok (Z.of_nat (List.length (port_mappings st))), st')
    /\ Permutation (port_mappings st')
         (map (fun m => mapping_of_entry (entry_of_mapping m))
              (port_mappings st))
    /\ ((forall m, In m (port_mappings st) -> temporary m = false) ->
        Permutation (port_mappings st') (port_mappings st)).
Proof.
  intros [rows [Hl ->]] Hnd Hacc H0.
  assert (Hperm : Permutation rows (port_mappings st)).
  { inversion Hl; subst; assumption. }
  assert (Hkeys : NoDup (map entry_key (map entry_of_mapping rows))).
  { rewrite map_map. change (NoDup (map owner_port rows)).
    apply (Permutation_NoDup (l := map owner_port (port_mappings st)));
      [|exact Hnd].
    apply Permutation_map. now apply Permutation_sym. }
  destruct (import_loop_all h cfg Hacc (map entry_of_mapping rows) 0 st0 Hkeys)
    as [st' [Hr Hrows]].
  { intros e _. unfold import_absent. now rewrite H0. }
  exists st'. unfold import_mappings. rewrite Hr, Hrows, H0. simpl app.
  rewrite length_map, map_map.
  split; [|split].
  - now rewrite (Permutation_length Hperm).
  - now apply Permutation_map.
  - intros Ht. apply Permutation_trans with rows; [|exact Hperm].
    replace (map (fun x => mapping_of_entry (entry_of_mapping x)) rows)
      with rows; [apply Permutation_refl|].
    assert (Hall : forall m, In m rows -> temporary m = false).
    { intros m Hm. apply Ht. eapply Permutation_in; eauto. }
    clear - Hall. induction rows as [|m ms IH]; [reflexivity|].
    simpl. rewrite <- IH by (intros x Hx; apply Hall; now right).
    f_equal. specialize (Hall m (or_introl eq_refl)).
    destruct m. simpl in *. subst. reflexivity.
Qed.

Lemma export_then_import_reproduces_witness :
  exists st',
    import_mappings quiet_host DEFAULT_CONFIG
      (map entry_of_mapping (port_mappings two_port_state)) fresh_state
      = (Ok (Z.of_nat (List.length (port_mappings two_port_state))), st')
    /\ Permutation (port_mappings st')
         (map (fun m => mapping_of_entry (entry_of_mapping m))
              (port_mappings two_port_state))
    /\ ((forall m, In m (port_mappings two_port_state) ->
                   temporary m = false) ->
        Permutation (port_mappings st') (port_mappings two_port_state)).
Proof.
  apply (export_then_import_reproduces quiet_host DEFAULT_CONFIG
           two_port_state fresh_state).
  - exists (port_mappings two_port_state). split; [|reflexivity].
    apply list_all; [now left | apply Permutation_refl |].
    vm_compute. constructor.
    + constructor; [constructor | constructor].
    + constructor; [|constructor]. right. split; [reflexivity|].
      intros H. discriminate H.
  - vm_compute. constructor.
    + intros [H|[]]. discriminate H.
    + constructor; [intros []|constructor].
  - split; [intros rs r; reflexivity | reflexivity].
  - reflexivity.
Defined.

(** ** [is_port_in_use] *)

(** X27. [is_port_in_use] reports every port that the output of [ss]
    shows after a colon and before a space or a line end, wherever that is
    in the text; and it reports no port from ten to the length of the output
    on, so that only finitely many ports can be reported in use. *)
Theorem is_port_in_use_listed_and_bounded
    (h : Host) (port : Z) (before after : string) (lf : bool) :
  (ss_stdout h
   = (before ++ ":" ++ str port
      ++ String (if lf then newline else " ") after)%string ->
   is_port_in_use h port = true)
  /\ (10 ^ Z.of_nat (String.length (ss_stdout h)) <= port ->
      is_port_in_use h port = false).
Proof.
  split; [|apply is_port_in_use_bounded].
  intros E. unfold is_port_in_use. rewrite E. apply orb_true_iff.
  destruct lf; [right | left]; apply contains_app_r.
  - replace (":" ++ str port ++ String newline after)%string
      with ((":" ++ str port ++ String newline EmptyString) ++ after)%string;
      [apply contains_here|].
    cbn [append]. rewrite string_app_assoc. reflexivity.
  - replace (":" ++ str port ++ String " " after)%string
      with ((":" ++ str port ++ " ") ++ after)%string;
      [apply contains_here|].
    cbn [append]. rewrite string_app_assoc. reflexivity.
Qed.

Lemma is_port_in_use_listed_and_bounded_witness :
  is_port_in_use busy_host 50001 = true
  /\ is_port_in_use busy_host (10 ^ 40) = false.
Proof.
  split.
  - apply (proj1 (is_port_in_use_listed_and_bounded busy_host 50001
                    "tcp LISTEN 0 128 0.0.0.0" "0.0.0.0:*" false)).
    reflexivity.
  - apply (proj2 (is_port_in_use_listed_and_bounded busy_host (10 ^ 40)
                    EmptyString EmptyString false)).
    vm_compute. discriminate.
Defined.

(** ** What [add_container] can raise *)

Lemma determine_internal_raises mode k assigned ints protos e :
  List.length assigned = Z.to_nat k ->
  determine_internal mode k assigned ints protos = Raise e ->
  exists msg, e = ValueError msg.
Proof.
  intros Hl. unfold determine_internal.
  destruct (String.eqb_spec mode "automatic") as [->|_].
  - pose proof (determine_internal_automatic assigned k ints protos Hl) as H.
    unfold determine_internal in H. cbn [String.eqb Ascii.eqb Bool.eqb] in H.
    rewrite H. discriminate.
  - destruct (String.eqb mode "manual").
    + destruct ints as [[|q qs]|]; try (intros X; injection X as <-; eauto).
      destruct (negb (Z.of_nat (List.length (q :: qs)) =? k));
        [intros X; injection X as <-; eauto | discriminate].
    + intros X. injection X as <-. eauto.
Qed.

Lemma determine_ports_raises fuel h cfg st ip mode n ints exts protos e :
  determine_ports fuel h cfg st ip mode n ints exts protos = Raise e ->
  exists msg, e = ValueError msg.
Proof.
  intros Ed. unfold determine_ports in Ed.
  destruct (negb (validate_ip ip)); [injection Ed as <-; eauto|].
  destruct (0 <? count_by_ip st ip); [injection Ed as <-; eauto|].
  destruct exts as [[|p ps]|].
  - destruct (assign_ports fuel h cfg st n) as [ports|x|] eqn:Ea;
      cbn [bind] in Ed;
      [| exfalso; unfold assign_ports in Ea;
         destruct (assign_loop _ _ _ _ _ _); discriminate
       | discriminate].
    apply assign_ports_ok in Ea. destruct Ea as [Hl _].
    now apply determine_internal_raises in Ed.
  - cbn [bind] in Ed.
    apply determine_internal_raises in Ed; [exact Ed|].
    now rewrite Nat2Z.id.
  - destruct (assign_ports fuel h cfg st n) as [ports|x|] eqn:Ea;
      cbn [bind] in Ed;
      [| exfalso; unfold assign_ports in Ea;
         destruct (assign_loop _ _ _ _ _ _); discriminate
       | discriminate].
    apply assign_ports_ok in Ea. destruct Ea as [Hl _].
    now apply determine_internal_raises in Ed.
Qed.

Lemma program_rules_raises h cfg ip : forall triples s r s2,
  program_rules h cfg ip triples s = (Raise r, s2) ->
  exists cmd, r = CalledProcessError cmd.
Proof.
  induction triples as [|[[x y] z] rest IH]; intros s r s2; simpl;
    [discriminate|].
  destruct (negb (iptables_rule_exists cfg s z x ip y)); [|apply IH].
  destruct (iptables_append_ok h (nat_rules s) _); [apply IH|].
  intros X. injection X as <- _. eauto.
Qed.

(** X28. What a rejected call of [add_container] leaves behind.  In
    automatic mode the loop reads [assigned_ports[i]] only below the number
    of assigned ports, whether they come from the caller or from the
    allocator: the call never raises [IndexError].  And a [ValueError] with
    the message of one of the five [raise] statements of [add_container] is
    raised before anything is written: both tables, the NAT table, the
    forwarding switch and the saved rules are as they were. *)
Theorem add_container_rejection_is_clean
    fuel h cfg ip mode n ints exts protos temp descr st e st' :
  add_container fuel h cfg ip mode n ints exts protos temp descr st
    = (Raise e, st') ->
  e <> IndexError
  /\ (forall msg, In msg (rejection_messages ip mode) ->
                  e = ValueError msg -> st' = st).
Proof.
  intros H. unfold add_container in H.
  destruct (determine_ports fuel h cfg st ip mode n ints exts protos)
    as [[[assigned internal] plist]|e0|] eqn:Ed; [| |discriminate].
  - assert (Hc : exists cmd, e = CalledProcessError cmd).
    { unfold setup_iptables_rules in H.
      destruct (program_rules h cfg ip (zip3 assigned internal plist) st)
        as [[u|e1|] s1] eqn:Ep.
      - destruct (sysctl_ok h); [discriminate|].
        injection H as <- <-. eauto.
      - injection H as <- <-. eapply program_rules_raises. exact Ep.
      - discriminate. }
    destruct Hc as [cmd ->]. split; [discriminate|].
    intros msg _ X. discriminate.
  - injection H as <- <-.
    destruct (determine_ports_raises _ _ _ _ _ _ _ _ _ _ _ Ed) as [msg ->].
    split; [discriminate | reflexivity].
Qed.

Lemma add_container_rejection_is_clean_witness :
  ValueError "Invalid mode: bridge" <> IndexError
  /\ (forall msg, In msg (rejection_messages "10.0.0.5" "bridge") ->
                  ValueError "Invalid mode: bridge" = ValueError msg ->
                  fresh_state = fresh_state).
Proof.
  apply (add_container_rejection_is_clean 1 quiet_host DEFAULT_CONFIG
           "10.0.0.5" "bridge" 6 None None None false None fresh_state).
  vm_compute. reflexivity.
Defined.

(** ** Manual mode and the length of [protocols] *)

Lemma zip3_In {A B C : Type} (la : list A) (lb : list B) (lc : list C) a b c :
  In (a, b, c) (zip3 la lb lc) -> In a la /\ In b lb /\ In c lc.
Proof.
  revert lb lc. induction la as [|x la IH]; intros [|y lb] [|z lc];
    cbn [zip3]; try contradiction.
  intros [E|H].
  - injection E as -> -> ->. repeat split; now left.
  - destruct (IH _ _ H) as [Ha [Hb Hc]]. repeat split; now right.
Qed.

(** The allocator stops at the first free block of its search: its ports
    lie between the base port and the end of any free block it would
    visit. *)
Lemma assign_ports_within fuel h cfg st n ports (k : nat) :
  0 < n ->
  block_conflict h (assigned_ports_of st) (reserved_set st) n
                 (port_start cfg + Z.of_nat k * n) = false ->
  assign_ports fuel h cfg st n = Ok ports ->
  forall p, In p ports ->
    port_start cfg <= p < port_start cfg + Z.of_nat k * n + n.
Proof.
  intros Hn Hfree. unfold assign_ports.
  fold (assigned_ports_of st). fold (reserved_set st).
  destruct (assign_loop fuel h (assigned_ports_of st) (reserved_set st) n
              (port_start cfg)) as [b|] eqn:E; [|discriminate].
  intros X. injection X as <-.
  apply assign_loop_sound in E. destruct E as [k' [-> [_ Hbusy]]].
  assert (Hk : (k' <= k)%nat).
  { destruct (Nat.le_gt_cases k' k) as [Hle|Hgt]; [exact Hle|].
    specialize (Hbusy k Hgt). congruence. }
  intros p Hp. apply in_map_iff in Hp. destruct Hp as [i [<- Hi]].
  apply in_range in Hi. nia.
Qed.

Lemma setup_iptables_rules_fresh (h : Host) (cfg : Config) (ip : string)
    exts ints protos save st u st' :
  (forall t, In t (zip3 exts ints protos) ->
             ~ In (rule_of cfg ip t) (nat_rules st)) ->
  NoDup (map (rule_of cfg ip) (zip3 exts ints protos)) ->
  setup_iptables_rules h cfg ip exts ints protos save st = (Ok u, st') ->
  nat_rules st' = nat_rules st ++ map (rule_of cfg ip) (zip3 exts ints protos).
Proof.
  intros Hfresh Hnd. unfold setup_iptables_rules.
  destruct (program_rules h cfg ip (zip3 exts ints protos) st) as [o st1] eqn:E.
  destruct o as [u1|e|]; [|discriminate..].
  destruct (sysctl_ok h); [|discriminate].
  intros X. injection X as _ <-.
  rewrite <- (program_rules_fresh _ _ _ _ _ _ _ Hfresh Hnd E).
  destruct save; [|reflexivity].
  now destruct (save_iptables_rules_frame h (set_ip_forward st1 true))
    as [_ [_ [-> _]]].
Qed.

Lemma repeat_length_Z {A : Type} (x : A) (k : Z) :
  0 <= k -> Z.of_nat (List.length (repeat x (Z.to_nat k))) = k.
Proof. intros Hk. rewrite repeat_length. lia. Qed.

(** C10, as stated, fails on two counts.  An empty protocols list counts
    as no list at all: every slot gets tcp, and two triples are bound where
    the claim counts [min(2, 0) = 0].  And a rule that is live already is
    not programmed again: with the rule 50000 -> 10.0.0.5:22 live, one port
    and two protocols, one triple is returned and no rule is programmed
    where the claim counts [min(1, 2) = 1]. *)
Lemma add_container_manual_counts_differ :
  (Z.of_nat (List.length (@nil string)) <> 2
   /\ fst (add_container 1 quiet_host DEFAULT_CONFIG "10.0.0.5" "manual" 2
             (Some [22; 80]) None (Some []) false None fresh_state)
      = Ok [(50000, 22, "tcp"); (50001, 80, "tcp")]
   /\ Z.of_nat (List.length [(50000, 22, "tcp"); (50001, 80, "tcp")])
      <> Z.min 2 (Z.of_nat (List.length (@nil string))))
  /\ (Z.of_nat (List.length ["tcp"; "udp"]) <> 1
      /\ fst (add_container 1 quiet_host DEFAULT_CONFIG "10.0.0.5" "manual" 1
                (Some [22]) None (Some ["tcp"; "udp"]) false None
                live_rule_state)
         = Ok [(50000, 22, "tcp")]
      /\ nat_rules (snd (add_container 1 quiet_host DEFAULT_CONFIG "10.0.0.5"
                           "manual" 1 (Some [22]) None (Some ["tcp"; "udp"])
                           false None live_rule_state))
         = nat_rules live_rule_state
      /\ 0 <> Z.min 1 (Z.of_nat (List.length ["tcp"; "udp"]))).
Proof.
  split.
  - split; [discriminate|].
    split; [vm_compute; reflexivity | discriminate].
  - split; [discriminate|]. split; [vm_compute; reflexivity|].
    split; [vm_compute; reflexivity | discriminate].
Qed.

(** C10, as the code has it.  Manual mode, as many internal ports as the
    count (at least one), a valid owner without rows, a host whose firewall
    commands succeed and, unless the call is temporary, internal and
    external ports within the integers of SQLite.  Then the call raises
    nothing whatever the length of [protocols]: the three lists are
    combined position by position up to the shortest, where an empty or
    missing protocols list stands for [num_ports] times tcp.  So for a
    non-empty list [min(num_ports, len(protocols))] triples are returned,
    for an empty or missing one [num_ports] triples, all tcp; as many rows
    are inserted (none when temporary); the rule of every triple is live
    afterwards and the NAT table grew by rules of these triples only, at
    most one per triple, and by exactly one per triple, in order, when
    these rules are distinct and none was live before. *)
Theorem add_container_manual_protocols_truncated
    (h : Host) (cfg : Config) (ip : string) (n : Z) (ints : list Z)
    (exts : option (list Z)) (protos : option (list string)) (temp : bool)
    (descr : option string) (st : State) :
  validate_ip ip = true ->
  count_by_ip st ip = 0 ->
  (forall rs r, iptables_append_ok h rs r = true) ->
  sysctl_ok h = true ->
  ints <> [] ->
  Z.of_nat (List.length ints) = effective_num_ports exts n ->
  (temp = false ->
   Forall sqlite_int ints /\ storable_ports h cfg st exts n) ->
  exists fuel0 : nat, forall fuel, (fuel0 <= fuel)%nat ->
  exists assigned st',
    add_container fuel h cfg ip "manual" n (Some ints) exts protos
                  temp descr st
      = (Ok (zip3 assigned ints
               (manual_protocols_list protos (effective_num_ports exts n))),
         st')
    /\ Z.of_nat (List.length assigned) = effective_num_ports exts n
    /\ (forall ps, protos = Some ps -> ps <> [] ->
          Z.of_nat (List.length
             (zip3 assigned ints
                (manual_protocols_list protos (effective_num_ports exts n))))
          = Z.min (effective_num_ports exts n) (Z.of_nat (List.length ps))
          /\ zip3 assigned ints
               (manual_protocols_list protos (effective_num_ports exts n))
             = zip3 assigned ints ps)
    /\ (protos = None \/ protos = Some [] ->
          Z.of_nat (List.length
             (zip3 assigned ints
                (manual_protocols_list protos (effective_num_ports exts n))))
          = effective_num_ports exts n
          /\ forall t,
               In t (zip3 assigned ints
                       (manual_protocols_list protos
                          (effective_num_ports exts n))) ->
               snd t = "tcp")
    /\ port_mappings st'
       = port_mappings st ++
         (if temp then []
          else map (mapping_of_triple ip descr)
                 (zip3 assigned ints
                    (manual_protocols_list protos
                       (effective_num_ports exts n))))
    /\ (forall t,
          In t (zip3 assigned ints
                  (manual_protocols_list protos
                     (effective_num_ports exts n))) ->
          In (rule_of cfg ip t) (nat_rules st'))
    /\ (exists added,
          nat_rules st' = nat_rules st ++ added
          /\ incl added
               (map (rule_of cfg ip)
                  (zip3 assigned ints
                     (manual_protocols_list protos
                        (effective_num_ports exts n))))
          /\ (List.length added
              <= List.length
                   (zip3 assigned ints
                      (manual_protocols_list protos
                         (effective_num_ports exts n))))%nat)
    /\ ((forall t,
           In t (zip3 assigned ints
                   (manual_protocols_list protos
                      (effective_num_ports exts n))) ->
           ~ In (rule_of cfg ip t) (nat_rules st)) ->
        NoDup (map (rule_of cfg ip)
                 (zip3 assigned ints
                    (manual_protocols_list protos
                       (effective_num_ports exts n)))) ->
        nat_rules st'
        = nat_rules st ++
          map (rule_of cfg ip)
            (zip3 assigned ints
               (manual_protocols_list protos (effective_num_ports exts n))))
    /\ (temp = false ->
        forall t,
          In t (zip3 assigned ints
                  (manual_protocols_list protos
                     (effective_num_ports exts n))) ->
          sqlite_int (fst (fst t)) /\ sqlite_int (snd (fst t))).
Proof.
  intros Hv Hc Hok Hs Hi Hl Hrange.
  assert (Hpos : 0 < effective_num_ports exts n)
    by (rewrite <- Hl; destruct ints; [congruence | simpl; lia]).
  assert (Hchoice : exists (fuel0 : nat) (assigned : list Z),
             Z.of_nat (List.length assigned) = effective_num_ports exts n
             /\ (temp = false -> Forall sqlite_int assigned)
             /\ forall fuel, (fuel0 <= fuel)%nat ->
                  match exts with
                  | Some (p :: ps) => assigned = p :: ps
                  | _ => assign_ports fuel h cfg st n = Ok assigned
                  end).
  { assert (Halloc : 0 < n ->
              (temp = false ->
               sqlite_int (port_start cfg)
               /\ exists k : nat,
                    block_conflict h (assigned_ports_of st) (reserved_set st)
                                   n (port_start cfg + Z.of_nat k * n) = false
                    /\ port_start cfg + Z.of_nat k * n + n <= 2 ^ 63) ->
              exists (fuel0 : nat) (assigned : list Z),
                Z.of_nat (List.length assigned) = n
                /\ (temp = false -> Forall sqlite_int assigned)
                /\ forall fuel, (fuel0 <= fuel)%nat ->
                     assign_ports fuel h cfg st n = Ok assigned).
    { intros Hn Hst.
      destruct (assign_ports_total h cfg st n Hn) as [f0 [ports Hf]].
      exists f0, ports.
      pose proof (Hf f0 (Nat.le_refl _)) as Hf0.
      destruct (assign_ports_ok _ _ _ _ _ _ Hf0) as [Hlen _].
      split; [rewrite Hlen; lia|]. split; [|exact Hf].
      intros Ht. destruct (Hst Ht) as [[Hlo _] [k [Hfree Hhi]]].
      apply Forall_forall. intros p Hp.
      pose proof (assign_ports_within _ _ _ _ _ _ k Hn Hfree Hf0 p Hp).
      unfold sqlite_int. lia. }
    destruct exts as [[|p ps]|]; cbn [effective_num_ports storable_ports] in *.
    - apply Halloc; [exact Hpos|]. intros Ht. now destruct (Hrange Ht).
    - exists O, (p :: ps). split; [reflexivity|].
      split; [|intros; reflexivity].
      intros Ht. now destruct (Hrange Ht).
    - apply Halloc; [exact Hpos|]. intros Ht. now destruct (Hrange Ht). }
  destruct Hchoice as [fuel0 [assigned [Hla [Hsq Hch]]]].
  exists fuel0. intros fuel Hfuel. specialize (Hch fuel Hfuel).
  pose proof (determine_ports_manual fuel h cfg st ip n ints exts
                protos assigned Hv Hc Hi Hch Hl) as Hd.
  fold (manual_protocols_list protos (effective_num_ports exts n)) in Hd.
  set (plist := manual_protocols_list protos (effective_num_ports exts n))
    in *.
  destruct (add_container_accepting fuel h cfg ip "manual" n (Some ints) exts
              protos temp descr st _ _ _ Hok Hs Hd)
    as [st1 [Hsetup Ha]].
  destruct (setup_iptables_rules_tables _ _ _ _ _ _ _ _ _ _ Hsetup)
    as [Hpm _].
  destruct (setup_iptables_rules_ok _ _ _ _ _ _ _ _ _ _ Hsetup)
    as [Hin [_ [_ Hadd]]].
  pose proof (fun Hf Hn =>
                setup_iptables_rules_fresh _ _ _ _ _ _ _ _ _ _ Hf Hn Hsetup)
    as Hexact.
  assert (Hnr : nat_rules (if negb temp
                           then insert_mappings st1 ip
                                  (zip3 assigned ints plist) descr
                           else st1) = nat_rules st1)
    by (destruct temp; reflexivity).
  exists assigned. eexists. split; [exact Ha|].
  split; [exact Hla|].
  split.
  { intros ps -> Hps. destruct ps as [|x xs]; [congruence|].
    subst plist. cbn [manual_protocols_list].
    split; [rewrite zip3_length; lia | reflexivity]. }
  split.
  { intros Hemp.
    assert (Epl : plist = repeat "tcp" (Z.to_nat (effective_num_ports exts n)))
      by (subst plist; destruct Hemp as [-> | ->]; reflexivity).
    rewrite Epl. split.
    - rewrite zip3_length, repeat_length. lia.
    - intros [[a b] c] Ht. apply zip3_In in Ht. destruct Ht as [_ [_ Hc3]].
      apply repeat_spec in Hc3. exact Hc3. }
  split.
  { destruct temp; cbn [negb].
    - now rewrite List.app_nil_r.
    - unfold insert_mappings. simpl. now rewrite Hpm. }
  rewrite Hnr.
  split; [exact Hin|]. split; [exact Hadd|]. split; [exact Hexact|].
  intros Ht [[a b] c] Hin3. apply zip3_In in Hin3.
  destruct Hin3 as [Ha1 [Hb1 _]]. cbn [fst snd].
  destruct (Hrange Ht) as [Hints _].
  split.
  - exact (proj1 (Forall_forall _ _) (Hsq Ht) a Ha1).
  - exact (proj1 (Forall_forall _ _) Hints b Hb1).
Qed.

(** Two ports, two internal ports, one protocol, on a fresh database. *)
Lemma add_container_manual_protocols_truncated_witness :
  exists fuel0 : nat, forall fuel, (fuel0 <= fuel)%nat ->
  exists assigned st',
    add_container fuel quiet_host DEFAULT_CONFIG "10.0.0.5" "manual" 2%Z (Some [22%Z; 80%Z]) None (Some ["tcp"])
                  false None fresh_state
      = (Ok (zip3 assigned [22%Z; 80%Z]
               (manual_protocols_list (Some ["tcp"]) (effective_num_ports None 2%Z))),
         st')
    /\ Z.of_nat (List.length assigned) = effective_num_ports None 2%Z
    /\ (forall ps, (Some ["tcp"]) = Some ps -> ps <> [] ->
          Z.of_nat (List.length
             (zip3 assigned [22%Z; 80%Z]
                (manual_protocols_list (Some ["tcp"]) (effective_num_ports None 2%Z))))
          = Z.min (effective_num_ports None 2%Z) (Z.of_nat (List.length ps))
          /\ zip3 assigned [22%Z; 80%Z]
               (manual_protocols_list (Some ["tcp"]) (effective_num_ports None 2%Z))
             = zip3 assigned [22%Z; 80%Z] ps)
    /\ ((Some ["tcp"]) = None \/ (Some ["tcp"]) = Some [] ->
          Z.of_nat (List.length
             (zip3 assigned [22%Z; 80%Z]
                (manual_protocols_list (Some ["tcp"]) (effective_num_ports None 2%Z))))
          = effective_num_ports None 2%Z
          /\ forall t,
               In t (zip3 assigned [22%Z; 80%Z]
                       (manual_protocols_list (Some ["tcp"])
                          (effective_num_ports None 2%Z))) ->
               snd t = "tcp")
    /\ port_mappings st'
       = port_mappings fresh_state ++
         (if false then []
          else map (mapping_of_triple "10.0.0.5" None)
                 (zip3 assigned [22%Z; 80%Z]
                    (manual_protocols_list (Some ["tcp"])
                       (effective_num_ports None 2%Z))))
    /\ (forall t,
          In t (zip3 assigned [22%Z; 80%Z]
                  (manual_protocols_list (Some ["tcp"])
                     (effective_num_ports None 2%Z))) ->
          In (rule_of DEFAULT_CONFIG "10.0.0.5" t) (nat_rules st'))
    /\ (exists added,
          nat_rules st' = nat_rules fresh_state ++ added
          /\ incl added
               (map (rule_of DEFAULT_CONFIG "10.0.0.5")
                  (zip3 assigned [22%Z; 80%Z]
                     (manual_protocols_list (Some ["tcp"])
                        (effective_num_ports None 2%Z))))
          /\ (List.length added
              <= List.length
                   (zip3 assigned [22%Z; 80%Z]
                      (manual_protocols_list (Some ["tcp"])
                         (effective_num_ports None 2%Z))))%nat)
    /\ ((forall t,
           In t (zip3 assigned [22%Z; 80%Z]
                   (manual_protocols_list (Some ["tcp"])
                      (effective_num_ports None 2%Z))) ->
           ~ In (rule_of DEFAULT_CONFIG "10.0.0.5" t) (nat_rules fresh_state)) ->
        NoDup (map (rule_of DEFAULT_CONFIG "10.0.0.5")
                 (zip3 assigned [22%Z; 80%Z]
                    (manual_protocols_list (Some ["tcp"])
                       (effective_num_ports None 2%Z)))) ->
        nat_rules st'
        = nat_rules fresh_state ++
          map (rule_of DEFAULT_CONFIG "10.0.0.5")
            (zip3 assigned [22%Z; 80%Z]
               (manual_protocols_list (Some ["tcp"]) (effective_num_ports None 2%Z))))
    /\ (false = false ->
        forall t,
          In t (zip3 assigned [22%Z; 80%Z]
                  (manual_protocols_list (Some ["tcp"])
                     (effective_num_ports None 2%Z))) ->
          sqlite_int (fst (fst t)) /\ sqlite_int (snd (fst t))).
Proof.
  apply (add_container_manual_protocols_truncated quiet_host DEFAULT_CONFIG
           "10.0.0.5" 2 [22; 80] None (Some ["tcp"]) false None fresh_state).
  - vm_compute; reflexivity.
  - reflexivity.
  - intros rs r; reflexivity.
  - reflexivity.
  - discriminate.
  - reflexivity.
  - intros _. split.
    + repeat constructor; vm_compute; congruence.
    + split; [split; vm_compute; congruence|].
      exists O. split; [vm_compute; reflexivity | vm_compute; congruence].
Defined.
